(** * pdf-sanitization: a shallow embedding of the backend and its properties

    The development follows the Python sources under [backend/]:
    - [template_utils.py]: bounding-box geometry, template ids and their
      versions on disk, the multi-source template save and the zone-content
      extractor;
    - [pipeline.py]: text deduplication, manual names, the scoring loop and
      the confidence gate of [process_batch], and the entry gate, template
      resolution and rectangle gate of [process_low_conf_batch];
    - [api_app.py]: upload-name and client-id sanitizers, the versioned
      download archive and the PassLog update-and-filter step of the two
      sanitize endpoints;
    - [llm_utils.py]: the sentence chunker of the AI client.

    Conventions of the embedding.
    - A Python [str] is a list of Unicode code points ([N]).  What the
      interpreter's Unicode database says about code points above 127
      (alphanumeric class, lower-casing, decimal value) is a parameter,
      [unicode_db]; the ASCII range and the white-space class are written out.
    - A Python [float] is a binary64 value of the kernel ([PrimFloat.float]);
      an [int] is a [Z]; [%] is [Z.modulo].
    - A [dict] whose iteration order is observed is an association list in
      insertion order; a [dict] or [set] whose order is not observed is a
      [gmap] or [gset].
    - A raised exception is the [Raise] outcome of an explicit result type;
      where a property speaks of what is logged or loaded, [print] and the
      template store append events to a log.
    Part I holds the definitions, Part II the lemmas and theorems. *)

From Stdlib Require Import ZArith NArith List Ascii String Floats Permutation Lia.
From Stdlib Require Import DecimalString DecimalN DecimalPos DecimalFacts.
From stdpp Require Import base option list gmap sorting.

Set Warnings "-inexact-float".
Local Open Scope Z_scope.

(* ================================================================== *)
(** * Part I.  The model                                               *)
(* ================================================================== *)

(** ** Python strings *)

Definition codepoint := N.
Definition pystr := list codepoint.

(** A string literal of the source, as code points. *)
Definition py (s : string) : pystr := map N_of_ascii (list_ascii_of_string s).

(** The part of the interpreter's Unicode database that the modelled
    functions consult for code points outside ASCII. *)
Record unicode_db := {
  uc_isalnum : codepoint -> bool;      (* [str.isalnum] of one character *)
  uc_lower : pystr -> pystr;           (* [str.lower] of a non-ASCII string *)
  uc_decimal : codepoint -> option N   (* value of a decimal digit, [\d] and [int] *)
}.

(** A database that knows no character outside ASCII; used to evaluate the
    model on ASCII inputs, where no database entry is consulted. *)
Definition ascii_db : unicode_db :=
  {| uc_isalnum := fun _ => false; uc_lower := fun s => s; uc_decimal := fun _ => None |}.

Definition is_ascii (c : codepoint) : bool := (c <? 128)%N.
Definition in_range (lo hi c : codepoint) : bool := ((lo <=? c) && (c <=? hi))%N.

Definition is_ascii_upper (c : codepoint) : bool := in_range 65%N 90%N c.
Definition is_ascii_lower (c : codepoint) : bool := in_range 97%N 122%N c.
Definition is_ascii_digit (c : codepoint) : bool := in_range 48%N 57%N c.
Definition is_ascii_alnum (c : codepoint) : bool :=
  is_ascii_upper c || is_ascii_lower c || is_ascii_digit c.

(** [str.isspace] of one character, which is also the class [\s] of [re]
    on [str] patterns and what [str.strip()] removes. *)
Definition isspace (c : codepoint) : bool :=
  (in_range 9 13 c || in_range 28 32 c || (c =? 133) || (c =? 160) || (c =? 5760)
   || in_range 8192 8202 c || (c =? 8232) || (c =? 8233) || (c =? 8239)
   || (c =? 8287) || (c =? 12288))%N.

(** [c.isalnum()] for a one-character string. *)
Definition isalnum (db : unicode_db) (c : codepoint) : bool :=
  if is_ascii c then is_ascii_alnum c else uc_isalnum db c.

Definition ascii_lower (c : codepoint) : codepoint :=
  if is_ascii_upper c then (c + 32)%N else c.

(** [s.lower()]. *)
Definition lower (db : unicode_db) (s : pystr) : pystr :=
  if forallb is_ascii s then map ascii_lower s else uc_lower db s.

Fixpoint lstrip (s : pystr) : pystr :=
  match s with
  | c :: s' => if isspace c then lstrip s' else s
  | [] => []
  end.

Definition rstrip (s : pystr) : pystr := rev (lstrip (rev s)).

(** [s.strip()]. *)
Definition strip (s : pystr) : pystr := rstrip (lstrip s).

(** [s.replace(a, b)] for one-character [a] and [b]. *)
Definition replace_char (a b : codepoint) (s : pystr) : pystr :=
  map (fun c => if (c =? a)%N then b else c) s.

(** [c in keep] for a one-character [c]. *)
Definition char_in (c : codepoint) (keep : pystr) : bool := existsb (N.eqb c) keep.

(** [s.split(sep)[-1]]: the part after the last [sep]. *)
Fixpoint last_component (sep : codepoint) (s : pystr) : pystr :=
  match s with
  | [] => []
  | c :: s' =>
      if existsb (N.eqb sep) s' then last_component sep s'
      else if (c =? sep)%N then s' else s
  end.

(** [x or default] for an optional string: [None] and the empty string are
    both false. *)
Definition str_or (x : option pystr) (default : pystr) : pystr :=
  match x with
  | Some (c :: s) => c :: s
  | _ => default
  end.

Definition SLASH : codepoint := 47%N.
Definition BACKSLASH : codepoint := 92%N.
Definition SPACE : codepoint := 32%N.
Definition UNDERSCORE : codepoint := 95%N.
Definition NEWLINE : codepoint := 10%N.

(** ** Floats and bounding boxes *)

Definition bbox := (float * float * float * float)%type.

(** [a >= b] on Python floats. *)
Definition fge (a b : float) : bool := (b <=? a)%float.

(** [min] and [max] of two floats, as the builtins compute them: the first
    argument is kept unless the second compares strictly below (above). *)
Definition fmin (a b : float) : float := if (b <? a)%float then b else a.
Definition fmax (a b : float) : float := if (a <? b)%float then b else a.

(** ** template_utils.py: geometry *)

Definition _normalized_bbox (b : bbox) : bbox :=
  let '(x0, y0, x1, y1) := b in
  (fmin x0 x1, fmin y0 y1, fmax x0 x1, fmax y0 y1).

Definition transform_bbox_for_rotation (b : bbox) (pw ph : float) (pr : Z) : bbox :=
  let '(x1, y1, x2, y2) := b in
  let pr := pr mod 360 in
  let '(nx1, ny1, nx2, ny2) :=
    if pr =? 0 then (x1, y1, x2, y2)
    else if pr =? 90 then (y1, pw - x2, y2, pw - x1)%float
    else if pr =? 180 then (pw - x2, ph - y2, pw - x1, ph - y1)%float
    else if pr =? 270 then (ph - y2, x1, ph - y1, x2)%float
    else (x1, y1, x2, y2) in
  let '(nx1, nx2) := if (nx2 <? nx1)%float then (nx2, nx1) else (nx1, nx2) in
  let '(ny1, ny2) := if (ny2 <? ny1)%float then (ny2, ny1) else (ny1, ny2) in
  (nx1, ny1, nx2, ny2).

(** The rotation table of the specification, one row per normalized
    rotation, before re-normalization. *)
Definition rotation_table (b : bbox) (pw ph : float) (r : Z) : bbox :=
  let '(x1, y1, x2, y2) := b in
  match r with
  | 90 => (y1, pw - x2, y2, pw - x1)%float
  | 180 => (pw - x2, ph - y2, pw - x1, ph - y1)%float
  | 270 => (ph - y2, x1, ph - y1, x2)%float
  | _ => (x1, y1, x2, y2)
  end.

(** Re-normalization as the specification words it: swap a pair of
    coordinates when the computed maximum is below the computed minimum. *)
Definition renormalize (b : bbox) : bbox :=
  let '(x1, y1, x2, y2) := b in
  (if (x2 <? x1)%float then x2 else x1,
   if (y2 <? y1)%float then y2 else y1,
   if (x2 <? x1)%float then x1 else x2,
   if (y2 <? y1)%float then y1 else y2).

Definition overlaps (b1 b2 : bbox) (tol : float) : bool :=
  let '(a0, a1, a2, a3) := b1 in
  let '(c0, c1, c2, c3) := b2 in
  negb ((a2 <? c0 - tol) || (c2 + tol <? a0) || (a3 <? c1 - tol) || (c3 + tol <? a1))%float.

(** ** api_app.py: upload names, client ids, PassLog keys *)

Definition KEEP : pystr := py "-_.() ".
Definition FILE_PDF : pystr := py "file.pdf".
Definition TEMPLATE : pystr := py "template".

(** The character test of [_safe_filename]: [c.isalnum() or c in keep]. *)
Definition filename_char (db : unicode_db) (c : codepoint) : bool :=
  isalnum db c || char_in c KEEP.

Definition _safe_filename (db : unicode_db) (name : option pystr) : pystr :=
  let name := strip (str_or name FILE_PDF) in
  let name := last_component SLASH (replace_char BACKSLASH SLASH name) in
  let cleaned := strip (List.filter (filename_char db) name) in
  str_or (Some cleaned) FILE_PDF.

(** The character test of [_safe_client_id]: [ch.isalnum() or ch in "_-"]. *)
Definition client_id_char (db : unicode_db) (ch : codepoint) : bool :=
  isalnum db ch || char_in ch (py "_-").

Definition _safe_client_id (db : unicode_db) (s : option pystr) : pystr :=
  let s := replace_char SPACE UNDERSCORE (lower db (strip (str_or s []))) in
  str_or (Some (List.filter (client_id_char db) s)) TEMPLATE.

(** The sentence of the specification about the client id, word for word:
    the lower-cased input with spaces replaced by underscores and every
    character other than alphanumerics, '_' and '-' removed, or "template"
    when that is empty. *)
Definition client_id_as_described (db : unicode_db) (s : pystr) : pystr :=
  let r := List.filter (client_id_char db) (replace_char SPACE UNDERSCORE (lower db s)) in
  match r with [] => TEMPLATE | _ => r end.

(** [s.rfind(c)]: the index of the last occurrence. *)
Fixpoint rfind (c : codepoint) (s : pystr) : option nat :=
  match s with
  | [] => None
  | x :: s' =>
      match rfind c s' with
      | Some i => Some (S i)
      | None => if (x =? c)%N then Some O else None
      end
  end.

Definition DOT : codepoint := 46%N.

(** [os.path.basename(p)] and [os.path.splitext(p)[0]] (posixpath). *)
Definition basename (p : pystr) : pystr := last_component SLASH p.

Definition splitext_root (p : pystr) : pystr :=
  match rfind DOT p with
  | None => p
  | Some d =>
      let start := match rfind SLASH p with Some i => S i | None => O end in
      if (start <=? d)%nat
      then if existsb (fun c => negb (c =? DOT)%N) (firstn (d - start) (skipn start p))
           then firstn d p else p
      else p
  end.

Definition _norm_key_from_path (db : unicode_db) (p : pystr) : pystr :=
  lower db (strip (splitext_root (basename p))).

(** ** template_utils.py: template ids and versions *)

(** The class [[A-Za-z0-9_\-]] of [_ID_RE]. *)
Definition is_client_char (c : codepoint) : bool :=
  (is_ascii_alnum c || (c =? 95) || (c =? 45))%N.

(** The class [\d] of a [str] pattern, and the value [int] gives a digit. *)
Definition is_digit (db : unicode_db) (c : codepoint) : bool :=
  if is_ascii c then is_ascii_digit c else bool_decide (is_Some (uc_decimal db c)).

Definition digit_value (db : unicode_db) (c : codepoint) : Z :=
  if is_ascii c then Z.of_N c - 48 else Z.of_N (default 0%N (uc_decimal db c)).

(** [int(s)] for a string of digits. *)
Definition int_of_digits (db : unicode_db) (s : pystr) : Z :=
  fold_left (fun acc c => 10 * acc + digit_value db c) s 0.

(** [f"{n}"] for an [int]. *)
Definition str_of_int (n : Z) : pystr := py (NilEmpty.string_of_int (Z.to_int n)).

Fixpoint take_while (p : codepoint -> bool) (s : pystr) : pystr :=
  match s with
  | c :: s' => if p c then c :: take_while p s' else []
  | [] => []
  end.

(** The tail [_v(?P<ver>\d+)$] of [_ID_RE]: the digits when [rest] is
    "_v", a non-empty maximal run of digits, and then the end of the string
    or one final newline (what [$] accepts). *)
Definition match_version_suffix (db : unicode_db) (rest : pystr) : option pystr :=
  match rest with
  | 95%N :: 118%N :: tl =>
      let ds := take_while (is_digit db) tl in
      let after := skipn (length ds) tl in
      match ds, bool_decide (after = [] \/ after = [NEWLINE]) with
      | _ :: _, true => Some ds
      | _, _ => None
      end
  | _ => None
  end.

(** The greedy group [(?P<client>[A-Za-z0-9_\-]+)]: the longest client
    prefix first, one character shorter on each backtrack, down to one. *)
Fixpoint match_id_from (db : unicode_db) (k : nat) (s : pystr) : option (pystr * pystr) :=
  match k with
  | O => None
  | S k' =>
      match match_version_suffix db (skipn k s) with
      | Some ds => Some (firstn k s, ds)
      | None => match_id_from db k' s
      end
  end.

(** [_ID_RE.match(s)]: the groups [client] and [ver]. *)
Definition _ID_RE_match (db : unicode_db) (s : pystr) : option (pystr * pystr) :=
  match_id_from db (length (take_while is_client_char s)) s.

Definition parse_template_id (db : unicode_db) (template_id : pystr) : pystr * option Z :=
  match _ID_RE_match db template_id with
  | None => (template_id, None)
  | Some (client, ver) => (client, Some (int_of_digits db ver))
  end.

(** [f"{client}_v{n}"]. *)
Definition version_id (client : pystr) (n : Z) : pystr :=
  client ++ py "_v" ++ str_of_int n.

(** The template manager: its sanitized device id and what the local store
    lists for a client directory ([None] when it is no directory). *)
Record TemplateManager := {
  tm_device_id : pystr;
  tm_listdir : pystr -> option (list pystr)
}.

Definition starts_with (prefix s : pystr) : bool :=
  bool_decide (firstn (length prefix) s = prefix).
Definition ends_with (suffix s : pystr) : bool :=
  bool_decide (skipn (length s - length suffix) s = suffix /\ (length suffix <= length s)%nat).

(** [re.sub(r"[^a-zA-Z0-9_\-]", "", value)]. *)
Definition _sanitize (value : pystr) : pystr := List.filter is_client_char value.

Definition list_versions (db : unicode_db) (tm : TemplateManager) (client : pystr) : list Z :=
  match tm_listdir tm (_sanitize client) with
  | None => []
  | Some files =>
      merge_sort Z.le
        (omap (fun fn =>
                 if ends_with (py ".json") fn && starts_with (client ++ py "_v") fn
                 then match _ID_RE_match db (firstn (length fn - 5) fn) with
                      | Some (_, ver) => Some (int_of_digits db ver)
                      | None => None
                      end
                 else None) files)
  end.

Definition latest_version_number (db : unicode_db) (tm : TemplateManager) (client : pystr) : Z :=
  List.last (list_versions db tm client) 0.

Definition latest_version_id (db : unicode_db) (tm : TemplateManager) (client : pystr)
  : option pystr :=
  let n := latest_version_number db tm client in
  if 0 <? n then Some (version_id client n) else None.

Definition next_version_id (db : unicode_db) (tm : TemplateManager) (client : pystr) : pystr :=
  version_id client (latest_version_number db tm client + 1).

(** ** llm_utils.py: the sentence chunker *)

Definition is_sentence_end (c : codepoint) : bool := ((c =? 46) || (c =? 63) || (c =? 33))%N.

(** [re.split(r'(?<=[.?!])\s+', text)].  [skipping] is true inside a matched
    run of white space, [prev_end] when the previous character is one of
    ".?!"; [cur] is the current piece, reversed. *)
Fixpoint split_sentences_aux (skipping prev_end : bool) (cur : pystr) (s : pystr)
  : list pystr :=
  match s with
  | [] => [rev cur]
  | c :: s' =>
      if skipping && isspace c then split_sentences_aux true false cur s'
      else if prev_end && isspace c then rev cur :: split_sentences_aux true false [] s'
      else split_sentences_aux false (is_sentence_end c) (c :: cur) s'
  end.

Definition split_sentences (text : pystr) : list pystr :=
  split_sentences_aux false false [] text.

(** [sep.join(parts)]. *)
Fixpoint join (sep : pystr) (parts : list pystr) : pystr :=
  match parts with
  | [] => []
  | [p] => p
  | p :: rest => p ++ sep ++ join sep rest
  end.

(** The loop state of [_chunk_text]: [chunks], [current] and [length]. *)
Definition chunk_state := (list pystr * list pystr * Z)%type.

Definition chunk_step (max_chars : Z) (st : chunk_state) (sent : pystr) : chunk_state :=
  let '(chunks, current, length) := st in
  if max_chars <? length + Z.of_nat (List.length sent)
  then (chunks ++ [join (py " ") current], [sent], Z.of_nat (List.length sent))
  else (chunks, current ++ [sent], length + Z.of_nat (List.length sent)).

Definition _chunk_text (text : pystr) (max_chars : Z) : list pystr :=
  let '(chunks, current, _) :=
    fold_left (chunk_step max_chars) (split_sentences text) ([], [], 0) in
  match current with
  | [] => chunks
  | _ => chunks ++ [join (py " ") current]
  end.

(** ** Dictionaries in insertion order *)

(** [d[k].append(v)] on a [defaultdict(list)]: a new key goes last. *)
Fixpoint dict_append {K V : Type} `{EqDecision K} (k : K) (v : V) (d : list (K * list V))
  : list (K * list V) :=
  match d with
  | [] => [(k, [v])]
  | (k', vs) :: d' =>
      if decide (k = k') then (k', vs ++ [v]) :: d' else (k', vs) :: dict_append k v d'
  end.

(** [d[k].extend(vs)] on a [defaultdict(list)]. *)
Fixpoint dict_extend {K V : Type} `{EqDecision K} (k : K) (vs : list V) (d : list (K * list V))
  : list (K * list V) :=
  match d with
  | [] => [(k, vs)]
  | (k', ws) :: d' =>
      if decide (k = k') then (k', ws ++ vs) :: d' else (k', ws) :: dict_extend k vs d'
  end.

Fixpoint dict_get {K V : Type} `{EqDecision K} (k : K) (d : list (K * V)) : option V :=
  match d with
  | [] => None
  | (k', v) :: d' => if decide (k = k') then Some v else dict_get k d'
  end.

(** [for v in l: d[key(v)].append(v)] from an empty [defaultdict(list)]. *)
Definition group_by {K V : Type} `{EqDecision K} (key : V -> K) (l : list V)
  : list (K * list V) :=
  fold_left (fun d v => dict_append (key v) v d) l [].

(** ** pipeline.py: the confidence gate of [process_batch] *)

(** One entry of [record_scores]. *)
Record score_record := {
  sr_page : Z;
  sr_bbox : bbox;
  sr_tidx : Z;
  sr_tscore : float;
  sr_iscore : float;
  sr_rscore : float;
  sr_group_id : pystr
}.

(** One entry of [high_conf_rects]. *)
Record high_conf_rect := { hc_page : Z; hc_bbox : bbox; hc_tidx : Z }.

Definition to_high_conf (rec : score_record) : high_conf_rect :=
  {| hc_page := sr_page rec; hc_bbox := sr_bbox rec; hc_tidx := sr_tidx rec |}.

Definition THRESH_R (threshold : float) : float := threshold.
Definition THRESH_T (threshold : float) : float := (0.9 * threshold)%float.
Definition THRESH_I (threshold : float) : float := threshold.

(** [rect_pass = (rec["iscore"] >= THRESH_I)]. *)
Definition rect_pass (threshold : float) (rec : score_record) : bool :=
  fge (sr_iscore rec) (THRESH_I threshold).

(** The body of [for rec in lst]: the state is [page_passing_rects],
    [page_failing_rects] and [group_fails]. *)
Definition rec_step (threshold : float)
  (st : list score_record * list score_record * list score_record) (rec : score_record)
  : list score_record * list score_record * list score_record :=
  let '(page_passing_rects, page_failing_rects, group_fails) := st in
  if rect_pass threshold rec
  then (page_passing_rects ++ [rec], page_failing_rects, group_fails)
  else (page_passing_rects, page_failing_rects ++ [rec], group_fails ++ [rec]).

(** The body of [for gid, lst in groups.items()]: the state is
    [page_passing_rects], [page_failing_rects] and [page_has_passing_group]. *)
Definition group_step (threshold : float)
  (st : list score_record * list score_record * bool) (g : pystr * list score_record)
  : list score_record * list score_record * bool :=
  let '(page_passing_rects, page_failing_rects, page_has_passing_group) := st in
  let '(page_passing_rects, page_failing_rects, group_fails) :=
    fold_left (rec_step threshold) (snd g) (page_passing_rects, page_failing_rects, []) in
  (page_passing_rects, page_failing_rects,
   if (List.length group_fails =? 0)%nat then true else page_has_passing_group).

(** What the gate leaves behind for one PDF. *)
Record gate_result := {
  high_conf_rects : list high_conf_rect;
  low_confidence_by_page : list (Z * list bbox);
  pdf_all_pages_have_passing_group : bool
}.

(** One page's classification: its passing records, failing records and
    whether one of its groups passed. *)
Definition classify_page (threshold : float) (recs : list score_record)
  : list score_record * list score_record * bool :=
  fold_left (group_step threshold) (group_by sr_group_id recs) ([], [], false).

(** The body of [for pg, recs in pages.items()]. *)
Definition page_step (threshold : float) (st : gate_result) (p : Z * list score_record)
  : gate_result :=
  let '(page_passing_rects, page_failing_rects, page_has_passing_group) :=
    classify_page threshold (snd p) in
  {| high_conf_rects := high_conf_rects st ++ map to_high_conf page_passing_rects;
     low_confidence_by_page :=
       match page_failing_rects with
       | _ :: _ =>
           if negb page_has_passing_group
           then dict_extend (fst p) (map sr_bbox page_failing_rects) (low_confidence_by_page st)
           else low_confidence_by_page st
       | [] => low_confidence_by_page st
       end;
     pdf_all_pages_have_passing_group :=
       if negb page_has_passing_group then false else pdf_all_pages_have_passing_group st |}.

(** Steps 2.1 and 2.2 of [process_batch], from [record_scores] on. *)
Definition confidence_gate (threshold : float) (record_scores : list score_record)
  : gate_result :=
  fold_left (page_step threshold) (group_by sr_page record_scores)
    {| high_conf_rects := []; low_confidence_by_page := [];
       pdf_all_pages_have_passing_group := true |}.

(** The records of one target page, and of one group on it. *)
Definition page_records (pg : Z) (recs : list score_record) : list score_record :=
  List.filter (fun r => bool_decide (sr_page r = pg)) recs.

Definition group_records (pg : Z) (gid : pystr) (recs : list score_record)
  : list score_record :=
  List.filter (fun r => bool_decide (sr_group_id r = gid)) (page_records pg recs).

(** A page has a passing group: some record of the page lies in a group all
    of whose records on that page pass. *)
Definition page_has_passing_group (threshold : float) (pg : Z) (recs : list score_record)
  : bool :=
  existsb (fun r => forallb (rect_pass threshold) (group_records pg (sr_group_id r) recs))
    (page_records pg recs).

(** The failing records of a page. *)
Definition page_failing (threshold : float) (pg : Z) (recs : list score_record)
  : list score_record :=
  List.filter (fun r => negb (rect_pass threshold r)) (page_records pg recs).

(** ** api_app.py: the PassLog update-and-filter step *)

(** One Low-Confidence Report of the pipeline: [{"pdf": ..., "low_rects":
    {page: [bbox, ...]}}]. *)
Record low_conf_item := { lc_pdf : pystr; lc_low_rects : list (Z * list bbox) }.

(** [sorted(s)] of a set of ints. *)
Definition sorted_set (s : gset Z) : list Z := merge_sort Z.le (elements s).

(** [set(d.get(k, []))]. *)
Definition pages_of (d : gmap pystr (list Z)) (k : pystr) : gset Z :=
  list_to_set (default [] (d !! k)).

(** The first loop: [failing_by_base[base_key] = pages], a later item of
    the same key replacing an earlier one. *)
Definition failing_by_base (db : unicode_db) (low_conf : list low_conf_item)
  : gmap pystr (list Z) :=
  fold_left
    (fun m item =>
       <[ _norm_key_from_path db (lc_pdf item) :=
            sorted_set (list_to_set (map fst (lc_low_rects item))) ]> m)
    low_conf ∅.

(** The body of [for p in paths].  [page_count p] is [None] when the file
    cannot be opened. *)
Definition passlog_step (db : unicode_db) (page_count : pystr -> option Z)
  (failing_by : gmap pystr (list Z)) (passlog : gmap pystr (list Z)) (p : pystr)
  : gmap pystr (list Z) :=
  let base_key := _norm_key_from_path db p in
  let already := pages_of passlog base_key in
  let failing := pages_of failing_by base_key in
  let newly_passed : gset Z :=
    match page_count p with
    | Some n_pages =>
        if 0 <? n_pages then list_to_set (seqZ 0 n_pages) ∖ failing else ∅
    | None => ∅
    end in
  if decide (newly_passed = ∅) then passlog
  else <[ base_key := sorted_set (already ∪ newly_passed) ]> passlog.

(** The pages of one report that survive the filter. *)
Definition kept_low_rects (already : gset Z) (low_rects : list (Z * list bbox))
  : list (Z * list bbox) :=
  List.filter (fun kv => negb (bool_decide (fst kv ∈ already))) low_rects.

Definition filter_item (db : unicode_db) (passlog : gmap pystr (list Z)) (item : low_conf_item)
  : option low_conf_item :=
  let already := pages_of passlog (_norm_key_from_path db (lc_pdf item)) in
  match kept_low_rects already (lc_low_rects item) with
  | [] => None
  | kept => Some {| lc_pdf := lc_pdf item; lc_low_rects := kept |}
  end.

(** The block "Passlog: filter out pages that have passed before & update
    the passlog with new passes" of [sanitize]: the filtered report and the
    PassLog that is saved. *)
Definition sanitize_passlog_step (db : unicode_db) (page_count : pystr -> option Z)
  (passlog : gmap pystr (list Z)) (low_conf : list low_conf_item) (paths : list pystr)
  : list low_conf_item * gmap pystr (list Z) :=
  let failing := failing_by_base db low_conf in
  let passlog' := fold_left (passlog_step db page_count failing) paths passlog in
  (omap (filter_item db passlog') low_conf, passlog').

(** [sanitize_existing] runs the same block, statement for statement. *)
Definition sanitize_existing_passlog_step := sanitize_passlog_step.

(** ** Exceptions, log and the result of effectful code *)

Inductive exn :=
  | ValueError (msg : pystr)
  | FileNotFoundError (msg : pystr)
  | UnboundLocalError (name : pystr)
  | IndexError
  | LibraryError (what : pystr).

Inductive outcome (A : Type) :=
  | Return (a : A)
  | Raise (e : exn).
Arguments Return {A} a.
Arguments Raise {A} e.

(** ** template_utils.py: zone-content extraction *)

(** What the two PDF readers show of one page. *)
Record pdf_page := {
  pg_rotation : Z;                 (* [page_fz.rotation or 0] *)
  pg_rect_width : float;           (* [page_fz.rect.width] *)
  pg_rect_height : float;          (* [page_fz.rect.height] *)
  pg_pl_width : float;             (* [float(page_pl.width)] *)
  pg_pl_height : float;            (* [float(page_pl.height)] *)
  pg_words : list (bbox * pystr);  (* [page_fz.get_text("words")] *)
  pg_phash : bbox -> pystr         (* [str(phash(...))] of the clip at 100 dpi *)
}.

Definition document := list pdf_page.

(** A rectangle as the extractor reads it and as it is stored. *)
Record zone := {
  z_page : option Z;
  z_bbox : bbox;
  z_paper : option pystr;
  z_orientation : option pystr;
  z_source_index : option Z;
  z_source_pdf : option pystr
}.

Record zone_content := {
  zc_page : Z;
  zc_bbox : bbox;
  zc_text : pystr;
  zc_image_hash : pystr
}.

Record skip_entry := {
  sk_page : Z;
  sk_bbox : bbox;
  sk_page_size : float * float;
  sk_rotation : Z
}.

Definition _bbox_inside_page (page : pdf_page) (b : bbox) (tol : float) : bool :=
  let '(x0, y0, x1, y1) := _normalized_bbox b in
  let w := pg_rect_width page in
  let h := pg_rect_height page in
  if ((x1 - x0 <=? 0) || (y1 - y0 <=? 0))%float then false
  else if ((x0 <? - tol) || (y0 <? - tol) || (w + tol <? x1) || (h + tol <? y1))%float
       then false
       else true.

(** [int(rect.get("page", 0) or 0)] clamped into the document. *)
Definition clamp_page (doc : document) (page : option Z) : Z :=
  let page_num := default 0 page in
  if page_num <? 0 then 0
  else if Z.of_nat (length doc) <=? page_num then Z.of_nat (length doc) - 1
  else page_num.

(** [doc[page_num]]. *)
Definition get_page (doc : document) (page_num : Z) : outcome pdf_page :=
  if page_num <? 0 then Raise IndexError
  else match doc !! Z.to_nat page_num with
       | Some page => Return page
       | None => Raise IndexError
       end.

Definition zone_text (page : pdf_page) (t_bbox : bbox) : pystr :=
  strip (join (py " ")
           (map snd (List.filter (fun w => overlaps (fst w) t_bbox 0%float) (pg_words page)))).

(** The three lists the extractor builds: [results], [used_rects], [skipped]. *)
Definition extraction := (list zone_content * list zone * list skip_entry)%type.

(** The body of [for rect in rectangles]. *)
Definition extract_step (doc : document) (st : extraction) (rect : zone) : outcome extraction :=
  let '(results, used_rects, skipped) := st in
  let page_num := clamp_page doc (z_page rect) in
  match get_page doc page_num with
  | Raise e => Raise e
  | Return page =>
      let pr := pg_rotation page mod 360 in
      let pw := pg_pl_width page in
      let ph := pg_pl_height page in
      let orig_bbox := _normalized_bbox (z_bbox rect) in
      let t_bbox := transform_bbox_for_rotation orig_bbox pw ph pr in
      if negb (_bbox_inside_page page orig_bbox 0.1%float)
      then Return (results, used_rects,
                   skipped ++ [{| sk_page := page_num; sk_bbox := z_bbox rect;
                                  sk_page_size := (pw, ph); sk_rotation := pr |}])
      else
        Return (results ++ [{| zc_page := page_num; zc_bbox := t_bbox;
                               zc_text := zone_text page t_bbox;
                               zc_image_hash := pg_phash page orig_bbox |}],
                used_rects ++ [{| z_page := Some page_num; z_bbox := orig_bbox;
                                  z_paper := z_paper rect;
                                  z_orientation := z_orientation rect;
                                  z_source_index := None; z_source_pdf := None |}],
                skipped)
  end.

Fixpoint extract_loop (doc : document) (st : extraction) (rectangles : list zone)
  : outcome extraction :=
  match rectangles with
  | [] => Return st
  | rect :: rest =>
      match extract_step doc st rect with
      | Return st' => extract_loop doc st' rest
      | Raise e => Raise e
      end
  end.

(** [extract_zones_content(pdf, rectangles, _return_skips=True)] on an
    opened document. *)
Definition extract_zones_content (doc : document) (rectangles : list zone)
  : outcome extraction :=
  extract_loop doc ([], [], []) rectangles.

(** The rectangle's fate, read off the input alone. *)
Definition zone_inside (doc : document) (rect : zone) : bool :=
  match get_page doc (clamp_page doc (z_page rect)) with
  | Return page => _bbox_inside_page page (_normalized_bbox (z_bbox rect)) 0.1%float
  | Raise _ => false
  end.

(** ** Effectful code: a log of what was printed or stored, and an outcome *)

(** A saved Template Profile. *)
Record profile := {
  pf_rectangles : list zone;
  pf_contents : list zone_content;
  pf_image_map : list (Z * pystr)
}.

(** What the modelled functions print or do to the outside. *)
Inductive event :=
  | PrintMissingSource (fidx : Z)
  | PrintSourceLayout (src paper orient : pystr)
  | PrintCouldNotClassify (src : pystr) (e : exn)
  | PrintNoRectangles (src : pystr)
  | PrintExtractionFailed (src : pystr) (e : exn)
  | PrintSkipped (n : nat) (src : pystr)
  | PrintSkippedTotal (n : nat) (template_id : pystr)
  | SaveProfile (template_id : pystr) (p : profile)
  | PrintNothingToDo
  | PrintLimited (received : nat)
  | LoadProfile (device_id template_id : pystr)
  | PrintUsingInstead (asked used : pystr).

Definition M (A : Type) : Type := (list event * outcome A)%type.

#[export] Instance M_ret : MRet M := fun A a => ([], Return a).

#[export] Instance M_bind : MBind M := fun A B f m =>
  match m with
  | (l, Return a) => let '(l', o) := f a in (l ++ l', o)
  | (l, Raise e) => (l, Raise e)
  end.

Definition raise {A : Type} (e : exn) : M A := ([], Raise e).
Definition emit (ev : event) : M unit := ([ev], Return tt).
Definition lift {A : Type} (o : outcome A) : M A := ([], o).

(** [try: body except Exception as e: handler(e)]. *)
Definition try_except {A : Type} (body : M A) (handler : exn -> M A) : M A :=
  match body with
  | (l, Raise e) => let '(l', o) := handler e in (l ++ l', o)
  | r => r
  end.

(** [for x in xs: st = body(st, x)], stopping at the first exception. *)
Fixpoint for_each {S X : Type} (body : S -> X -> M S) (xs : list X) (st : S) : M S :=
  match xs with
  | [] => mret st
  | x :: rest => st' ← body st x; for_each body rest st'
  end.

(** Reading a local variable: unbound is [UnboundLocalError]. *)
Definition read_local {A : Type} (name : pystr) (v : option A) : M A :=
  match v with
  | Some a => mret a
  | None => raise (UnboundLocalError name)
  end.

(** ** template_utils.py: the multi-source template save *)

(** A rectangle of the request, before normalization. *)
Record zone_input := {
  zi_file_idx : option Z;
  zi_page : option Z;
  zi_bbox : option bbox;
  zi_paper : option pystr;
  zi_orientation : option pystr
}.

(** The outside of [save_profile_multi]: the file system, the PDF readers
    and the layout classifier of [paper_sz_ort_utils]. *)
Record pdf_world := {
  w_exists : pystr -> bool;
  w_open : pystr -> outcome document;
  w_classify_page_layout : pystr -> outcome (pystr * pystr)
}.

(** Step 2a: 0-based page, normalized bbox, paper and orientation kept. *)
Definition normalize_input (r : zone_input) : zone :=
  let pg := default 0 (zi_page r) in
  {| z_page := Some (if pg <? 0 then 0 else pg);
     z_bbox := _normalized_bbox (default (0, 0, 0, 0)%float (zi_bbox r));
     z_paper := zi_paper r;
     z_orientation := zi_orientation r;
     z_source_index := None;
     z_source_pdf := None |}.

(** The locals of [save_profile_multi] that live across the loop:
    [used_rects], [contents], [skipped_total], and [e], the name bound by
    [except Exception as e] and unbound again when that clause ends. *)
Record save_state := {
  ss_used_rects : list zone;
  ss_contents : list zone_content;
  ss_skipped_total : nat;
  ss_e : option exn
}.

Definition set_e (e : option exn) (st : save_state) : save_state :=
  {| ss_used_rects := ss_used_rects st; ss_contents := ss_contents st;
     ss_skipped_total := ss_skipped_total st; ss_e := e |}.

(** [extract_zones_content(src_pdf, active_rects, _return_skips=True)] from
    the path: open, then extract. *)
Definition extract_from_path (w : pdf_world) (src_pdf : pystr) (rects : list zone)
  : outcome extraction :=
  match w_open w src_pdf with
  | Return doc => extract_zones_content doc rects
  | Raise e => Raise e
  end.

Definition tag_source (fidx : Z) (src_pdf : pystr) (u : zone) : zone :=
  {| z_page := z_page u; z_bbox := z_bbox u; z_paper := z_paper u;
     z_orientation := z_orientation u;
     z_source_index := Some fidx; z_source_pdf := Some (basename src_pdf) |}.

(** Step 2b: classify the source's layout.  The handler formats the caught
    exception through the local [e], which this [except] clause does not
    bind. *)
Definition classify_source (w : pdf_world) (st : save_state) (src_pdf : pystr)
  : M (option pystr * option pystr) :=
  try_except
    ('(src_paper, src_orient) ← lift (w_classify_page_layout w src_pdf);
     _ ← emit (PrintSourceLayout src_pdf src_paper src_orient);
     mret (Some src_paper, Some src_orient))
    (fun _ =>
       e ← read_local (py "e") (ss_e st);
       _ ← emit (PrintCouldNotClassify src_pdf e);
       mret (None, None)).

(** The body of [for fidx, rects_for_pdf in grouped.items()]. *)
Definition save_group_step (w : pdf_world) (index_to_path : gmap Z pystr)
  (st : save_state) (g : Z * list zone_input) : M save_state :=
  let '(fidx, rects_for_pdf) := g in
  match index_to_path !! fidx with
  | Some (c :: s) =>
      let src_pdf := c :: s in
      if negb (w_exists w src_pdf) then _ ← emit (PrintMissingSource fidx); mret st
      else
        let norm_rects := map normalize_input rects_for_pdf in
        _ ← classify_source w st src_pdf;
        let active_rects := norm_rects in
        match active_rects with
        | [] => _ ← emit (PrintNoRectangles src_pdf); mret st
        | _ =>
            match extract_from_path w src_pdf active_rects with
            | Raise ex =>
                (* [except Exception as e]: [e] is bound for the clause and
                   deleted when it ends *)
                let st := set_e (Some ex) st in
                e ← read_local (py "e") (ss_e st);
                _ ← emit (PrintExtractionFailed src_pdf e);
                mret (set_e None st)
            | Return (cnt, used, skipped) =>
                let st' :=
                  {| ss_used_rects := ss_used_rects st ++ map (tag_source fidx src_pdf) used;
                     ss_contents := ss_contents st ++ cnt;
                     ss_skipped_total := (ss_skipped_total st + length skipped)%nat;
                     ss_e := ss_e st |} in
                match skipped with
                | [] => mret st'
                | _ => _ ← emit (PrintSkipped (length skipped) src_pdf); mret st'
                end
            end
        end
  | _ => _ ← emit (PrintMissingSource fidx); mret st
  end.

Definition save_profile_multi (w : pdf_world) (template_id : pystr)
  (rectangles : list zone_input) (index_to_path : gmap Z pystr)
  (image_map : option (list (Z * pystr))) : M profile :=
  let grouped := group_by (fun r => default 0 (zi_file_idx r)) rectangles in
  match grouped with
  | [] => raise (ValueError (py "No rectangles were provided for multi-PDF save."))
  | _ =>
      st ← for_each (save_group_step w index_to_path) grouped
             {| ss_used_rects := []; ss_contents := []; ss_skipped_total := O;
                ss_e := None |};
      match ss_contents st with
      | [] => raise (ValueError
                (py "No valid rectangles after processing all source PDFs; nothing to save."))
      | _ =>
          let p := {| pf_rectangles := ss_used_rects st;
                      pf_contents := ss_contents st;
                      pf_image_map := default [] image_map |} in
          _ ← emit (SaveProfile template_id p);
          _ ← (match ss_skipped_total st with
               | O => mret tt
               | n => emit (PrintSkippedTotal n template_id)
               end);
          mret p
      end
  end.

(** ** pipeline.py: the entry of the legacy secondary pass *)

(** The template store as [load_profile] sees it, per device. *)
Definition template_store := pystr -> pystr -> option profile.

(** [TemplateManager(device_id=device_id)]. *)
Definition new_TemplateManager (device_id : option pystr)
  (listdir : pystr -> pystr -> option (list pystr)) : M TemplateManager :=
  match device_id with
  | Some (c :: s) =>
      let d := _sanitize (c :: s) in
      mret {| tm_device_id := d; tm_listdir := listdir d |}
  | _ => raise (ValueError (py "device_id is required"))
  end.

(** [tm.load_profile(template_id)]. *)
Definition load_profile (store : template_store) (tm : TemplateManager) (template_id : pystr)
  : M profile :=
  _ ← emit (LoadProfile (tm_device_id tm) template_id);
  match store (tm_device_id tm) template_id with
  | Some p => mret p
  | None => raise (FileNotFoundError template_id)
  end.

(** "Resolve the correct template version to load". *)
Definition resolve_template (db : unicode_db) (store : template_store)
  (tm : TemplateManager) (new_template_id : pystr) : M pystr :=
  let '(client, provided_ver) := parse_template_id db new_template_id in
  try_except
    (_ ← load_profile store tm new_template_id; mret new_template_id)
    (fun _ =>
       let expected_next := next_version_id db tm client in
       try_except
         (_ ← load_profile store tm expected_next;
          _ ← emit (PrintUsingInstead new_template_id expected_next);
          mret expected_next)
         (fun _ => raise (FileNotFoundError new_template_id))).

(** Everything after the gate of [process_low_conf_batch]: construct the
    manager, resolve the template, load it and run the per-PDF loop.
    [per_pdf] is that loop (layout, validation, scoring and redaction belong
    to modules outside this file); it receives the loaded profile and the
    chosen template id. *)
Definition resolve_and_process (db : unicode_db) (store : template_store)
  (listdir : pystr -> pystr -> option (list pystr))
  (per_pdf : profile -> pystr -> list low_conf_item -> M (list low_conf_item))
  (low_conf : list low_conf_item) (new_template_id : pystr) (device_id : option pystr)
  : M (list low_conf_item) :=
  tm ← new_TemplateManager device_id listdir;
  chosen_template_id ← resolve_template db store tm new_template_id;
  p ← load_profile store tm chosen_template_id;
  per_pdf p chosen_template_id low_conf.

(** [process_low_conf_batch]: the two guards, then the rest. *)
Definition process_low_conf_batch (db : unicode_db) (store : template_store)
  (listdir : pystr -> pystr -> option (list pystr))
  (per_pdf : profile -> pystr -> list low_conf_item -> M (list low_conf_item))
  (low_conf : list low_conf_item) (new_template_id : pystr) (device_id : option pystr)
  : M (list low_conf_item) :=
  match low_conf with
  | [] => _ ← emit PrintNothingToDo; mret []
  | _ =>
      if (length low_conf <? 3)%nat
      then _ ← emit (PrintLimited (length low_conf)); mret []
      else resolve_and_process db store listdir per_pdf low_conf new_template_id device_id
  end.

(** An attempt to resolve a template leaves a [LoadProfile] in the log. *)
Definition is_load (ev : event) : bool :=
  match ev with LoadProfile _ _ => true | _ => false end.

(** ** Predicates and auxiliary functions used to state the properties *)

Definition bbox_has_nan (b : bbox) : bool :=
  let '(x1, y1, x2, y2) := b in
  is_nan x1 || is_nan y1 || is_nan x2 || is_nan y2.

(** [x1 <= x2 and y1 <= y2]. *)
Definition bbox_ordered (b : bbox) : bool :=
  let '(x1, y1, x2, y2) := b in ((x1 <=? x2) && (y1 <=? y2))%float.

(** Neither [x2 < x1] nor [y2 < y1]. *)
Definition bbox_not_inverted (b : bbox) : bool :=
  let '(x1, y1, x2, y2) := b in negb ((x2 <? x1) || (y2 <? y1))%float.

Definition digit_step (db : unicode_db) (acc : Z) (c : codepoint) : Z :=
  10 * acc + digit_value db c.

(** The test [key(v) == k]. *)
Definition has_key {K V : Type} `{EqDecision K} (key : V -> K) (k : K) (v : V) : bool :=
  bool_decide (key v = k).

(** [not rect_pass]. *)
Definition rect_fail (threshold : float) (rec : score_record) : bool :=
  negb (rect_pass threshold rec).

(** What one entry of [pages] adds to [high_conf_rects]. *)
Definition page_high (threshold : float) (p : Z * list score_record) : list high_conf_rect :=
  map to_high_conf (fst (fst (classify_page threshold (snd p)))).

(** What one entry of [pages] stores in [low_confidence_by_page], if anything. *)
Definition page_low (threshold : float) (p : Z * list score_record) : option (list bbox) :=
  let '(_, page_failing_rects, page_has_passing_group) := classify_page threshold (snd p) in
  match page_failing_rects with
  | [] => None
  | _ => if negb page_has_passing_group then Some (map sr_bbox page_failing_rects) else None
  end.

(** A record with its text-score and combined score replaced. *)
Definition with_text_scores (ts rs : score_record -> float) (rec : score_record)
  : score_record :=
  {| sr_page := sr_page rec; sr_bbox := sr_bbox rec; sr_tidx := sr_tidx rec;
     sr_tscore := ts rec; sr_iscore := sr_iscore rec; sr_rscore := rs rec;
     sr_group_id := sr_group_id rec |}.

(** [d] with [h] applied to every stored value. *)
Definition dict_map {K V W : Type} (h : V -> W) (d : list (K * list V)) : list (K * list W) :=
  map (fun kv => (fst kv, map h (snd kv))) d.

(** What the extractor emits for an accepted rectangle: the result and the
    used rectangle sit on the clamped page; the used rectangle carries the
    normalized as-drawn bbox and the rectangle's tags, the result the
    rotation-transformed bbox with the text and image hash sampled there. *)
Definition emitted_for (doc : document) (rect : zone) (ru : zone_content * zone) : Prop :=
  let '(res, u) := ru in
  exists page,
    get_page doc (clamp_page doc (z_page rect)) = Return page
    /\ zc_page res = clamp_page doc (z_page rect)
    /\ z_page u = Some (clamp_page doc (z_page rect))
    /\ z_bbox u = _normalized_bbox (z_bbox rect)
    /\ zc_bbox res
       = transform_bbox_for_rotation (_normalized_bbox (z_bbox rect))
           (pg_pl_width page) (pg_pl_height page) (pg_rotation page mod 360)
    /\ zc_text res = zone_text page (zc_bbox res)
    /\ zc_image_hash res = pg_phash page (_normalized_bbox (z_bbox rect))
    /\ z_paper u = z_paper rect
    /\ z_orientation u = z_orientation rect.

(** What the extractor records for a skipped rectangle. *)
Definition skipped_for (doc : document) (rect : zone) (sk : skip_entry) : Prop :=
  sk_page sk = clamp_page doc (z_page rect) /\ sk_bbox sk = z_bbox rect.

(** ** Concrete inputs of the examples *)

(** A store holding versions 1 and 2 of client "acme". *)
Definition acme_manager : TemplateManager :=
  {| tm_device_id := py "dev1";
     tm_listdir := fun c =>
       if bool_decide (c = py "acme")
       then Some [py "acme_v2.json"; py "notes.txt"; py "acme_v1.json"]
       else None |}.

(** Two sentences of 1000 characters each, separated by one space: 999
    letters and a full stop, then 1000 letters. *)
Definition two_sentences : pystr :=
  repeat 97%N 999 ++ [46%N; 32%N] ++ repeat 98%N 1000.

(** One sentence of 2001 characters. *)
Definition long_sentence : pystr := repeat 97%N 2001.

(** Two scored zones of target page 0 that come from different template
    pages, hence lie in different groups: image-scores 0.80 and 0.95. *)
Definition zone_080 : score_record :=
  {| sr_page := 0; sr_bbox := (50, 50, 150, 150)%float; sr_tidx := 0;
     sr_tscore := 1%float; sr_iscore := 0.80%float; sr_rscore := 0.9%float;
     sr_group_id := py "src0|p0" |}.

Definition zone_095 : score_record :=
  {| sr_page := 0; sr_bbox := (200, 50, 300, 150)%float; sr_tidx := 1;
     sr_tscore := 0%float; sr_iscore := 0.95%float; sr_rscore := 0.475%float;
     sr_group_id := py "src0|p1" |}.

(** The request of the specification's example: a 3-page upload whose
    PassLog entry is [2] and for which the pipeline reports pages 0 and 2. *)
Definition drawing_path : pystr := py "/tmp/wootz_job_1/uploads/Drawing.pdf".

Definition drawing_report : low_conf_item :=
  {| lc_pdf := drawing_path;
     lc_low_rects := [(0, [(50, 50, 150, 150)%float]); (2, [(50, 50, 150, 150)%float])] |}.

Definition drawing_passlog : gmap pystr (list Z) := {[ py "drawing" := [2] ]}.

(** A one-page A4 document without rotation, and two rectangles: one inside
    the page, one beyond its right edge. *)
Definition blank_a4 : document :=
  [{| pg_rotation := 0; pg_rect_width := 595; pg_rect_height := 842;
      pg_pl_width := 595; pg_pl_height := 842; pg_words := [];
      pg_phash := fun _ => py "8000000000000000" |}].

Definition zone_in_page : zone :=
  {| z_page := Some 0; z_bbox := (150, 150, 50, 50)%float; z_paper := None;
     z_orientation := None; z_source_index := None; z_source_pdf := None |}.

Definition zone_off_page : zone :=
  {| z_page := Some 7; z_bbox := (500, 50, 700, 150)%float; z_paper := None;
     z_orientation := None; z_source_index := None; z_source_pdf := None |}.

(** One rectangle drawn on the only upload. *)
Definition one_rectangle : zone_input :=
  {| zi_file_idx := Some 0; zi_page := Some 0;
     zi_bbox := Some (50, 50, 150, 150)%float;
     zi_paper := None; zi_orientation := None |}.

Definition upload_path : pystr := py "/tmp/wootz_job_1/uploads/drawing.pdf".

(** The upload exists and opens as a blank A4 page, but the layout
    classifier raises on it. *)
Definition unclassifiable_world : pdf_world :=
  {| w_exists := fun _ => true;
     w_open := fun _ => Return blank_a4;
     w_classify_page_layout := fun _ => Raise (LibraryError (py "cannot classify")) |}.

(** The same upload with a classifier that answers. *)
Definition classifiable_world : pdf_world :=
  {| w_exists := fun _ => true;
     w_open := fun _ => Return blank_a4;
     w_classify_page_layout := fun _ => Return (py "A4", py "portrait") |}.

(** The profile the save stores when nothing goes wrong. *)
Definition expected_profile : profile :=
  {| pf_rectangles :=
       [{| z_page := Some 0; z_bbox := (50, 50, 150, 150)%float; z_paper := None;
           z_orientation := None; z_source_index := Some 0;
           z_source_pdf := Some (py "drawing.pdf") |}];
     pf_contents :=
       [{| zc_page := 0; zc_bbox := (50, 50, 150, 150)%float; zc_text := [];
           zc_image_hash := py "8000000000000000" |}];
     pf_image_map := [] |}.

(** A store with one saved profile, "acme_v2", for device "dev1"; a
    per-PDF loop that reports nothing; and one report entry. *)
Definition acme_store : template_store :=
  fun device template_id =>
    if bool_decide (device = py "dev1" /\ template_id = py "acme_v2")
    then Some expected_profile else None.

Definition quiet_per_pdf (p : profile) (chosen : pystr) (low_conf : list low_conf_item)
  : M (list low_conf_item) := mret [].



(** ** More on the multi-source template save *)
Definition is_save (ev : event) : bool :=
  match ev with SaveProfile _ _ => true | _ => false end.

(** A stored rectangle that names the source it was drawn on. *)
Definition source_tagged (u : zone) : Prop :=
  exists fidx name, z_source_index u = Some fidx /\ z_source_pdf u = Some name.

(** What the loop of [save_profile_multi] keeps true of its state. *)
Definition save_invariant (st : save_state) : Prop :=
  length (ss_used_rects st) = length (ss_contents st)
  /\ Forall source_tagged (ss_used_rects st)
  /\ ss_e st = None.

(** The two [ValueError]s of [save_profile_multi] and the error its
    classification handler runs into. *)
Definition save_error (e : exn) : Prop :=
  e = ValueError (py "No rectangles were provided for multi-PDF save.")
  \/ e = ValueError
           (py "No valid rectangles after processing all source PDFs; nothing to save.")
  \/ e = UnboundLocalError (py "e").


(** ** More on template ids and versions *)
(** The listings after the entry [fn] has been created in the directory
    of the (sanitized) client name [dir], which is created when missing.
    The directory of the empty name is the device root. *)
Definition add_entry (tm : TemplateManager) (dir fn : pystr) : TemplateManager :=
  let files := default [] (tm_listdir tm dir) in
  {| tm_device_id := tm_device_id tm;
     tm_listdir := fun d =>
       if bool_decide (d = dir)
       then Some (if bool_decide (fn ∈ files) then files else files ++ [fn])
       else tm_listdir tm d |}.

(** What [_save_profile_local] changes in the listings.  For a versioned
    id, [os.makedirs(cdir)] puts the client directory into the device root
    and the file "<template_id>.json" is written into it; a legacy flat id
    is written into the device root. *)
Definition listing_after_save (db : unicode_db) (tm : TemplateManager) (template_id : pystr)
  : TemplateManager :=
  match parse_template_id db template_id with
  | (client, Some _) =>
      add_entry (add_entry tm [] (_sanitize client)) (_sanitize client)
        (template_id ++ py ".json")
  | (_, None) => add_entry tm [] (template_id ++ py ".json")
  end.

(** The summed length of the sentences of a group, as [_chunk_text] counts
    it in [length]. *)
Definition total_length (g : list pystr) : Z :=
  fold_right (fun s acc => Z.of_nat (length s) + acc) 0 g.

(** ** api_app.py: appending to the download archive *)
(** [os.path.splitext(p)]: the root and the extension, which is what is
    left of [p] after the root. *)
Definition splitext (p : pystr) : pystr * pystr :=
  let root := splitext_root p in (root, skipn (length root) p).

(** [f"{name}_{idx}{ext}"]. *)
Definition versioned_arcname (name ext : pystr) (idx : Z) : pystr :=
  name ++ py "_" ++ str_of_int idx ++ ext.

(** The loop [while arc in existing: arc = f"{name}_{idx}{ext}"; idx += 1],
    run for at most [fuel] rounds; [None] when the rounds are used up. *)
Fixpoint free_arcname (fuel : nat) (existing : gset pystr) (name ext arc : pystr) (idx : Z)
  : option pystr :=
  if bool_decide (arc ∈ existing) then
    match fuel with
    | O => None
    | S fuel' =>
        free_arcname fuel' existing name ext (versioned_arcname name ext idx) (idx + 1)
    end
  else Some arc.

(** The state of the loop over [file_paths]: the set [existing], the entries
    written so far (source path and arcname, in order) and whether a write
    has raised.  [z.write] raises when the source file cannot be read. *)
Record zip_state := {
  zs_existing : gset pystr;
  zs_written : list (pystr * pystr);
  zs_result : outcome unit
}.

Definition zip_step (readable : pystr -> bool) (st : zip_state) (fp : pystr) : option zip_state :=
  match zs_result st with
  | Raise _ => Some st
  | Return _ =>
      let base := basename fp in
      let '(name, ext) := splitext base in
      match free_arcname (S (size (zs_existing st))) (zs_existing st) name ext base 2 with
      | None => None
      | Some arc =>
          if readable fp
          then Some {| zs_existing := zs_existing st ∪ {[arc]};
                       zs_written := zs_written st ++ [(fp, arc)];
                       zs_result := Return tt |}
          else Some {| zs_existing := zs_existing st;
                       zs_written := zs_written st;
                       zs_result := Raise (FileNotFoundError fp) |}
      end
  end.

Fixpoint zip_loop (readable : pystr -> bool) (st : zip_state) (file_paths : list pystr)
  : option zip_state :=
  match file_paths with
  | [] => Some st
  | fp :: rest =>
      match zip_step readable st fp with
      | Some st' => zip_loop readable st' rest
      | None => None
      end
  end.

(** [zip_append_with_versions(zip_path, file_paths)].  [archive] is the name
    list of the archive at [zip_path], [None] when there is no such file
    (mode "w").  The result is the name list of the archive afterwards and
    the outcome of the call; [None] only if a [while] loop were cut short. *)
Definition zip_append_with_versions (readable : pystr -> bool) (archive : option (list pystr))
  (file_paths : list pystr) : option (list pystr * outcome unit) :=
  let names := default [] archive in
  match zip_loop readable
          {| zs_existing := list_to_set names; zs_written := []; zs_result := Return tt |}
          file_paths with
  | Some st => Some (names ++ map snd (zs_written st), zs_result st)
  | None => None
  end.

(** Three files for one archive, two of them with the same base name. *)
Definition report_paths : list pystr :=
  [py "out/a/report.pdf"; py "out/b/report.pdf"; py "out/report_2.pdf"].

(** What the loop over the files keeps: the written arcnames are new and
    pairwise distinct, and [existing] holds the old names and the written
    ones. *)
Definition zip_invariant (names : list pystr) (st : zip_state) : Prop :=
  NoDup (map snd (zs_written st))
  /\ (forall a, a ∈ zs_existing st <-> In a names \/ In a (map snd (zs_written st)))
  /\ (forall a, In a (map snd (zs_written st)) -> ~ In a names).

Definition arcname_of (fp arc : pystr) : Prop :=
  arc = basename fp
  \/ exists k, 2 <= k
       /\ arc = versioned_arcname (fst (splitext (basename fp))) (snd (splitext (basename fp))) k.

(** ** pipeline.py: deduplicating the extracted text *)
(** The line boundaries of [str.splitlines]: LF, VT, FF, CR, FS, GS, RS,
    NEL (U+0085), LINE SEPARATOR (U+2028) and PARAGRAPH SEPARATOR (U+2029). *)
Definition is_linebreak (c : codepoint) : bool :=
  (in_range 10 13 c || in_range 28 30 c || (c =? 133) || (c =? 8232) || (c =? 8233))%N.

(** [s.splitlines()]; "\r\n" is one boundary, and no empty line follows a
    final boundary.  [cur] is the current line, reversed. *)
Fixpoint splitlines_aux (cur : pystr) (s : pystr) : list pystr :=
  match s with
  | [] => match cur with [] => [] | _ => [rev cur] end
  | c :: s' =>
      if is_linebreak c then
        rev cur ::
          (if (c =? 13)%N
           then match s' with
                | c' :: s'' => if (c' =? 10)%N then splitlines_aux [] s'' else splitlines_aux [] s'
                | [] => splitlines_aux [] s'
                end
           else splitlines_aux [] s')
      else splitlines_aux (c :: cur) s'
  end.

Definition splitlines (s : pystr) : list pystr := splitlines_aux [] s.

(** One round of the inner loop of [dedupe_text_pages], on [seen] and [out]. *)
Definition dedupe_line (db : unicode_db) (st : gset pystr * list pystr) (line : pystr)
  : gset pystr * list pystr :=
  let '(seen, out) := st in
  let norm := lower db (strip line) in
  if bool_decide (norm <> []) && bool_decide (norm ∉ seen)
  then (seen ∪ {[norm]}, out ++ [strip line])
  else (seen, out).

(** The list [out] at the end of the loops. *)
Definition dedupe_lines (db : unicode_db) (pages_text : list pystr) : list pystr :=
  snd (fold_left (fun st page => fold_left (dedupe_line db) (splitlines page) st)
                 pages_text (∅, [])).

Definition dedupe_text_pages (db : unicode_db) (pages_text : list pystr) : pystr :=
  join [NEWLINE] (dedupe_lines db pages_text).

(** All lines of all pages, in order. *)
Definition all_lines (pages_text : list pystr) : list pystr :=
  concat (map splitlines pages_text).

(** What the loops keep: [seen] holds the lower-cased kept lines, which
    differ from one another, and none of them is empty. *)
Definition dedupe_invariant (db : unicode_db) (st : gset pystr * list pystr) : Prop :=
  (forall n, n ∈ fst st <-> In n (map (lower db) (snd st)))
  /\ NoDup (map (lower db) (snd st))
  /\ Forall (fun l => lower db l <> []) (snd st).

(** Two pages of the examples, with a repeated title. *)
Definition title_pages : list pystr :=
  [py "Drawing 7" ++ [NEWLINE] ++ py "  ACME Corp" ++ [NEWLINE];
   py "drawing 7" ++ [NEWLINE; NEWLINE] ++ py "Scale 1:2"].

(** A report on a second file with the base name of [drawing_path]. *)
Definition drawing_copy_report : low_conf_item :=
  {| lc_pdf := py "/tmp/wootz_job_1/uploads/old/DRAWING.PDF";
     lc_low_rects := [(1, [(50, 50, 150, 150)%float])] |}.

(** ** pipeline.py: scoring the extracted zones *)
(** A replicated rectangle of [process_batch]: the page it was replicated
    to, the template's bbox, the template index and the group id. *)
Record replicated_rect := {
  rr_page : Z;
  rr_bbox : bbox;
  rr_tidx : Z;
  rr_group_id : pystr
}.

(** What [extract_zones_content] reads of a replicated rectangle: "page" and
    "bbox"; the keys "paper" and "orientation" are absent. *)
Definition zone_of_replicated (rr : replicated_rect) : zone :=
  {| z_page := Some (rr_page rr); z_bbox := rr_bbox rr; z_paper := None;
     z_orientation := None; z_source_index := None; z_source_pdf := None |}.

(** [l[i]] on a list: a negative index counts from the end. *)
Definition py_index {A : Type} (l : list A) (i : Z) : outcome A :=
  let j := if i <? 0 then i + Z.of_nat (length l) else i in
  if j <? 0 then Raise IndexError
  else match l !! Z.to_nat j with
       | Some a => Return a
       | None => Raise IndexError
       end.

(** The two scoring functions of [ConfidenceScorer]. *)
Record ConfidenceScorer := {
  score_text : pystr -> pystr -> float;
  score_image : pystr -> pystr -> float
}.

(** The body of [for tgt, rect in zip(tgt_contents, replicated_rectangles)]. *)
Definition score_pair (sc : ConfidenceScorer) (ref_contents : list zone_content)
  (tgt : zone_content) (rect : replicated_rect) : outcome score_record :=
  match py_index ref_contents (rr_tidx rect) with
  | Raise e => Raise e
  | Return ref =>
      let tscore := score_text sc (zc_text ref) (zc_text tgt) in
      let iscore := score_image sc (zc_image_hash ref) (zc_image_hash tgt) in
      Return {| sr_page := zc_page tgt; sr_bbox := rr_bbox rect; sr_tidx := rr_tidx rect;
                sr_tscore := tscore; sr_iscore := iscore;
                sr_rscore := ((tscore + iscore) / 2)%float;
                sr_group_id := rr_group_id rect |}
  end.

(** The loop over [zip(tgt_contents, replicated_rectangles)], which stops
    with the shorter list. *)
Fixpoint score_loop (sc : ConfidenceScorer) (ref_contents : list zone_content)
  (tgt_contents : list zone_content) (rects : list replicated_rect)
  : outcome (list score_record) :=
  match tgt_contents, rects with
  | tgt :: tgts, rect :: rest =>
      match score_pair sc ref_contents tgt rect with
      | Raise e => Raise e
      | Return rec =>
          match score_loop sc ref_contents tgts rest with
          | Raise e => Raise e
          | Return recs => Return (rec :: recs)
          end
      end
  | _, _ => Return []
  end.

(** "Step 2: Extract & score template zones" of [process_batch], on an
    opened document: [record_scores]. *)
Definition record_scores (sc : ConfidenceScorer) (doc : document)
  (ref_contents : list zone_content) (replicated_rectangles : list replicated_rect)
  : outcome (list score_record) :=
  match extract_zones_content doc (map zone_of_replicated replicated_rectangles) with
  | Raise e => Raise e
  | Return (tgt_contents, _, _) => score_loop sc ref_contents tgt_contents replicated_rectangles
  end.

(** A record that scores the zone of rectangle [kept] of the document and
    is labelled with the bbox, template index and group of rectangle [rr]. *)
Definition scored_from (sc : ConfidenceScorer) (doc : document)
  (ref_contents : list zone_content) (kept rr : replicated_rect) (rec : score_record) : Prop :=
  exists page ref,
    get_page doc (clamp_page doc (Some (rr_page kept))) = Return page
    /\ py_index ref_contents (rr_tidx rr) = Return ref
    /\ sr_page rec = clamp_page doc (Some (rr_page kept))
    /\ sr_bbox rec = rr_bbox rr
    /\ sr_tidx rec = rr_tidx rr
    /\ sr_group_id rec = rr_group_id rr
    /\ sr_tscore rec
       = score_text sc (zc_text ref)
           (zone_text page
              (transform_bbox_for_rotation (_normalized_bbox (rr_bbox kept))
                 (pg_pl_width page) (pg_pl_height page) (pg_rotation page mod 360)))
    /\ sr_iscore rec
       = score_image sc (zc_image_hash ref) (pg_phash page (_normalized_bbox (rr_bbox kept)))
    /\ sr_rscore rec = ((sr_tscore rec + sr_iscore rec) / 2)%float.

(** A scorer, a reference content and two replicated rectangles of the
    examples: the first lies beyond the page, the second inside. *)
Definition exact_scorer : ConfidenceScorer :=
  {| score_text := fun a b => if bool_decide (a = b) then 1%float else 0%float;
     score_image := fun a b => if bool_decide (a = b) then 1%float else 0%float |}.

Definition blank_reference : list zone_content :=
  [{| zc_page := 0; zc_bbox := (500, 50, 700, 150)%float; zc_text := []; zc_image_hash := py "8000000000000000" |};
   {| zc_page := 0; zc_bbox := (50, 50, 150, 150)%float; zc_text := []; zc_image_hash := py "8000000000000000" |}].

Definition replicated_off_then_in : list replicated_rect :=
  [{| rr_page := 0; rr_bbox := (500, 50, 700, 150)%float; rr_tidx := 0;
      rr_group_id := py "src0|p0" |};
   {| rr_page := 0; rr_bbox := (50, 50, 150, 150)%float; rr_tidx := 1;
      rr_group_id := py "src1|p0" |}].

(** ** Client names outside the alphabet of template ids *)
(** A database in which "e acute" (U+00E9) is a lower-case letter, and the
    client name "caf" followed by it. *)
Definition latin1_db : unicode_db :=
  {| uc_isalnum := fun c => (c =? 233)%N; uc_lower := fun s => s; uc_decimal := fun _ => None |}.

Definition cafe : pystr := py "caf" ++ [233%N].

(** ** pipeline.py: manual names and replacement keys *)
(** [s.split()]: the maximal runs of characters that are not white space.
    [cur] is the current run, reversed. *)
Fixpoint split_ws_aux (cur : pystr) (s : pystr) : list pystr :=
  match s with
  | [] => match cur with [] => [] | _ => [rev cur] end
  | c :: s' =>
      if isspace c
      then match cur with
           | [] => split_ws_aux [] s'
           | _ => rev cur :: split_ws_aux [] s'
           end
      else split_ws_aux (c :: cur) s'
  end.

Definition split_ws (s : pystr) : list pystr := split_ws_aux [] s.

(** [" ".join(s.split()).strip()], for a [str]. *)
Definition _norm_phrase (s : pystr) : pystr := strip (join (py " ") (split_ws s)).

(** The order of [str]: lexicographic on code points. *)
Fixpoint str_leb (a b : pystr) : bool :=
  match a, b with
  | [], _ => true
  | _ :: _, [] => false
  | x :: a', y :: b' =>
      if (x <? y)%N then true else if (y <? x)%N then false else str_leb a' b'
  end.

Definition str_le (a b : pystr) : Prop := str_leb a b = true.

#[export] Instance str_le_dec (a b : pystr) : Decision (str_le a b) :=
  decide (str_leb a b = true).

(** [_augment_manual_names_from_replacements(manual_names,
    text_replacements)].  The replacements are a dict from strings to
    strings or [None], in insertion order. *)
Definition _augment_manual_names_from_replacements (manual_names : option (list pystr))
  (text_replacements : option (list (pystr * option pystr))) : list pystr :=
  let base := default [] manual_names in
  match text_replacements with
  | None | Some [] => base
  | Some reps =>
      let rep_keys := omap (fun kv => match snd kv with
                                      | Some _ => Some (fst kv)
                                      | None => None
                                      end) reps in
      let merged : gset pystr :=
        list_to_set (List.filter (fun x => negb (bool_decide (x = [])))
                       (map _norm_phrase (base ++ rep_keys))) in
      merge_sort str_le (elements merged)
  end.

(** A word of [s.split()]: not empty and without white space. *)
Definition is_word (w : pystr) : Prop :=
  w <> [] /\ Forall (fun c => isspace c = false) w.

(** Manual names and replacements of the examples. *)
Definition spaced_names : list pystr := [py "  John   Smith "; py "ACME"].

Definition acme_replacements : list (pystr * option pystr) :=
  [(py "ACME", Some (py "Client")); (py "Bob", None); (py " Jane  Doe", Some [])].

(** ** pipeline.py: the gate of the legacy secondary pass *)
(** One entry of [record_scores] in [process_low_conf_batch]. *)
Record secondary_record := {
  sc_page : Z;
  sc_bbox : bbox;
  sc_tscore : float;
  sc_iscore : float;
  sc_rscore : float
}.

(** [rec["rscore"] < THRESH_R or rec["tscore"] < THRESH_T or
    rec["iscore"] < THRESH_I], with [THRESH_R = threshold] and
    [THRESH_T = THRESH_I = 0.85]. *)
Definition secondary_fail (threshold : float) (rec : secondary_record) : bool :=
  ((sc_rscore rec <? threshold) || (sc_tscore rec <? 0.85) || (sc_iscore rec <? 0.85))%float.

(** The body of [for rec in recs], for the page [pg] of [pages.items()]:
    the state is [high_conf_rects] and [low_confidence_by_page]. *)
Definition secondary_rec_step (threshold : float) (pg : Z)
  (st : list (Z * bbox) * list (Z * list bbox)) (rec : secondary_record)
  : list (Z * bbox) * list (Z * list bbox) :=
  let '(high_conf_rects, low_confidence_by_page) := st in
  if secondary_fail threshold rec
  then (high_conf_rects, dict_append pg (sc_bbox rec) low_confidence_by_page)
  else (high_conf_rects ++ [(sc_page rec, sc_bbox rec)], low_confidence_by_page).

(** "Group by page" and the classification loop of
    [process_low_conf_batch]. *)
Definition secondary_gate (threshold : float) (record_scores : list secondary_record)
  : list (Z * bbox) * list (Z * list bbox) :=
  fold_left
    (fun st p => fold_left (secondary_rec_step threshold (fst p)) (snd p) st)
    (group_by sc_page record_scores) ([], []).

(** Two records on one page: the first with a low text score. *)
Definition secondary_two : list secondary_record :=
  [{| sc_page := 0; sc_bbox := (50, 50, 150, 150)%float;
      sc_tscore := 0.5; sc_iscore := 1; sc_rscore := 0.75 |};
   {| sc_page := 0; sc_bbox := (200, 50, 300, 150)%float;
      sc_tscore := 1; sc_iscore := 1; sc_rscore := 1 |}].

(* ================================================================== *)
(** * Part II.  Properties                                             *)
(* ================================================================== *)

(** ** Order facts about binary64 comparisons *)

Lemma SFcompare_antisym (x y : spec_float) :
  SFcompare y x = option_map CompOpp (SFcompare x y).
Proof.
  destruct x as [sx|sx| |sx mx ex], y as [sy|sy| |sy my ey]; simpl;
    try destruct sx; try destruct sy; simpl; try reflexivity.
  - rewrite (Z.compare_antisym ex ey).
    destruct (ex ?= ey); simpl; try reflexivity.
    change (PosDef.Pos.compare_cont Eq my mx) with (Pos.compare_cont (CompOpp Eq) my mx).
    rewrite <- (Pos.compare_cont_antisym mx my Eq). reflexivity.
  - rewrite (Z.compare_antisym ex ey).
    destruct (ex ?= ey); simpl; try reflexivity.
    change (PosDef.Pos.compare_cont Eq my mx) with (Pos.compare_cont (CompOpp Eq) my mx).
    rewrite <- (Pos.compare_cont_antisym mx my Eq). reflexivity.
Qed.

Lemma SFcompare_None (x y : spec_float) :
  SFcompare x y = None -> x = S754_nan \/ y = S754_nan.
Proof.
  destruct x as [sx|sx| |sx mx ex], y as [sy|sy| |sy my ey]; simpl;
    try discriminate; auto.
Qed.

Lemma is_nan_false (a : float) : is_nan a = false -> Prim2SF a <> S754_nan.
Proof.
  unfold is_nan. rewrite FloatAxioms.eqb_spec. unfold SFeqb. intros H E.
  rewrite E in H. simpl in H. discriminate.
Qed.

Lemma ltb_asym (a b : float) : (a <? b)%float = true -> (b <? a)%float = false.
Proof.
  rewrite !FloatAxioms.ltb_spec. unfold SFltb.
  rewrite (SFcompare_antisym (Prim2SF a) (Prim2SF b)).
  destruct (SFcompare (Prim2SF a) (Prim2SF b)) as [[]|]; simpl; congruence.
Qed.

Lemma ltb_leb (a b : float) : (a <? b)%float = true -> (a <=? b)%float = true.
Proof.
  rewrite FloatAxioms.ltb_spec, FloatAxioms.leb_spec. unfold SFltb, SFleb.
  destruct (SFcompare (Prim2SF a) (Prim2SF b)) as [[]|]; simpl; congruence.
Qed.

Lemma not_ltb_leb (a b : float) :
  is_nan a = false -> is_nan b = false ->
  (b <? a)%float = false -> (a <=? b)%float = true.
Proof.
  intros Ha Hb. rewrite FloatAxioms.ltb_spec, FloatAxioms.leb_spec. unfold SFltb, SFleb.
  rewrite (SFcompare_antisym (Prim2SF a) (Prim2SF b)).
  destruct (SFcompare (Prim2SF a) (Prim2SF b)) as [[]|] eqn:E; simpl; try congruence.
  apply SFcompare_None in E. destruct E as [E|E].
  - now apply is_nan_false in Ha.
  - now apply is_nan_false in Hb.
Qed.

(** ** Rotation geometry *)

Lemma rotation_table_default (b : bbox) (pw ph : float) (r : Z) :
  r <> 90 -> r <> 180 -> r <> 270 -> rotation_table b pw ph r = b.
Proof.
  intros H90 H180 H270. destruct b as [[[x1 y1] x2] y2]. unfold rotation_table.
  destruct r as [|p|p]; try reflexivity.
  do 9 (try (destruct p as [p|p|]; try reflexivity; try congruence)).
Qed.

Lemma transform_is_renormalized_table (b : bbox) (pw ph : float) (pr : Z) :
  transform_bbox_for_rotation b pw ph pr
  = renormalize (rotation_table b pw ph (pr mod 360)).
Proof.
  destruct b as [[[x1 y1] x2] y2]. unfold transform_bbox_for_rotation.
  destruct (pr mod 360 =? 0) eqn:E0.
  { apply Z.eqb_eq in E0. rewrite E0. unfold rotation_table, renormalize.
    destruct (x2 <? x1)%float, (y2 <? y1)%float; reflexivity. }
  destruct (pr mod 360 =? 90) eqn:E90.
  { apply Z.eqb_eq in E90. rewrite E90. unfold rotation_table, renormalize.
    destruct (y2 <? y1)%float, (pw - x1 <? pw - x2)%float; reflexivity. }
  destruct (pr mod 360 =? 180) eqn:E180.
  { apply Z.eqb_eq in E180. rewrite E180. unfold rotation_table, renormalize.
    destruct (pw - x1 <? pw - x2)%float, (ph - y1 <? ph - y2)%float; reflexivity. }
  destruct (pr mod 360 =? 270) eqn:E270.
  { apply Z.eqb_eq in E270. rewrite E270. unfold rotation_table, renormalize.
    destruct (ph - y1 <? ph - y2)%float, (x2 <? x1)%float; reflexivity. }
  apply Z.eqb_neq in E0, E90, E180, E270.
  rewrite rotation_table_default by assumption. unfold renormalize.
  destruct (x2 <? x1)%float, (y2 <? y1)%float; reflexivity.
Qed.

Lemma renormalize_not_inverted (b : bbox) : bbox_not_inverted (renormalize b) = true.
Proof.
  destruct b as [[[x1 y1] x2] y2]. unfold renormalize, bbox_not_inverted.
  destruct (x2 <? x1)%float eqn:Ex, (y2 <? y1)%float eqn:Ey;
    rewrite ?(ltb_asym _ _ Ex), ?(ltb_asym _ _ Ey), ?Ex, ?Ey; reflexivity.
Qed.

Lemma renormalize_ordered (b : bbox) :
  bbox_has_nan (renormalize b) = false -> bbox_ordered (renormalize b) = true.
Proof.
  destruct b as [[[x1 y1] x2] y2]. unfold renormalize, bbox_has_nan, bbox_ordered.
  intros H. apply orb_false_elim in H as [H Hy2]. apply orb_false_elim in H as [H Hx2].
  apply orb_false_elim in H as [Hx1 Hy1].
  apply andb_true_intro. split.
  - destruct (x2 <? x1)%float eqn:Ex.
    + now apply ltb_leb.
    + now apply not_ltb_leb.
  - destruct (y2 <? y1)%float eqn:Ey.
    + now apply ltb_leb.
    + now apply not_ltb_leb.
Qed.

(** C2.  [transform_bbox_for_rotation] returns the table row selected by
    the rotation normalized modulo 360 (identity for 0 and for every value
    outside 90, 180, 270), re-normalized by swapping and with no clamp to
    the page: a box beyond the page stays beyond it.  The result is never
    inverted, and whenever its coordinates are numbers (no NaN) it satisfies
    x1' <= x2' and y1' <= y2'.  For the 600 x 800 page and the box
    (50,50,150,150) the four rotations give the four boxes listed. *)
Theorem transform_bbox_for_rotation_table (b : bbox) (pw ph : float) (pr : Z) :
  let t := transform_bbox_for_rotation b pw ph pr in
  t = renormalize (rotation_table b pw ph (pr mod 360))
  /\ bbox_not_inverted t = true
  /\ (bbox_has_nan t = false -> bbox_ordered t = true)
  /\ transform_bbox_for_rotation (50, 50, 150, 150)%float 600 800 0
     = (50, 50, 150, 150)%float
  /\ transform_bbox_for_rotation (50, 50, 150, 150)%float 600 800 90
     = (50, 450, 150, 550)%float
  /\ transform_bbox_for_rotation (50, 50, 150, 150)%float 600 800 180
     = (450, 650, 550, 750)%float
  /\ transform_bbox_for_rotation (50, 50, 150, 150)%float 600 800 270
     = (650, 50, 750, 150)%float
  /\ transform_bbox_for_rotation (-10, -20, 700, 900)%float 600 800 0
     = (-10, -20, 700, 900)%float.
Proof.
  intros t. subst t. rewrite transform_is_renormalized_table.
  split; [reflexivity|].
  split; [apply renormalize_not_inverted|].
  split; [apply renormalize_ordered|].
  repeat split; vm_compute; reflexivity.
Qed.

(** The theorem at the specification's example, rotation 90: the result has
    no NaN and is ordered. *)
Lemma transform_bbox_for_rotation_table_witness :
  bbox_ordered (transform_bbox_for_rotation (50, 50, 150, 150)%float 600 800 90) = true.
Proof.
  apply (transform_bbox_for_rotation_table (50, 50, 150, 150)%float 600 800 90).
  vm_compute. reflexivity.
Defined.

(** ** String helpers *)

Lemma Forall_filter_bool {A : Type} (f : A -> bool) (l : list A) :
  Forall (fun x => f x = true) (List.filter f l).
Proof.
  apply List.Forall_forall. intros x Hx. apply List.filter_In in Hx. tauto.
Qed.

Lemma Forall_lstrip (P : codepoint -> Prop) (s : pystr) : Forall P s -> Forall P (lstrip s).
Proof.
  induction 1 as [|c s Hc Hs IH]; simpl; [constructor|].
  destruct (isspace c); [exact IH | now constructor].
Qed.

Lemma Forall_strip (P : codepoint -> Prop) (s : pystr) : Forall P s -> Forall P (strip s).
Proof.
  intros H. unfold strip, rstrip.
  apply List.Forall_rev, Forall_lstrip, List.Forall_rev, Forall_lstrip, H.
Qed.

Lemma str_or_nonempty (x : option pystr) (d : pystr) : d <> [] -> str_or x d <> [].
Proof.
  intros Hd. destruct x as [[|c s]|]; simpl; congruence.
Qed.

Lemma str_or_Forall (P : codepoint -> Prop) (x d : pystr) :
  Forall P x -> Forall P d -> Forall P (str_or (Some x) d).
Proof.
  intros Hx Hd. destruct x as [|c s]; simpl; assumption.
Qed.

Lemma last_component_spec (sep : codepoint) (s : pystr) :
  exists pre, s = pre ++ last_component sep s
              /\ ~ In sep (last_component sep s)
              /\ (pre = [] \/ exists pre', pre = pre' ++ [sep]).
Proof.
  induction s as [|c s IH]; simpl.
  - exists []. split; [reflexivity|]. split; [intros []|now left].
  - destruct (existsb (N.eqb sep) s) eqn:E.
    + destruct IH as (pre & Hs & Hno & Hpre). exists (c :: pre).
      split; [simpl; congruence|]. split; [exact Hno|]. right.
      destruct Hpre as [->|[pre' ->]].
      * simpl in Hs. apply List.existsb_exists in E as (x & Hx & Hxe).
        apply N.eqb_eq in Hxe. subst x. rewrite Hs in Hx. contradiction.
      * exists (c :: pre'). reflexivity.
    + assert (Hs : ~ In sep s).
      { intros Hin. assert (existsb (N.eqb sep) s = true) as E'.
        { apply List.existsb_exists. exists sep. split; [exact Hin|apply N.eqb_refl]. }
        congruence. }
      destruct (c =? sep)%N eqn:Ec.
      * apply N.eqb_eq in Ec. subst c. exists [sep].
        split; [reflexivity|]. split; [exact Hs|]. right. exists []. reflexivity.
      * apply N.eqb_neq in Ec. exists [].
        split; [reflexivity|]. split; [|now left].
        simpl. intros [H|H]; [congruence|contradiction].
Qed.

Lemma filename_char_FILE_PDF (db : unicode_db) :
  Forall (fun c => filename_char db c = true) FILE_PDF.
Proof. repeat constructor. Qed.

Lemma client_id_char_TEMPLATE (db : unicode_db) :
  Forall (fun c => client_id_char db c = true) TEMPLATE.
Proof. repeat constructor. Qed.

(** ** Upload names *)

(** C7.  [_safe_filename] takes the part of the (stripped) name after its
    last '/' or '\', keeps of it only alphanumerics and the characters of
    "-_.() ", and falls back to "file.pdf" when nothing is left; the result
    is never empty and holds no path separator.  "../../etc/passwd.pdf"
    gives "passwd.pdf". *)
Theorem _safe_filename_safe (db : unicode_db) (name : option pystr) :
  let given := replace_char BACKSLASH SLASH (strip (str_or name FILE_PDF)) in
  let r := _safe_filename db name in
  (exists dir base,
      given = dir ++ base
      /\ ~ In SLASH base
      /\ (dir = [] \/ exists dir', dir = dir' ++ [SLASH])
      /\ r = str_or (Some (strip (List.filter (filename_char db) base))) FILE_PDF
      /\ (List.filter (filename_char db) base = [] -> r = FILE_PDF))
  /\ Forall (fun c => filename_char db c = true) r
  /\ r <> []
  /\ ~ In SLASH r
  /\ ~ In BACKSLASH r
  /\ _safe_filename db (Some (py "../../etc/passwd.pdf")) = py "passwd.pdf"
  /\ _safe_filename db (Some (py "///")) = py "file.pdf"
  /\ _safe_filename db None = py "file.pdf".
Proof.
  intros given r.
  assert (Hall : Forall (fun c => filename_char db c = true) r).
  { apply str_or_Forall; [|apply filename_char_FILE_PDF].
    apply Forall_strip, Forall_filter_bool. }
  split.
  { destruct (last_component_spec SLASH given) as (dir & Hg & Hno & Hdir).
    exists dir, (last_component SLASH given).
    repeat split; try assumption; try reflexivity.
    intros Hempty. subst r. unfold _safe_filename. fold given. rewrite Hempty.
    reflexivity. }
  split; [exact Hall|].
  split; [apply str_or_nonempty; discriminate|].
  split; [|split].
  - intros Hin. rewrite List.Forall_forall in Hall. specialize (Hall _ Hin).
    vm_compute in Hall. discriminate.
  - intros Hin. rewrite List.Forall_forall in Hall. specialize (Hall _ Hin).
    vm_compute in Hall. discriminate.
  - repeat split; reflexivity.
Qed.

(** ** Client ids *)

Lemma client_id_as_described_eq (db : unicode_db) (s : pystr) :
  client_id_as_described db s
  = str_or (Some (List.filter (client_id_char db)
                    (replace_char SPACE UNDERSCORE (lower db s)))) TEMPLATE.
Proof.
  unfold client_id_as_described.
  destruct (List.filter _ _); reflexivity.
Qed.

(** C10, as the code has it.  The client id is never empty and consists of
    alphanumerics, '_' and '-' only; it is the described transformation
    (lower-case, spaces to underscores, other characters removed,
    "template" when empty) of the input with its leading and trailing
    white space stripped first, and so agrees with the description on every
    input that has none. *)
Theorem _safe_client_id_nonempty (db : unicode_db) (s : option pystr) :
  _safe_client_id db s <> []
  /\ Forall (fun c => client_id_char db c = true) (_safe_client_id db s)
  /\ _safe_client_id db s = client_id_as_described db (strip (str_or s []))
  /\ (forall x, s = Some x -> strip x = x ->
        _safe_client_id db s = client_id_as_described db x)
  /\ _safe_client_id db (Some (py " Acme Corp ")) = py "acme_corp"
  /\ _safe_client_id db (Some (py "***")) = py "template"
  /\ _safe_client_id db None = py "template".
Proof.
  assert (Heq : _safe_client_id db s = client_id_as_described db (strip (str_or s []))).
  { rewrite client_id_as_described_eq. reflexivity. }
  split; [apply str_or_nonempty; discriminate|].
  split.
  { apply str_or_Forall; [apply Forall_filter_bool|apply client_id_char_TEMPLATE]. }
  split; [exact Heq|].
  split.
  { intros x -> Hx. rewrite Heq. destruct x as [|c x]; simpl str_or.
    - reflexivity.
    - rewrite Hx. reflexivity. }
  repeat split; reflexivity.
Qed.

(** C10 as the specification words it fails on a client name with a leading
    space: the code strips it, the description turns it into an underscore. *)
Lemma _safe_client_id_strips_first :
  (forall db, _safe_client_id db (Some (py " a")) = py "a")
  /\ (forall db, client_id_as_described db (py " a") = py "_a")
  /\ py "a" <> py "_a".
Proof.
  split; [intros db; reflexivity|].
  split; [intros db; reflexivity|].
  discriminate.
Qed.

(** The amended C10 on an input without surrounding white space. *)
Lemma _safe_client_id_nonempty_witness :
  _safe_client_id ascii_db (Some (py "Acme Corp"))
  = client_id_as_described ascii_db (py "Acme Corp").
Proof.
  destruct (_safe_client_id_nonempty ascii_db (Some (py "Acme Corp")))
    as (_ & _ & _ & H & _).
  apply (H (py "Acme Corp")); reflexivity.
Defined.

(** ** Decimal numerals *)

Lemma int_of_digits_fold (db : unicode_db) (s : pystr) :
  int_of_digits db s = fold_left (digit_step db) s 0.
Proof. reflexivity. Qed.

Lemma fold_digits_acc (db : unicode_db) (d : Decimal.uint) (acc : positive) :
  fold_left (digit_step db) (py (NilEmpty.string_of_uint d)) (Z.pos acc)
  = Z.pos (Pos.of_uint_acc d acc).
Proof.
  revert acc. induction d; intros acc; try reflexivity;
    cbn [NilEmpty.string_of_uint py list_ascii_of_string map fold_left Pos.of_uint_acc];
    fold (py (NilEmpty.string_of_uint d)); rewrite <- IHd; f_equal;
    unfold digit_step;
    match goal with
    | |- context [digit_value db ?c] =>
        let v := eval vm_compute in (digit_value db c) in
        change (digit_value db c) with v
    end; lia.
Qed.

Lemma fold_digits_zero (db : unicode_db) (d : Decimal.uint) :
  fold_left (digit_step db) (py (NilEmpty.string_of_uint d)) 0 = Z.of_N (Pos.of_uint d).
Proof.
  induction d; try reflexivity;
    cbn [NilEmpty.string_of_uint py list_ascii_of_string map fold_left Pos.of_uint];
    fold (py (NilEmpty.string_of_uint d)).
  - exact IHd.
  - apply (fold_digits_acc db d 1).
  - apply (fold_digits_acc db d 2).
  - apply (fold_digits_acc db d 3).
  - apply (fold_digits_acc db d 4).
  - apply (fold_digits_acc db d 5).
  - apply (fold_digits_acc db d 6).
  - apply (fold_digits_acc db d 7).
  - apply (fold_digits_acc db d 8).
  - apply (fold_digits_acc db d 9).
Qed.

Lemma uint_digits_ascii (d : Decimal.uint) :
  Forall (fun c => is_ascii_digit c = true) (py (NilEmpty.string_of_uint d)).
Proof.
  induction d; cbn [NilEmpty.string_of_uint py list_ascii_of_string map];
    try fold (py (NilEmpty.string_of_uint d)); constructor; auto.
Qed.

Lemma str_of_int_nonneg (n : Z) :
  0 <= n ->
  exists d, d <> Decimal.Nil /\ str_of_int n = py (NilEmpty.string_of_uint d)
            /\ Z.of_N (Pos.of_uint d) = n.
Proof.
  intros Hn. destruct n as [|p|p]; [| |lia].
  - exists (Decimal.D0 Decimal.Nil). repeat split. discriminate.
  - exists (Pos.to_uint p). split; [apply Unsigned.to_uint_nonnil|].
    split; [reflexivity|]. now rewrite Unsigned.of_to.
Qed.

Lemma int_of_str_of_int (db : unicode_db) (n : Z) :
  0 <= n -> int_of_digits db (str_of_int n) = n.
Proof.
  intros Hn. destruct (str_of_int_nonneg n Hn) as (d & _ & -> & Hd).
  rewrite int_of_digits_fold, fold_digits_zero. exact Hd.
Qed.

Lemma str_of_int_digits (n : Z) :
  0 <= n ->
  str_of_int n <> [] /\ Forall (fun c => is_ascii_digit c = true) (str_of_int n).
Proof.
  intros Hn. destruct (str_of_int_nonneg n Hn) as (d & Hnil & -> & _).
  split; [|apply uint_digits_ascii].
  destruct d; try congruence; discriminate.
Qed.

(** ** The template id pattern *)

Lemma take_while_all (p : codepoint -> bool) (s : pystr) :
  Forall (fun c => p c = true) s -> take_while p s = s.
Proof.
  induction 1 as [|c s Hc _ IH]; simpl; [reflexivity|]. now rewrite Hc, IH.
Qed.

Lemma take_while_Forall (p : codepoint -> bool) (s : pystr) :
  Forall (fun c => p c = true) (take_while p s).
Proof.
  induction s as [|c s IH]; simpl; [constructor|].
  destruct (p c) eqn:E; [now constructor|constructor].
Qed.

Lemma is_digit_ascii (db : unicode_db) (c : codepoint) :
  is_ascii_digit c = true -> is_digit db c = true.
Proof.
  intros H. unfold is_digit.
  assert (is_ascii c = true) as ->; [|exact H].
  unfold is_ascii_digit, in_range in H. unfold is_ascii.
  apply andb_prop in H as [_ H]. apply N.leb_le in H. apply N.ltb_lt. lia.
Qed.

Lemma is_client_char_digit (c : codepoint) :
  is_ascii_digit c = true -> is_client_char c = true.
Proof.
  intros H. unfold is_client_char, is_ascii_alnum. rewrite H.
  now rewrite !orb_true_r.
Qed.

Lemma digit_not_underscore (c : codepoint) : is_ascii_digit c = true -> c <> 95%N.
Proof. intros H ->. discriminate. Qed.

(** A suffix of a digit string does not start the version tail. *)
Lemma no_suffix_in_digits (db : unicode_db) (ds : pystr) (j : nat) :
  Forall (fun c => is_ascii_digit c = true) ds ->
  match_version_suffix db (skipn j ds) = None.
Proof.
  intros H. assert (Hs : Forall (fun c => is_ascii_digit c = true) (skipn j ds)).
  { now apply Forall_drop. }
  destruct (skipn j ds) as [|c rest]; [reflexivity|].
  inversion Hs as [|? ? Hc _]; subst.
  unfold match_version_suffix.
  destruct c as [|p]; [reflexivity|].
  do 7 (try (destruct p as [p|p|]; try reflexivity)); discriminate.
Qed.

Lemma match_version_suffix_digits (db : unicode_db) (ds : pystr) :
  ds <> [] -> Forall (fun c => is_ascii_digit c = true) ds ->
  match_version_suffix db (py "_v" ++ ds) = Some ds.
Proof.
  intros Hne H. change (py "_v" ++ ds) with (95%N :: 118%N :: ds).
  unfold match_version_suffix.
  rewrite (take_while_all (is_digit db) ds).
  2:{ eapply List.Forall_impl; [|exact H]. intros c. apply is_digit_ascii. }
  rewrite drop_all. destruct ds; [congruence|].
  rewrite bool_decide_eq_true_2 by now left. reflexivity.
Qed.

Lemma match_id_from_version_id (db : unicode_db) (client ds : pystr) (j : nat) :
  client <> [] -> ds <> [] ->
  Forall (fun c => is_ascii_digit c = true) ds ->
  (j <= 2 + length ds)%nat ->
  match_id_from db (length client + j) (client ++ py "_v" ++ ds) = Some (client, ds).
Proof.
  intros Hc Hne Hds. induction j as [|j IH]; intros Hj.
  - rewrite Nat.add_0_r.
    destruct (length client) as [|k] eqn:Hlen; [now destruct client|].
    cbn [match_id_from]. rewrite <- Hlen.
    rewrite drop_app_length, take_app_length.
    now rewrite match_version_suffix_digits.
  - rewrite Nat.add_succ_r. cbn [match_id_from].
    assert (Hskip : match_version_suffix db
                      (drop (S (length client + j)) (client ++ py "_v" ++ ds)) = None).
    { replace (S (length client + j)) with (length client + S j)%nat by lia.
      rewrite drop_app_add.
      change (py "_v" ++ ds) with (95%N :: 118%N :: ds).
      destruct j as [|j]; [reflexivity|].
      cbn [drop]. now apply no_suffix_in_digits. }
    rewrite Hskip. apply IH. lia.
Qed.

Lemma _ID_RE_match_version_id (db : unicode_db) (client ds : pystr) :
  client <> [] -> forallb is_client_char client = true ->
  ds <> [] -> Forall (fun c => is_ascii_digit c = true) ds ->
  _ID_RE_match db (client ++ py "_v" ++ ds) = Some (client, ds).
Proof.
  intros Hc Hall Hne Hds. unfold _ID_RE_match.
  rewrite take_while_all.
  - rewrite !length_app. change (length (py "_v")) with 2%nat.
    apply match_id_from_version_id; auto.
  - apply List.Forall_app. split.
    + apply List.Forall_forall. exact (proj1 (List.forallb_forall is_client_char client) Hall).
    + apply List.Forall_app. split; [repeat constructor|].
      eapply List.Forall_impl; [|exact Hds]. intros c. apply is_client_char_digit.
Qed.

Lemma parse_version_id (db : unicode_db) (client : pystr) (n : Z) :
  client <> [] -> forallb is_client_char client = true -> 0 <= n ->
  parse_template_id db (version_id client n) = (client, Some n).
Proof.
  intros Hc Hall Hn. unfold parse_template_id, version_id.
  destruct (str_of_int_digits n Hn) as [Hne Hds].
  rewrite _ID_RE_match_version_id by assumption.
  now rewrite int_of_str_of_int.
Qed.

Lemma digit_value_nonneg (db : unicode_db) (c : codepoint) :
  is_digit db c = true -> 0 <= digit_value db c.
Proof.
  unfold is_digit, digit_value. destruct (is_ascii c).
  - unfold is_ascii_digit, in_range. intros H. apply andb_prop in H as [H _].
    apply N.leb_le in H. lia.
  - intros _. lia.
Qed.

Lemma int_of_digits_nonneg (db : unicode_db) (s : pystr) :
  Forall (fun c => is_digit db c = true) s -> 0 <= int_of_digits db s.
Proof.
  rewrite int_of_digits_fold. intros H.
  assert (Hacc : forall acc, 0 <= acc -> 0 <= fold_left (digit_step db) s acc).
  { induction H as [|c s Hc _ IH]; intros acc Hacc; [exact Hacc|].
    simpl. apply IH. unfold digit_step. pose proof (digit_value_nonneg db c Hc). lia. }
  apply Hacc. lia.
Qed.

Lemma match_version_suffix_digits_only (db : unicode_db) (rest ds : pystr) :
  match_version_suffix db rest = Some ds -> Forall (fun c => is_digit db c = true) ds.
Proof.
  unfold match_version_suffix.
  destruct rest as [|a [|b tl]]; try discriminate.
  - destruct a as [|p]; [discriminate|].
    do 7 (try (destruct p as [p|p|]; try discriminate)).
  - destruct a as [|p]; [discriminate|].
    do 7 (try (destruct p as [p|p|]; try discriminate)).
    destruct b as [|q]; [discriminate|].
    do 7 (try (destruct q as [q|q|]; try discriminate)).
    pose proof (take_while_Forall (is_digit db) tl) as H.
    destruct (take_while (is_digit db) tl) as [|d ds'] eqn:E; [discriminate|].
    destruct (bool_decide _); [|discriminate].
    intros [= <-]. exact H.
Qed.

Lemma _ID_RE_match_digits_only (db : unicode_db) (s client ds : pystr) :
  _ID_RE_match db s = Some (client, ds) -> Forall (fun c => is_digit db c = true) ds.
Proof.
  unfold _ID_RE_match. generalize (length (take_while is_client_char s)) as k.
  induction k as [|k IH]; simpl; [discriminate|].
  destruct (match_version_suffix db (drop (S k) s)) as [ds'|] eqn:E.
  - intros [= _ <-]. eapply match_version_suffix_digits_only; eauto.
  - exact IH.
Qed.

Lemma last_Forall {A : Type} (P : A -> Prop) (l : list A) (d : A) :
  Forall P l -> P d -> P (List.last l d).
Proof.
  intros H Hd. induction H as [|x l Hx Hl IH]; [exact Hd|].
  destruct l as [|y l]; [exact Hx|]. exact IH.
Qed.

Lemma list_versions_nonneg (db : unicode_db) (tm : TemplateManager) (client : pystr) :
  Forall (fun v => 0 <= v) (list_versions db tm client).
Proof.
  unfold list_versions. destruct (tm_listdir tm (_sanitize client)) as [files|]; [|constructor].
  rewrite merge_sort_Permutation.
  apply List.Forall_forall. intros v Hv.
  apply list_elem_of_In, list_elem_of_omap in Hv as (fn & _ & Hfn).
  destruct (ends_with _ _ && starts_with _ _); [|discriminate].
  destruct (_ID_RE_match db _) as [[c ds]|] eqn:E; [|discriminate].
  injection Hfn as <-. apply int_of_digits_nonneg.
  eapply _ID_RE_match_digits_only; eauto.
Qed.

Lemma latest_version_number_nonneg (db : unicode_db) (tm : TemplateManager) (client : pystr) :
  0 <= latest_version_number db tm client.
Proof.
  unfold latest_version_number.
  apply (last_Forall (fun v => 0 <= v)); [apply list_versions_nonneg|lia].
Qed.

(** The empty client does not come back: "_v1" is read as a legacy flat id. *)
Lemma parse_empty_client (db : unicode_db) :
  parse_template_id db (version_id [] 1) = (py "_v1", None).
Proof. reflexivity. Qed.

(** C9.  For a non-empty client made of letters, digits, '_' and '-', the
    next version id parses back to the client and the latest version number
    plus one, and so does [f"{client}_v{n}"] for every positive [n]. *)
Theorem parse_next_version_id_roundtrip
  (db : unicode_db) (tm : TemplateManager) (client : pystr) :
  client <> [] -> forallb is_client_char client = true ->
  parse_template_id db (next_version_id db tm client)
  = (client, Some (latest_version_number db tm client + 1))
  /\ forall n, 0 < n -> parse_template_id db (version_id client n) = (client, Some n).
Proof.
  intros Hc Hall. split.
  - unfold next_version_id. apply parse_version_id; auto.
    pose proof (latest_version_number_nonneg db tm client). lia.
  - intros n Hn. apply parse_version_id; auto. lia.
Qed.

Lemma parse_next_version_id_roundtrip_witness :
  parse_template_id ascii_db (next_version_id ascii_db acme_manager (py "acme"))
  = (py "acme", Some 3).
Proof.
  assert (Hc : py "acme" <> []) by discriminate.
  destruct (parse_next_version_id_roundtrip ascii_db acme_manager (py "acme") Hc eq_refl)
    as [H _].
  rewrite H. vm_compute. reflexivity.
Defined.

(** ** The sentence chunker *)

Lemma split_two_sentences :
  split_sentences two_sentences = [repeat 97%N 999 ++ [46%N]; repeat 98%N 1000].
Proof. vm_compute. reflexivity. Qed.

(** C6 fails on the code.  The limit test of [_chunk_text] adds up the
    sentences only, not the spaces that join them: two sentences of 1000
    characters pass the test at 2000 and come back as one chunk of 2001
    characters.  A single sentence longer than the limit is returned whole,
    after an empty chunk. *)
Theorem _chunk_text_exceeds_max_chars :
  _chunk_text two_sentences 2000 = [two_sentences]
  /\ length two_sentences = 2001%nat
  /\ forallb (fun s => (length s <=? 2000)%nat) (split_sentences two_sentences) = true
  /\ _chunk_text long_sentence 2000 = [[]; long_sentence]
  /\ length long_sentence = 2001%nat.
Proof.
  split; [vm_compute; reflexivity|].
  split; [vm_compute; reflexivity|].
  split; [rewrite split_two_sentences; vm_compute; reflexivity|].
  split; vm_compute; reflexivity.
Qed.

(** ** Insertion-ordered dictionaries *)

Section dict_lemmas.
  Context {K V : Type} `{EqDecision K}.
  Implicit Types (k : K) (d : list (K * list V)).

Lemma dict_get_append_eq k (v : V) d :
    dict_get k (dict_append k v d) = Some (default [] (dict_get k d) ++ [v]).
  Proof.
    induction d as [|[k' vs] d IH]; simpl.
    - now rewrite decide_True.
    - destruct (decide (k = k')); simpl.
      + now rewrite decide_True.
      + now rewrite decide_False.
  Qed.

Lemma dict_get_append_ne k k' (v : V) d :
    k <> k' -> dict_get k' (dict_append k v d) = dict_get k' d.
  Proof.
    intros Hne. induction d as [|[k0 vs] d IH]; simpl.
    - rewrite decide_False; [reflexivity|congruence].
    - destruct (decide (k = k0)); simpl.
      + subst k0. rewrite !decide_False by congruence. reflexivity.
      + destruct (decide (k' = k0)); [reflexivity|exact IH].
  Qed.

Lemma dict_append_key_in k (v : V) d x :
    In x (map fst (dict_append k v d)) -> x = k \/ In x (map fst d).
  Proof.
    induction d as [|[k0 vs] d IH]; simpl.
    - intros [<-|[]]. now left.
    - destruct (decide (k = k0)); simpl; [tauto|].
      intros [<-|Hx]; [tauto|]. destruct (IH Hx); tauto.
  Qed.

Lemma dict_append_NoDup k (v : V) d :
    List.NoDup (map fst d) -> List.NoDup (map fst (dict_append k v d)).
  Proof.
    induction d as [|[k0 vs] d IH]; simpl; intros Hnd.
    - constructor; [intros []|constructor].
    - inversion Hnd as [|? ? Hnotin Hnd']; subst.
      destruct (decide (k = k0)); simpl; [now constructor|].
      constructor; [|now apply IH].
      intros Hin. apply dict_append_key_in in Hin as [->|Hin]; [congruence|contradiction].
  Qed.

Lemma dict_append_concat k (v : V) d :
    Permutation (concat (map snd (dict_append k v d))) (concat (map snd d) ++ [v]).
  Proof.
    induction d as [|[k0 vs] d IH]; simpl; [reflexivity|].
    destruct (decide (k = k0)); simpl.
    - rewrite <- !List.app_assoc. apply Permutation_app_head, Permutation_app_comm.
    - rewrite <- List.app_assoc. now apply Permutation_app_head.
  Qed.

Lemma dict_get_extend_eq k (vs : list V) d :
    dict_get k (dict_extend k vs d) = Some (default [] (dict_get k d) ++ vs).
  Proof.
    induction d as [|[k' ws] d IH]; simpl.
    - now rewrite decide_True.
    - destruct (decide (k = k')); simpl.
      + now rewrite decide_True.
      + now rewrite decide_False.
  Qed.

Lemma dict_get_extend_ne k k' (vs : list V) d :
    k <> k' -> dict_get k' (dict_extend k vs d) = dict_get k' d.
  Proof.
    intros Hne. induction d as [|[k0 ws] d IH]; simpl.
    - rewrite decide_False; [reflexivity|congruence].
    - destruct (decide (k = k0)); simpl.
      + subst k0. rewrite !decide_False by congruence. reflexivity.
      + destruct (decide (k' = k0)); [reflexivity|exact IH].
  Qed.

Lemma dict_extend_key_in k (vs : list V) d x :
    In x (map fst (dict_extend k vs d)) -> x = k \/ In x (map fst d).
  Proof.
    induction d as [|[k0 ws] d IH]; simpl.
    - intros [<-|[]]. now left.
    - destruct (decide (k = k0)); simpl; [tauto|].
      intros [<-|Hx]; [tauto|]. destruct (IH Hx); tauto.
  Qed.

Lemma dict_extend_NoDup k (vs : list V) d :
    List.NoDup (map fst d) -> List.NoDup (map fst (dict_extend k vs d)).
  Proof.
    induction d as [|[k0 ws] d IH]; simpl; intros Hnd.
    - constructor; [intros []|constructor].
    - inversion Hnd as [|? ? Hnotin Hnd']; subst.
      destruct (decide (k = k0)); simpl; [now constructor|].
      constructor; [|now apply IH].
      intros Hin. apply dict_extend_key_in in Hin as [->|Hin]; [congruence|contradiction].
  Qed.

Lemma dict_get_In {W : Type} k (w : W) (d : list (K * W)) :
    dict_get k d = Some w -> In (k, w) d.
  Proof.
    induction d as [|[k0 w0] d IH]; simpl; [discriminate|].
    destruct (decide (k = k0)).
    - intros [= ->]. subst. now left.
    - intros Hg. right. now apply IH.
  Qed.

Lemma In_dict_get {W : Type} k (w : W) (d : list (K * W)) :
    List.NoDup (map fst d) -> In (k, w) d -> dict_get k d = Some w.
  Proof.
    induction d as [|[k0 w0] d IH]; simpl; [intros _ []|].
    intros Hnd Hin. inversion Hnd as [|? ? Hnotin Hnd']; subst.
    destruct Hin as [[= -> ->]|Hin].
    - now rewrite decide_True.
    - rewrite decide_False; [now apply IH|].
      intros ->. apply Hnotin. apply (List.in_map fst) in Hin. exact Hin.
  Qed.

Lemma dict_get_None {W : Type} k (d : list (K * W)) :
    ~ In k (map fst d) -> dict_get k d = None.
  Proof.
    induction d as [|[k0 w0] d IH]; simpl; [reflexivity|].
    intros Hn. rewrite decide_False by (intros ->; apply Hn; now left).
    apply IH. intros Hin. apply Hn. now right.
  Qed.

(** *** Grouping *)

Variable key : V -> K.

Lemma group_by_snoc (l : list V) (v : V) :
    group_by key (l ++ [v]) = dict_append (key v) v (group_by key l).
  Proof. unfold group_by. now rewrite List.fold_left_app. Qed.

Lemma group_by_NoDup (l : list V) : List.NoDup (map fst (group_by key l)).
  Proof.
    induction l as [|v l IH] using List.rev_ind; [constructor|].
    rewrite group_by_snoc. now apply dict_append_NoDup.
  Qed.

Lemma group_by_get (l : list V) k :
    dict_get k (group_by key l)
    = match List.filter (has_key key k) l with [] => None | vs => Some vs end.
  Proof.
    induction l as [|v l IH] using List.rev_ind; [reflexivity|].
    rewrite group_by_snoc, List.filter_app. simpl. unfold has_key at 2.
    destruct (decide (key v = k)) as [<-|Hne].
    - rewrite dict_get_append_eq, IH, bool_decide_eq_true_2 by reflexivity.
      destruct (List.filter (has_key key (key v)) l); reflexivity.
    - rewrite dict_get_append_ne, IH, bool_decide_eq_false_2 by assumption.
      now rewrite List.app_nil_r.
  Qed.

Lemma group_by_concat (l : list V) :
    Permutation (concat (map snd (group_by key l))) l.
  Proof.
    induction l as [|v l IH] using List.rev_ind; [reflexivity|].
    rewrite group_by_snoc, dict_append_concat. now apply Permutation_app_tail.
  Qed.

Lemma group_by_In (l : list V) k (vs : list V) :
    In (k, vs) (group_by key l) <-> vs <> [] /\ vs = List.filter (has_key key k) l.
  Proof.
    split.
    - intros Hin. apply In_dict_get in Hin; [|apply group_by_NoDup].
      rewrite group_by_get in Hin.
      destruct (List.filter (has_key key k) l) eqn:E; [discriminate|].
      injection Hin as <-. split; [discriminate|reflexivity].
    - intros [Hne ->]. apply dict_get_In. rewrite group_by_get.
      destruct (List.filter (has_key key k) l); [congruence|reflexivity].
  Qed.

End dict_lemmas.

(** ** The confidence gate *)

Lemma Permutation_filter_bool {A : Type} (f : A -> bool) (l l' : list A) :
  Permutation l l' -> Permutation (List.filter f l) (List.filter f l').
Proof.
  induction 1 as [|x l l' _ IH|x y l|l l' l'' _ IH1 _ IH2]; simpl.
  - constructor.
  - destruct (f x); [now constructor|exact IH].
  - destruct (f x), (f y); try reflexivity. constructor.
  - now transitivity (List.filter f l').
Qed.

Lemma flat_map_filter_snd {K A : Type} (f : A -> bool) (G : list (K * list A)) :
  flat_map (fun g => List.filter f (snd g)) G = List.filter f (concat (map snd G)).
Proof.
  induction G as [|g G IH]; simpl; [reflexivity|].
  now rewrite List.filter_app, IH.
Qed.

Lemma fold_rec_step (thr : float) (lst a b c : list score_record) :
  fold_left (rec_step thr) lst (a, b, c)
  = (a ++ List.filter (rect_pass thr) lst,
     b ++ List.filter (rect_fail thr) lst,
     c ++ List.filter (rect_fail thr) lst).
Proof.
  revert a b c. induction lst as [|r lst IH]; intros a b c; simpl.
  - now rewrite !List.app_nil_r.
  - assert (Hf : rect_fail thr r = negb (rect_pass thr r)) by reflexivity.
    rewrite Hf. unfold rec_step at 1.
    destruct (rect_pass thr r) eqn:E; cbn [negb]; rewrite IH, <- ?List.app_assoc;
      reflexivity.
Qed.

Lemma no_fail_forallb (thr : float) (lst : list score_record) :
  (length (List.filter (rect_fail thr) lst) =? 0)%nat = forallb (rect_pass thr) lst.
Proof.
  induction lst as [|r lst IH]; simpl; [reflexivity|].
  assert (Hf : rect_fail thr r = negb (rect_pass thr r)) by reflexivity.
  rewrite Hf. destruct (rect_pass thr r); simpl; [exact IH|reflexivity].
Qed.

Lemma group_step_eq (thr : float) (a b : list score_record) (has : bool)
  (g : pystr * list score_record) :
  group_step thr (a, b, has) g
  = (a ++ List.filter (rect_pass thr) (snd g),
     b ++ List.filter (rect_fail thr) (snd g),
     has || forallb (rect_pass thr) (snd g)).
Proof.
  unfold group_step. rewrite fold_rec_step. simpl app.
  rewrite no_fail_forallb. destruct (forallb _ _), has; reflexivity.
Qed.

Lemma fold_group_step (thr : float) (G : list (pystr * list score_record))
  (a b : list score_record) (has : bool) :
  fold_left (group_step thr) G (a, b, has)
  = (a ++ flat_map (fun g => List.filter (rect_pass thr) (snd g)) G,
     b ++ flat_map (fun g => List.filter (rect_fail thr) (snd g)) G,
     has || existsb (fun g => forallb (rect_pass thr) (snd g)) G).
Proof.
  revert a b has. induction G as [|g G IH]; intros a b has; cbn [fold_left flat_map existsb].
  - now rewrite !List.app_nil_r, orb_false_r.
  - rewrite group_step_eq, IH, <- !List.app_assoc, orb_assoc. reflexivity.
Qed.

Lemma classify_page_eq (thr : float) (recs : list score_record) :
  classify_page thr recs
  = (List.filter (rect_pass thr) (concat (map snd (group_by sr_group_id recs))),
     List.filter (rect_fail thr) (concat (map snd (group_by sr_group_id recs))),
     existsb (fun g => forallb (rect_pass thr) (snd g)) (group_by sr_group_id recs)).
Proof.
  unfold classify_page. rewrite fold_group_step. simpl.
  now rewrite !flat_map_filter_snd.
Qed.

Lemma classify_page_passing (thr : float) (recs : list score_record) :
  Permutation (fst (fst (classify_page thr recs))) (List.filter (rect_pass thr) recs).
Proof.
  rewrite classify_page_eq. simpl. apply Permutation_filter_bool, group_by_concat.
Qed.

Lemma classify_page_failing (thr : float) (recs : list score_record) :
  Permutation (snd (fst (classify_page thr recs))) (List.filter (rect_fail thr) recs).
Proof.
  rewrite classify_page_eq. simpl. apply Permutation_filter_bool, group_by_concat.
Qed.

Lemma classify_page_has_group (thr : float) (recs : list score_record) :
  snd (classify_page thr recs)
  = existsb (fun r => forallb (rect_pass thr)
                        (List.filter (has_key sr_group_id (sr_group_id r)) recs)) recs.
Proof.
  rewrite classify_page_eq. simpl. apply eq_true_iff_eq. rewrite !List.existsb_exists. split.
  - intros ([gid vs] & Hin & Hall). simpl in Hall.
    apply group_by_In in Hin as [Hne ->].
    destruct (List.filter (has_key sr_group_id gid) recs) as [|r vs] eqn:E; [congruence|].
    assert (Hr : In r (List.filter (has_key sr_group_id gid) recs)) by (rewrite E; now left).
    apply List.filter_In in Hr as [Hr Hk]. apply bool_decide_eq_true in Hk.
    exists r. split; [exact Hr|]. rewrite Hk, E. exact Hall.
  - intros (r & Hr & Hall).
    exists (sr_group_id r, List.filter (has_key sr_group_id (sr_group_id r)) recs).
    split; [|exact Hall]. apply group_by_In. split; [|reflexivity].
    intros E. assert (Hin : In r (List.filter (has_key sr_group_id (sr_group_id r)) recs)).
    { apply List.filter_In. split; [exact Hr|]. now apply bool_decide_eq_true. }
    rewrite E in Hin. contradiction.
Qed.

Lemma page_step_high (thr : float) (st : gate_result) (p : Z * list score_record) :
  high_conf_rects (page_step thr st p) = high_conf_rects st ++ page_high thr p.
Proof.
  unfold page_step, page_high. destruct (classify_page thr (snd p)) as [[P F] has].
  reflexivity.
Qed.

Lemma page_step_low (thr : float) (st : gate_result) (p : Z * list score_record) :
  low_confidence_by_page (page_step thr st p)
  = match page_low thr p with
    | Some bs => dict_extend (fst p) bs (low_confidence_by_page st)
    | None => low_confidence_by_page st
    end.
Proof.
  unfold page_step, page_low. destruct (classify_page thr (snd p)) as [[P F] has].
  destruct F, has; reflexivity.
Qed.

Lemma gate_high (thr : float) (ps : list (Z * list score_record)) (st : gate_result) :
  high_conf_rects (fold_left (page_step thr) ps st)
  = high_conf_rects st ++ flat_map (page_high thr) ps.
Proof.
  revert st. induction ps as [|p ps IH]; intros st; cbn [fold_left flat_map].
  - now rewrite List.app_nil_r.
  - now rewrite IH, page_step_high, <- List.app_assoc.
Qed.

Lemma gate_low_other (thr : float) (ps : list (Z * list score_record)) (st : gate_result)
  (pg : Z) :
  ~ In pg (map fst ps) ->
  dict_get pg (low_confidence_by_page (fold_left (page_step thr) ps st))
  = dict_get pg (low_confidence_by_page st).
Proof.
  revert st. induction ps as [|p ps IH]; intros st Hn; cbn [fold_left]; [reflexivity|].
  rewrite IH by (intros H; apply Hn; now right).
  rewrite page_step_low. destruct (page_low thr p); [|reflexivity].
  apply dict_get_extend_ne. intros E. apply Hn. left. exact E.
Qed.

Lemma gate_low_page (thr : float) (ps : list (Z * list score_record)) (st : gate_result)
  (pg : Z) (precs : list score_record) :
  List.NoDup (map fst ps) -> In (pg, precs) ps ->
  dict_get pg (low_confidence_by_page st) = None ->
  dict_get pg (low_confidence_by_page (fold_left (page_step thr) ps st))
  = page_low thr (pg, precs).
Proof.
  revert st. induction ps as [|p ps IH]; intros st Hnd Hin Hst; [destruct Hin|].
  cbn [fold_left]. inversion Hnd as [|? ? Hnotin Hnd']; subst.
  destruct Hin as [->|Hin].
  - rewrite gate_low_other by exact Hnotin.
    rewrite page_step_low. destruct (page_low thr (pg, precs)) as [bs|]; [|exact Hst].
    cbn [fst]. rewrite dict_get_extend_eq, Hst. reflexivity.
  - apply IH; [exact Hnd'|exact Hin|].
    rewrite page_step_low. destruct (page_low thr p) as [bs|]; [|exact Hst].
    rewrite dict_get_extend_ne; [exact Hst|].
    intros E. apply Hnotin. rewrite E. apply (List.in_map fst) in Hin. exact Hin.
Qed.

Lemma gate_low_NoDup (thr : float) (ps : list (Z * list score_record)) (st : gate_result) :
  List.NoDup (map fst (low_confidence_by_page st)) ->
  List.NoDup (map fst (low_confidence_by_page (fold_left (page_step thr) ps st))).
Proof.
  revert st. induction ps as [|p ps IH]; intros st Hnd; cbn [fold_left]; [exact Hnd|].
  apply IH. rewrite page_step_low. destruct (page_low thr p); [|exact Hnd].
  now apply dict_extend_NoDup.
Qed.

(** The pages of [pages] are the pages of the records, each with its
    records in input order. *)
Lemma pages_In (recs : list score_record) (pg : Z) (precs : list score_record) :
  In (pg, precs) (group_by sr_page recs) <-> precs <> [] /\ precs = page_records pg recs.
Proof. apply group_by_In. Qed.

Lemma page_low_spec (thr : float) (recs : list score_record) (pg : Z) :
  match page_low thr (pg, page_records pg recs) with
  | Some bs =>
      page_has_passing_group thr pg recs = false
      /\ bs <> []
      /\ Permutation bs (map sr_bbox (page_failing thr pg recs))
  | None =>
      page_failing thr pg recs = [] \/ page_has_passing_group thr pg recs = true
  end.
Proof.
  unfold page_low. cbn [snd].
  pose proof (classify_page_failing thr (page_records pg recs)) as HF.
  pose proof (classify_page_has_group thr (page_records pg recs)) as Hhas.
  destruct (classify_page thr (page_records pg recs)) as [[P F] has].
  cbn [fst snd] in HF, Hhas.
  change (existsb _ (page_records pg recs)) with (page_has_passing_group thr pg recs) in Hhas.
  change (List.filter (rect_fail thr) (page_records pg recs))
    with (page_failing thr pg recs) in HF.
  destruct F as [|f F].
  - left. now apply Permutation_nil in HF.
  - destruct has; cbn [negb].
    + right. now symmetry.
    + split; [now symmetry|]. split; [discriminate|]. now apply Permutation_map.
Qed.

Lemma concat_pages_filter (thr : float) (ps : list (Z * list score_record)) :
  Permutation (flat_map (page_high thr) ps)
    (map to_high_conf (List.filter (rect_pass thr) (concat (map snd ps)))).
Proof.
  induction ps as [|p ps IH]; cbn [flat_map map concat]; [reflexivity|].
  rewrite List.filter_app, List.map_app. apply Permutation_app; [|exact IH].
  unfold page_high. apply Permutation_map, classify_page_passing.
Qed.

Lemma gate_high_spec (thr : float) (recs : list score_record) :
  Permutation (high_conf_rects (confidence_gate thr recs))
    (map to_high_conf (List.filter (rect_pass thr) recs)).
Proof.
  unfold confidence_gate. rewrite gate_high. cbn [high_conf_rects app].
  rewrite concat_pages_filter.
  apply Permutation_map, Permutation_filter_bool, group_by_concat.
Qed.

Lemma gate_low_spec (thr : float) (recs : list score_record) (pg : Z) :
  match dict_get pg (low_confidence_by_page (confidence_gate thr recs)) with
  | Some bs =>
      page_has_passing_group thr pg recs = false
      /\ bs <> []
      /\ Permutation bs (map sr_bbox (page_failing thr pg recs))
  | None =>
      page_failing thr pg recs = [] \/ page_has_passing_group thr pg recs = true
  end.
Proof.
  unfold confidence_gate.
  destruct (page_records pg recs) as [|r0 rs0] eqn:E.
  - rewrite gate_low_other.
    + cbn. left. unfold page_failing. now rewrite E.
    + intros Hin. apply List.in_map_iff in Hin as ([pg' precs] & Hfst & Hin).
      cbn in Hfst. subst pg'. apply pages_In in Hin as [Hne ->]. congruence.
  - rewrite (gate_low_page thr _ _ pg (page_records pg recs)).
    + apply page_low_spec.
    + apply group_by_NoDup.
    + apply pages_In. split; [congruence|reflexivity].
    + reflexivity.
Qed.

(** *** The text-score and the combined score do not reach the gate *)

Section relabel.
  Context {K V W : Type} `{EqDecision K}.
  Variables (h : V -> W) (key : V -> K) (key' : W -> K).
  Hypothesis key_h : forall v, key' (h v) = key v.

Lemma dict_append_map (v : V) (d : list (K * list V)) :
    dict_append (key' (h v)) (h v) (dict_map h d) = dict_map h (dict_append (key v) v d).
  Proof.
    rewrite key_h. unfold dict_map.
    induction d as [|[k vs] d IH]; cbn [map dict_append fst snd]; [reflexivity|].
    destruct (decide (key v = k)); cbn [map fst snd].
    - now rewrite List.map_app.
    - now rewrite IH.
  Qed.

Lemma group_by_map (l : list V) :
    group_by key' (map h l) = dict_map h (group_by key l).
  Proof.
    unfold group_by. change (@nil (K * list W)) with (dict_map h (@nil (K * list V))).
    generalize (@nil (K * list V)) as d.
    induction l as [|v l IH]; intros d; cbn [map fold_left]; [reflexivity|].
    now rewrite dict_append_map, IH.
  Qed.

Lemma concat_dict_map (d : list (K * list V)) :
    concat (map snd (dict_map h d)) = map h (concat (map snd d)).
  Proof.
    unfold dict_map. induction d as [|[k vs] d IH]; cbn [map concat fst snd]; [reflexivity|].
    now rewrite List.map_app, <- IH.
  Qed.
End relabel.

Lemma filter_map_commute {A B : Type} (h : A -> B) (f : A -> bool) (f' : B -> bool)
  (l : list A) :
  (forall a, f' (h a) = f a) -> List.filter f' (map h l) = map h (List.filter f l).
Proof.
  intros Hf. induction l as [|a l IH]; cbn; [reflexivity|].
  rewrite Hf. destruct (f a); cbn; now rewrite IH.
Qed.

Lemma forallb_map_commute {A B : Type} (h : A -> B) (f : A -> bool) (f' : B -> bool)
  (l : list A) :
  (forall a, f' (h a) = f a) -> forallb f' (map h l) = forallb f l.
Proof.
  intros Hf. induction l as [|a l IH]; cbn; [reflexivity|]. now rewrite Hf, IH.
Qed.

Lemma classify_page_relabel (thr : float) (ts rs : score_record -> float)
  (recs : list score_record) :
  classify_page thr (map (with_text_scores ts rs) recs)
  = (map (with_text_scores ts rs) (fst (fst (classify_page thr recs))),
     map (with_text_scores ts rs) (snd (fst (classify_page thr recs))),
     snd (classify_page thr recs)).
Proof.
  rewrite !classify_page_eq. cbn [fst snd].
  rewrite (group_by_map (with_text_scores ts rs) sr_group_id sr_group_id) by reflexivity.
  rewrite concat_dict_map.
  rewrite !(filter_map_commute (with_text_scores ts rs) _ _ _ (fun _ => eq_refl)).
  f_equal. unfold dict_map.
  induction (group_by sr_group_id recs) as [|g G IH]; cbn; [reflexivity|].
  rewrite IH. f_equal.
  apply (forallb_map_commute (with_text_scores ts rs)). reflexivity.
Qed.

Lemma page_step_relabel (thr : float) (ts rs : score_record -> float) (st : gate_result)
  (p : Z * list score_record) :
  page_step thr st (fst p, map (with_text_scores ts rs) (snd p)) = page_step thr st p.
Proof.
  unfold page_step. cbn [fst snd]. rewrite classify_page_relabel.
  destruct (classify_page thr (snd p)) as [[P F] has]. cbn [fst snd].
  rewrite !List.map_map. cbn [to_high_conf with_text_scores hc_page sr_page].
  destruct F; reflexivity.
Qed.

Lemma confidence_gate_relabel (thr : float) (ts rs : score_record -> float)
  (recs : list score_record) :
  confidence_gate thr (map (with_text_scores ts rs) recs) = confidence_gate thr recs.
Proof.
  unfold confidence_gate.
  rewrite (group_by_map (with_text_scores ts rs) sr_page sr_page) by reflexivity.
  generalize ({| high_conf_rects := []; low_confidence_by_page := [];
                 pdf_all_pages_have_passing_group := true |}) as st.
  unfold dict_map.
  induction (group_by sr_page recs) as [|p ps IH]; intros st; cbn [map fold_left];
    [reflexivity|].
  now rewrite page_step_relabel, IH.
Qed.

Lemma gate_reports_failing (thr : float) (recs : list score_record) (rec : score_record) :
  In rec recs -> rect_pass thr rec = false ->
  page_has_passing_group thr (sr_page rec) recs = false ->
  exists bs, dict_get (sr_page rec) (low_confidence_by_page (confidence_gate thr recs))
             = Some bs /\ In (sr_bbox rec) bs.
Proof.
  intros Hin Hfail Hnone.
  assert (Hpf : In rec (page_failing thr (sr_page rec) recs)).
  { unfold page_failing, page_records. rewrite !List.filter_In.
    split; [split; [exact Hin|now apply bool_decide_eq_true]|]. now rewrite Hfail. }
  pose proof (gate_low_spec thr recs (sr_page rec)) as H.
  destruct (dict_get _ _) as [bs|].
  - destruct H as (_ & _ & Hperm). exists bs. split; [reflexivity|].
    eapply Permutation_in; [symmetry; exact Hperm|]. now apply List.in_map.
  - destruct H as [H|H]; [rewrite H in Hpf; destruct Hpf|congruence].
Qed.

(** C1, as the code has it.  A zone passes iff its image-score is at least
    the threshold; the redaction set is exactly the passing zones, whatever
    their groups do; a page's entry in the low-confidence map exists only
    when the page has a failing zone and no group in which every zone
    passes, and then lists exactly the page's failing zones; text-score and
    combined score never change the outcome.  With threshold 0.9 a zone of
    image-score 0.95 is always redacted, and a zone of image-score 0.80 is
    never redacted and is reported whenever its page has no passing group. *)
Theorem confidence_gate_spec (threshold : float) (record_scores : list score_record) :
  let g := confidence_gate threshold record_scores in
  (forall rec, rect_pass threshold rec = true
               <-> (THRESH_I threshold <=? sr_iscore rec)%float = true)
  /\ Permutation (high_conf_rects g)
       (map to_high_conf (List.filter (rect_pass threshold) record_scores))
  /\ (forall rec, In rec record_scores -> rect_pass threshold rec = true ->
        In (to_high_conf rec) (high_conf_rects g))
  /\ (forall pg,
        match dict_get pg (low_confidence_by_page g) with
        | Some bs =>
            page_has_passing_group threshold pg record_scores = false
            /\ bs <> []
            /\ Permutation bs (map sr_bbox (page_failing threshold pg record_scores))
        | None =>
            page_failing threshold pg record_scores = []
            \/ page_has_passing_group threshold pg record_scores = true
        end)
  /\ List.NoDup (map fst (low_confidence_by_page g))
  /\ (forall rec, In rec record_scores -> rect_pass threshold rec = false ->
        page_has_passing_group threshold (sr_page rec) record_scores = false ->
        exists bs, dict_get (sr_page rec) (low_confidence_by_page g) = Some bs
                   /\ In (sr_bbox rec) bs)
  /\ (forall ts rs,
        confidence_gate threshold (map (with_text_scores ts rs) record_scores) = g)
  /\ (forall rec, sr_iscore rec = 0.95%float -> rect_pass 0.9 rec = true)
  /\ (forall rec, sr_iscore rec = 0.80%float -> rect_pass 0.9 rec = false)
  /\ confidence_gate 0.9 [zone_080]
     = {| high_conf_rects := [];
          low_confidence_by_page := [(0, [sr_bbox zone_080])];
          pdf_all_pages_have_passing_group := false |}.
Proof.
  intros g. subst g.
  split; [intros rec; reflexivity|].
  split; [apply gate_high_spec|].
  split.
  { intros rec Hin Hpass. eapply Permutation_in; [symmetry; apply gate_high_spec|].
    apply List.in_map, List.filter_In. now split. }
  split; [apply gate_low_spec|].
  split; [apply gate_low_NoDup; constructor|].
  split; [intros rec; apply gate_reports_failing|].
  split; [intros ts rs; apply confidence_gate_relabel|].
  split; [intros rec H; unfold rect_pass, THRESH_I, fge; rewrite H; reflexivity|].
  split; [intros rec H; unfold rect_pass, THRESH_I, fge; rewrite H; reflexivity|].
  vm_compute. reflexivity.
Qed.

(** C1 as the specification words it fails when a sibling group of the same
    page passes: the 0.80 zone is alone in its group, so its group has no
    other passing member, yet nothing is reported for the page. *)
Lemma confidence_gate_sibling_group_passes :
  confidence_gate 0.9 [zone_080; zone_095]
  = {| high_conf_rects := [to_high_conf zone_095];
       low_confidence_by_page := [];
       pdf_all_pages_have_passing_group := true |}
  /\ group_records 0 (sr_group_id zone_080) [zone_080; zone_095] = [zone_080]
  /\ rect_pass 0.9 zone_080 = false.
Proof. repeat split; vm_compute; reflexivity. Qed.

(** The theorem at the two zones: the 0.95 zone is redacted. *)
Lemma confidence_gate_spec_witness :
  In (to_high_conf zone_095) (high_conf_rects (confidence_gate 0.9 [zone_080; zone_095])).
Proof.
  destruct (confidence_gate_spec 0.9 [zone_080; zone_095]) as (_ & _ & H & _).
  apply H.
  - right. left. reflexivity.
  - reflexivity.
Defined.

(** ** The PassLog step *)

Lemma elem_of_sorted_set (s : gset Z) (x : Z) : x ∈ sorted_set s <-> x ∈ s.
Proof.
  unfold sorted_set. rewrite merge_sort_Permutation. apply elem_of_elements.
Qed.

Lemma elem_of_pages_of (d : gmap pystr (list Z)) (k : pystr) (x : Z) :
  x ∈ pages_of d k <-> exists l, d !! k = Some l /\ x ∈ l.
Proof.
  unfold pages_of. rewrite elem_of_list_to_set. split.
  - destruct (d !! k) as [l|]; simpl; [eauto|]. intros H. inversion H.
  - intros (l & -> & H). exact H.
Qed.

Lemma passlog_step_grows (db : unicode_db) (page_count : pystr -> option Z)
  (failing_by passlog : gmap pystr (list Z)) (p key : pystr) (pages : list Z) :
  passlog !! key = Some pages ->
  exists pages', passlog_step db page_count failing_by passlog p !! key = Some pages'
                 /\ forall x, x ∈ pages -> x ∈ pages'.
Proof.
  intros Hk. unfold passlog_step.
  destruct (decide (_ = ∅)) as [_|_]; [eauto|].
  destruct (decide (_norm_key_from_path db p = key)) as [->|Hne].
  - rewrite lookup_insert_eq. eexists. split; [reflexivity|].
    intros x Hx. apply elem_of_sorted_set, elem_of_union. left.
    apply elem_of_pages_of. eauto.
  - rewrite lookup_insert_ne by exact Hne. eauto.
Qed.

Lemma passlog_fold_grows (db : unicode_db) (page_count : pystr -> option Z)
  (failing_by : gmap pystr (list Z)) (paths : list pystr) (passlog : gmap pystr (list Z))
  (key : pystr) (pages : list Z) :
  passlog !! key = Some pages ->
  exists pages',
    fold_left (passlog_step db page_count failing_by) paths passlog !! key = Some pages'
    /\ forall x, x ∈ pages -> x ∈ pages'.
Proof.
  revert passlog pages. induction paths as [|p paths IH]; intros passlog pages Hk; simpl.
  - eauto.
  - destruct (passlog_step_grows db page_count failing_by passlog p key pages Hk)
      as (pages1 & H1 & Hsub1).
    destruct (IH _ _ H1) as (pages2 & H2 & Hsub2).
    exists pages2. split; [exact H2|]. auto.
Qed.

Lemma kept_low_rects_spec (already : gset Z) (low_rects : list (Z * list bbox))
  (pg : Z) (bs : list bbox) :
  In (pg, bs) (kept_low_rects already low_rects)
  <-> In (pg, bs) low_rects /\ pg ∉ already.
Proof.
  unfold kept_low_rects. rewrite List.filter_In. cbn [fst].
  rewrite negb_true_iff, bool_decide_eq_false. reflexivity.
Qed.

Lemma filter_item_Some (db : unicode_db) (passlog : gmap pystr (list Z))
  (item kept : low_conf_item) :
  filter_item db passlog item = Some kept ->
  lc_pdf kept = lc_pdf item
  /\ lc_low_rects kept <> []
  /\ forall pg bs,
       In (pg, bs) (lc_low_rects kept)
       <-> In (pg, bs) (lc_low_rects item)
           /\ pg ∉ pages_of passlog (_norm_key_from_path db (lc_pdf item)).
Proof.
  unfold filter_item.
  destruct (kept_low_rects _ _) as [|kv kvs] eqn:E; [discriminate|].
  intros [= <-]. cbn [lc_pdf lc_low_rects]. split; [reflexivity|].
  split; [discriminate|]. intros pg bs. rewrite <- E. apply kept_low_rects_spec.
Qed.

Lemma filter_item_None (db : unicode_db) (passlog : gmap pystr (list Z))
  (item : low_conf_item) :
  filter_item db passlog item = None ->
  forall pg bs, In (pg, bs) (lc_low_rects item) ->
                pg ∈ pages_of passlog (_norm_key_from_path db (lc_pdf item)).
Proof.
  unfold filter_item.
  destruct (kept_low_rects _ _) as [|kv kvs] eqn:E; [|discriminate].
  intros _ pg bs Hin.
  destruct (decide (pg ∈ pages_of passlog (_norm_key_from_path db (lc_pdf item))))
    as [Hy|Hn]; [exact Hy|].
  assert (In (pg, bs) (kept_low_rects
            (pages_of passlog (_norm_key_from_path db (lc_pdf item))) (lc_low_rects item)))
    as H by (apply kept_low_rects_spec; now split).
  rewrite E in H. destruct H.
Qed.

(** C3.  The PassLog that is saved extends the loaded one entry by entry
    (no page is ever removed); the report returned to the caller keeps, for
    each report of the pipeline and in order, exactly its pages that are not
    in the updated PassLog, and drops a report with no page left.  Both
    endpoints run this step.  For the 3-page example the caller sees page 0
    only and the PassLog entry becomes [1; 2]. *)
Theorem sanitize_passlog_step_spec (db : unicode_db) (page_count : pystr -> option Z)
  (passlog : gmap pystr (list Z)) (low_conf : list low_conf_item) (paths : list pystr) :
  let report := fst (sanitize_passlog_step db page_count passlog low_conf paths) in
  let passlog' := snd (sanitize_passlog_step db page_count passlog low_conf paths) in
  (forall key pages, passlog !! key = Some pages ->
     exists pages', passlog' !! key = Some pages' /\ forall x, x ∈ pages -> x ∈ pages')
  /\ report = omap (filter_item db passlog') low_conf
  /\ (forall item kept, filter_item db passlog' item = Some kept ->
        lc_pdf kept = lc_pdf item
        /\ lc_low_rects kept <> []
        /\ forall pg bs,
             In (pg, bs) (lc_low_rects kept)
             <-> In (pg, bs) (lc_low_rects item)
                 /\ pg ∉ pages_of passlog' (_norm_key_from_path db (lc_pdf item)))
  /\ (forall item, filter_item db passlog' item = None ->
        forall pg bs, In (pg, bs) (lc_low_rects item) ->
                      pg ∈ pages_of passlog' (_norm_key_from_path db (lc_pdf item)))
  /\ sanitize_existing_passlog_step db page_count passlog low_conf paths
     = sanitize_passlog_step db page_count passlog low_conf paths
  /\ map lc_low_rects
       (fst (sanitize_passlog_step db (fun _ => Some 3) drawing_passlog
               [drawing_report] [drawing_path]))
     = [[(0, [(50, 50, 150, 150)%float])]]
  /\ snd (sanitize_passlog_step db (fun _ => Some 3) drawing_passlog
            [drawing_report] [drawing_path]) !! py "drawing"
     = Some [1; 2].
Proof.
  intros report passlog'. subst report passlog'. cbn [sanitize_passlog_step fst snd].
  split; [intros key pages; apply passlog_fold_grows|].
  split; [reflexivity|].
  split; [intros item kept; apply filter_item_Some|].
  split; [intros item; apply filter_item_None|].
  split; [reflexivity|].
  split; vm_compute; reflexivity.
Qed.

(** The theorem at the example: page 2 stays in the PassLog. *)
Lemma sanitize_passlog_step_spec_witness :
  exists pages',
    snd (sanitize_passlog_step ascii_db (fun _ => Some 3) drawing_passlog
           [drawing_report] [drawing_path]) !! py "drawing" = Some pages'
    /\ forall x, x ∈ [2] -> x ∈ pages'.
Proof.
  destruct (sanitize_passlog_step_spec ascii_db (fun _ => Some 3) drawing_passlog
              [drawing_report] [drawing_path]) as (H & _).
  apply (H (py "drawing") [2]). vm_compute. reflexivity.
Defined.

(** ** Zone-content extraction *)

Lemma clamp_page_range (doc : document) (page : option Z) :
  doc <> [] -> 0 <= clamp_page doc page < Z.of_nat (length doc).
Proof.
  intros Hne. assert (0 < Z.of_nat (length doc)) by (destruct doc; [congruence|cbn; lia]).
  unfold clamp_page. destruct (default 0 page <? 0) eqn:E1; [lia|].
  apply Z.ltb_ge in E1.
  destruct (Z.of_nat (length doc) <=? default 0 page) eqn:E2; [lia|].
  apply Z.leb_gt in E2. lia.
Qed.

Lemma get_page_clamped (doc : document) (page : option Z) :
  doc <> [] -> exists pg, get_page doc (clamp_page doc page) = Return pg.
Proof.
  intros Hne. pose proof (clamp_page_range doc page Hne) as [Hlo Hhi].
  unfold get_page. destruct (clamp_page doc page <? 0) eqn:E; [apply Z.ltb_lt in E; lia|].
  destruct (doc !! Z.to_nat (clamp_page doc page)) as [pg|] eqn:El; [eauto|].
  apply lookup_ge_None in El. lia.
Qed.

Lemma extract_loop_spec (doc : document) (rectangles : list zone)
  (results : list zone_content) (used : list zone) (skipped : list skip_entry) :
  doc <> [] ->
  exists results' used' skipped',
    extract_loop doc (results, used, skipped) rectangles
    = Return (results ++ results', used ++ used', skipped ++ skipped')
    /\ length results' = length used'
    /\ Forall2 (emitted_for doc) (List.filter (zone_inside doc) rectangles)
         (combine results' used')
    /\ Forall2 (skipped_for doc)
         (List.filter (fun r => negb (zone_inside doc r)) rectangles) skipped'.
Proof.
  intros Hne. revert results used skipped.
  induction rectangles as [|rect rest IH]; intros results used skipped.
  - exists [], [], []. rewrite !List.app_nil_r. repeat split; constructor.
  - cbn [extract_loop List.filter]. unfold extract_step, zone_inside.
    destruct (get_page_clamped doc (z_page rect) Hne) as [page Hpage]. rewrite Hpage.
    destruct (_bbox_inside_page page (_normalized_bbox (z_bbox rect)) 0.1) eqn:Hin;
      cbn [negb].
    + match goal with
      | |- context [extract_loop doc (?r, ?u, ?s) rest] =>
          destruct (IH r u s) as (r' & u' & s' & Heq & Hlen & Hem & Hsk)
      end.
      eexists (_ :: r'), (_ :: u'), s'. rewrite Heq, <- !List.app_assoc.
      split; [reflexivity|]. split; [cbn; lia|]. split; [|exact Hsk].
      cbn [combine]. constructor; [|exact Hem].
      exists page. cbn. repeat split; try reflexivity. exact Hpage.
    + match goal with
      | |- context [extract_loop doc (?r, ?u, ?s) rest] =>
          destruct (IH r u s) as (r' & u' & s' & Heq & Hlen & Hem & Hsk)
      end.
      eexists r', u', (_ :: s'). rewrite Heq, <- !List.app_assoc.
      split; [reflexivity|]. split; [exact Hlen|]. split; [exact Hem|].
      constructor; [|exact Hsk]. split; reflexivity.
Qed.

Lemma filter_split_length {A : Type} (f : A -> bool) (l : list A) :
  (length (List.filter f l) + length (List.filter (fun x => negb (f x)) l))%nat = length l.
Proof.
  induction l as [|x l IH]; cbn; [reflexivity|]. destruct (f x); cbn; lia.
Qed.

(** C8.  On a document with at least one page the extractor returns; every
    rectangle goes either to results and used-rectangles together or to the
    skipped list, in input order; the i-th result and the i-th used
    rectangle lie on the same clamped page, the result with the
    rotation-transformed bbox, the used rectangle with the normalized
    as-drawn one. *)
Theorem extract_zones_content_partition (doc : document) (rectangles : list zone) :
  doc <> [] ->
  exists results used skipped,
    extract_zones_content doc rectangles = Return (results, used, skipped)
    /\ length results = length used
    /\ (length results + length skipped)%nat = length rectangles
    /\ Forall2 (emitted_for doc) (List.filter (zone_inside doc) rectangles)
         (combine results used)
    /\ Forall2 (skipped_for doc)
         (List.filter (fun r => negb (zone_inside doc r)) rectangles) skipped
    /\ (forall i res u, results !! i = Some res -> used !! i = Some u ->
          z_page u = Some (zc_page res)).
Proof.
  intros Hne. unfold extract_zones_content.
  destruct (extract_loop_spec doc rectangles [] [] [] Hne)
    as (results & used & skipped & Heq & Hlen & Hem & Hsk).
  exists results, used, skipped. cbn [app] in Heq.
  split; [exact Heq|]. split; [exact Hlen|].
  assert (Hl1 : length (List.filter (zone_inside doc) rectangles) = length results).
  { apply Forall2_length in Hem. rewrite length_combine in Hem. lia. }
  split.
  { apply Forall2_length in Hsk. rewrite <- Hl1, <- Hsk. apply filter_split_length. }
  split; [exact Hem|]. split; [exact Hsk|].
  intros i res u Hres Hu.
  assert (Hc : combine results used !! i = Some (res, u)).
  { clear - Hlen Hres Hu. revert i used Hlen Hres Hu.
    induction results as [|r results IH]; intros i used Hlen Hres Hu; [discriminate|].
    destruct used as [|u0 used]; [discriminate|]. destruct i as [|i]; cbn in *.
    - congruence.
    - apply IH; auto. }
  destruct (Forall2_lookup_r _ _ _ _ _ Hem Hc) as (rect & _ & Hrect).
  destruct Hrect as (page & _ & Hp1 & Hp2 & _). now rewrite Hp1, Hp2.
Qed.

(** The theorem on the one-page document: one rectangle is extracted, the
    other skipped. *)
Lemma extract_zones_content_partition_witness :
  exists results used skipped,
    extract_zones_content blank_a4 [zone_in_page; zone_off_page]
    = Return (results, used, skipped)
    /\ length results = length used
    /\ (length results + length skipped)%nat = 2%nat.
Proof.
  assert (Hne : blank_a4 <> []) by discriminate.
  destruct (extract_zones_content_partition blank_a4 [zone_in_page; zone_off_page] Hne)
    as (results & used & skipped & H1 & H2 & H3 & _).
  exists results, used, skipped. auto.
Defined.

Lemma extract_blank_a4 :
  extract_zones_content blank_a4 [zone_in_page; zone_off_page]
  = Return
      ([{| zc_page := 0; zc_bbox := (50, 50, 150, 150)%float; zc_text := [];
           zc_image_hash := py "8000000000000000" |}],
       [{| z_page := Some 0; z_bbox := (50, 50, 150, 150)%float; z_paper := None;
           z_orientation := None; z_source_index := None; z_source_pdf := None |}],
       [{| sk_page := 0; sk_bbox := (500, 50, 700, 150)%float;
           sk_page_size := (595, 842)%float; sk_rotation := 0 |}]).
Proof. vm_compute. reflexivity. Qed.

(** ** The multi-source template save *)

(** The handler of step 2b runs with [e] unbound, whatever the loop did
    before: every step leaves [e] unbound. *)
Lemma save_group_step_e_unbound (w : pdf_world) (index_to_path : gmap Z pystr)
  (st st' : save_state) (g : Z * list zone_input) (log : list event) :
  ss_e st = None ->
  save_group_step w index_to_path st g = (log, Return st') -> ss_e st' = None.
Proof.
  intros He. unfold save_group_step. destruct g as [fidx rects].
  destruct (index_to_path !! fidx) as [[|c s]|]; try (intros [= _ <-]; exact He).
  destruct (w_exists w (c :: s)); cbn [negb]; [|intros [= _ <-]; exact He].
  unfold classify_source.
  destruct (w_classify_page_layout w (c :: s)) as [[paper orient]|ex]; cbn.
  - destruct (map normalize_input rects) as [|r rs]; [intros [= _ <-]; exact He|].
    destruct (extract_from_path w (c :: s) (r :: rs)) as [[[cnt used] skipped]|ex]; cbn.
    + destruct skipped; cbn; intros [= _ <-]; exact He.
    + intros [= _ <-]. reflexivity.
  - rewrite He. cbn. discriminate.
Qed.

Lemma classify_source_failure (w : pdf_world) (st : save_state) (src_pdf : pystr) (ex : exn) :
  w_classify_page_layout w src_pdf = Raise ex -> ss_e st = None ->
  classify_source w st src_pdf = ([], Raise (UnboundLocalError (py "e"))).
Proof.
  intros Hc He. unfold classify_source. rewrite Hc, He. reflexivity.
Qed.

Lemma save_group_step_failure (w : pdf_world) (index_to_path : gmap Z pystr)
  (st : save_state) (fidx : Z) (rects : list zone_input) (c : codepoint) (s : pystr)
  (ex : exn) :
  index_to_path !! fidx = Some (c :: s) ->
  w_exists w (c :: s) = true ->
  w_classify_page_layout w (c :: s) = Raise ex ->
  ss_e st = None ->
  save_group_step w index_to_path st (fidx, rects)
  = ([], Raise (UnboundLocalError (py "e"))).
Proof.
  intros Hp Hex Hc He. unfold save_group_step. rewrite Hp, Hex. cbn [negb].
  rewrite (classify_source_failure w st (c :: s) ex Hc He). reflexivity.
Qed.

(** When the source of the first group exists and its classification
    raises, the save ends in [UnboundLocalError] with nothing logged and
    nothing stored. *)
Lemma save_profile_multi_first_group (w : pdf_world) (template_id : pystr)
  (rectangles : list zone_input) (index_to_path : gmap Z pystr)
  (image_map : option (list (Z * pystr)))
  (fidx : Z) (rects : list zone_input) (rest : list (Z * list zone_input))
  (c : codepoint) (s : pystr) (ex : exn) :
  group_by (fun r => default 0 (zi_file_idx r)) rectangles = (fidx, rects) :: rest ->
  index_to_path !! fidx = Some (c :: s) ->
  w_exists w (c :: s) = true ->
  w_classify_page_layout w (c :: s) = Raise ex ->
  save_profile_multi w template_id rectangles index_to_path image_map
  = ([], Raise (UnboundLocalError (py "e"))).
Proof.
  intros Hg Hp Hex Hc. unfold save_profile_multi. rewrite Hg.
  cbn [for_each].
  rewrite (save_group_step_failure w index_to_path
             {| ss_used_rects := []; ss_contents := []; ss_skipped_total := O;
                ss_e := None |} fidx rects c s ex Hp Hex Hc eq_refl).
  reflexivity.
Qed.

(** C4 fails on the code.  The handler of the classification failure prints
    through a name [e] that its [except Exception:] clause never binds, so it
    raises [UnboundLocalError] itself: the save is aborted, nothing is
    logged and nothing stored.  With a classifier that answers, the same
    request saves the expected profile. *)
Theorem save_profile_multi_classification_failure :
  save_profile_multi unclassifiable_world (py "acme_v1") [one_rectangle]
    {[ 0 := upload_path ]} None
  = ([], Raise (UnboundLocalError (py "e")))
  /\ save_profile_multi classifiable_world (py "acme_v1") [one_rectangle]
       {[ 0 := upload_path ]} None
     = ([PrintSourceLayout upload_path (py "A4") (py "portrait");
         SaveProfile (py "acme_v1") expected_profile],
        Return expected_profile).
Proof.
  split.
  - eapply (save_profile_multi_first_group unclassifiable_world); reflexivity.
  - vm_compute. reflexivity.
Qed.

(** ** The entry gate of the legacy secondary pass *)

Lemma load_profile_log (store : template_store) (tm : TemplateManager) (tid : pystr) :
  exists o, load_profile store tm tid = ([LoadProfile (tm_device_id tm) tid], o).
Proof.
  unfold load_profile. destruct (store (tm_device_id tm) tid); cbn; eauto.
Qed.

Lemma resolve_template_log (db : unicode_db) (store : template_store)
  (tm : TemplateManager) (tid : pystr) :
  exists rest o,
    resolve_template db store tm tid = (LoadProfile (tm_device_id tm) tid :: rest, o).
Proof.
  unfold resolve_template. destruct (parse_template_id db tid) as [client ver].
  unfold load_profile at 1. destruct (store (tm_device_id tm) tid); cbn.
  - eauto.
  - destruct (try_except _ _) as [l' o']. eauto.
Qed.

Lemma mret_bind {A B : Type} (a : A) (f : A -> M B) : (mret a ≫= f) = f a.
Proof. unfold mbind, M_bind, mret, M_ret. now destruct (f a). Qed.

Lemma bind_log_cons {A B : Type} (m : M A) (f : A -> M B) (ev : event) (l : list event)
  (o : outcome A) :
  m = (ev :: l, o) -> exists rest o', (m ≫= f) = (ev :: rest, o').
Proof.
  intros ->. unfold mbind, M_bind. destruct o as [a|e]; [|eauto].
  destruct (f a) as [l' o']. eauto.
Qed.

Lemma resolve_and_process_log (db : unicode_db) (store : template_store)
  (listdir : pystr -> pystr -> option (list pystr))
  (per_pdf : profile -> pystr -> list low_conf_item -> M (list low_conf_item))
  (low_conf : list low_conf_item) (tid : pystr) (c : codepoint) (s : pystr) :
  exists rest o,
    resolve_and_process db store listdir per_pdf low_conf tid (Some (c :: s))
    = (LoadProfile (_sanitize (c :: s)) tid :: rest, o).
Proof.
  unfold resolve_and_process, new_TemplateManager. rewrite mret_bind.
  destruct (resolve_template_log db store
              {| tm_device_id := _sanitize (c :: s);
                 tm_listdir := listdir (_sanitize (c :: s)) |} tid) as (rest & o & Hr).
  eapply bind_log_cons. exact Hr.
Qed.

(** C5.  With no entry, and with one or two entries, the secondary pass
    returns the empty list after one print and resolves no template (no
    profile load is attempted).  With three or more entries it runs the
    rest of the function: it constructs the manager, resolves the template
    starting with the requested id, loads it and processes the PDFs. *)
Theorem process_low_conf_batch_gate (db : unicode_db) (store : template_store)
  (listdir : pystr -> pystr -> option (list pystr))
  (per_pdf : profile -> pystr -> list low_conf_item -> M (list low_conf_item))
  (low_conf : list low_conf_item) (new_template_id : pystr) (device_id : option pystr) :
  let run := process_low_conf_batch db store listdir per_pdf low_conf new_template_id
               device_id in
  (low_conf = [] -> run = ([PrintNothingToDo], Return []))
  /\ ((0 < length low_conf < 3)%nat -> run = ([PrintLimited (length low_conf)], Return []))
  /\ ((length low_conf < 3)%nat -> snd run = Return [] /\ existsb is_load (fst run) = false)
  /\ ((3 <= length low_conf)%nat ->
        run = resolve_and_process db store listdir per_pdf low_conf new_template_id
                device_id)
  /\ ((3 <= length low_conf)%nat ->
        forall c s, device_id = Some (c :: s) ->
        exists rest, fst run = LoadProfile (_sanitize (c :: s)) new_template_id :: rest).
Proof.
  intros run. subst run. unfold process_low_conf_batch.
  assert (Hsmall : (0 < length low_conf < 3)%nat ->
            (length low_conf <? 3)%nat = true) by (intros ?; apply Nat.ltb_lt; lia).
  assert (Hbig : (3 <= length low_conf)%nat -> (length low_conf <? 3)%nat = false)
    by (intros ?; apply Nat.ltb_ge; lia).
  split; [intros ->; reflexivity|].
  split.
  { intros H. destruct low_conf as [|i l]; [cbn in H; lia|]. now rewrite (Hsmall H). }
  split.
  { intros H. destruct low_conf as [|i l]; [split; reflexivity|].
    rewrite Hsmall by (cbn in *; lia). split; reflexivity. }
  split.
  { intros H. destruct low_conf as [|i l]; [cbn in H; lia|]. now rewrite (Hbig H). }
  intros H c s ->. destruct low_conf as [|i l]; [cbn in H; lia|]. rewrite (Hbig H).
  destruct (resolve_and_process_log db store listdir per_pdf (i :: l) new_template_id c s)
    as (rest & o & Hr).
  exists rest. rewrite Hr. reflexivity.
Qed.

(** The theorem at two entries and at three. *)
Lemma process_low_conf_batch_gate_witness :
  process_low_conf_batch ascii_db acme_store (fun _ _ => None) quiet_per_pdf
    [drawing_report; drawing_report] (py "acme_v2") (Some (py "dev1"))
  = ([PrintLimited 2], Return [])
  /\ process_low_conf_batch ascii_db acme_store (fun _ _ => None) quiet_per_pdf
       [drawing_report; drawing_report; drawing_report] (py "acme_v2") (Some (py "dev1"))
     = resolve_and_process ascii_db acme_store (fun _ _ => None) quiet_per_pdf
         [drawing_report; drawing_report; drawing_report] (py "acme_v2") (Some (py "dev1")).
Proof.
  split.
  - apply (process_low_conf_batch_gate ascii_db acme_store (fun _ _ => None) quiet_per_pdf
             [drawing_report; drawing_report] (py "acme_v2") (Some (py "dev1"))).
    cbn. lia.
  - apply (process_low_conf_batch_gate ascii_db acme_store (fun _ _ => None) quiet_per_pdf
             [drawing_report; drawing_report; drawing_report] (py "acme_v2")
             (Some (py "dev1"))).
    cbn. lia.
Defined.

Lemma process_three_entries :
  process_low_conf_batch ascii_db acme_store (fun _ _ => None) quiet_per_pdf
    [drawing_report; drawing_report; drawing_report] (py "acme_v2") (Some (py "dev1"))
  = ([LoadProfile (py "dev1") (py "acme_v2"); LoadProfile (py "dev1") (py "acme_v2")],
     Return []).
Proof. vm_compute. reflexivity. Qed.

(** ** More on bounding boxes and extraction *)

Lemma ltb_irrefl (a : float) : (a <? a)%float = false.
Proof.
  destruct (a <? a)%float eqn:E; [|reflexivity].
  pose proof (ltb_asym a a E). congruence.
Qed.

Lemma fmin_fmax_idem (a b : float) :
  fmin (fmin a b) (fmax a b) = fmin a b /\ fmax (fmin a b) (fmax a b) = fmax a b.
Proof.
  unfold fmin, fmax.
  destruct (b <? a)%float eqn:Eba.
  - rewrite (ltb_asym b a Eba), Eba. rewrite (ltb_asym b a Eba). split; reflexivity.
  - destruct (a <? b)%float eqn:Eab.
    + rewrite Eba, Eab. split; reflexivity.
    + rewrite !ltb_irrefl. split; reflexivity.
Qed.

Lemma fmax_not_below_fmin (a b : float) : (fmax a b <? fmin a b)%float = false.
Proof.
  unfold fmin, fmax.
  destruct (b <? a)%float eqn:Eba.
  - rewrite (ltb_asym b a Eba). now apply ltb_asym.
  - destruct (a <? b)%float eqn:Eab; [exact Eba|apply ltb_irrefl].
Qed.

Lemma fmin_le_fmax (a b : float) :
  is_nan a = false -> is_nan b = false -> (fmin a b <=? fmax a b)%float = true.
Proof.
  intros Ha Hb. apply not_ltb_leb; [| |apply fmax_not_below_fmin];
    unfold fmin, fmax; [destruct (b <? a)%float|destruct (a <? b)%float]; assumption.
Qed.

Lemma _normalized_bbox_idem (b : bbox) :
  _normalized_bbox (_normalized_bbox b) = _normalized_bbox b.
Proof.
  destruct b as [[[x0 y0] x1] y1]. unfold _normalized_bbox.
  destruct (fmin_fmax_idem x0 x1) as [-> ->].
  destruct (fmin_fmax_idem y0 y1) as [-> ->]. reflexivity.
Qed.

(** X1.  [_normalized_bbox] is idempotent and never returns an inverted
    box; on coordinates that are numbers its result has x0 <= x1 and
    y0 <= y1, and it keeps a NaN only where it was given one. *)
Theorem _normalized_bbox_normal (b : bbox) :
  _normalized_bbox (_normalized_bbox b) = _normalized_bbox b
  /\ bbox_not_inverted (_normalized_bbox b) = true
  /\ (bbox_has_nan b = false ->
        bbox_has_nan (_normalized_bbox b) = false
        /\ bbox_ordered (_normalized_bbox b) = true).
Proof.
  split; [apply _normalized_bbox_idem|].
  destruct b as [[[x0 y0] x1] y1]. unfold _normalized_bbox, bbox_not_inverted.
  split; [now rewrite !fmax_not_below_fmin|].
  unfold bbox_has_nan, bbox_ordered. intros H.
  apply orb_false_elim in H as [H Hy1]. apply orb_false_elim in H as [H Hx1].
  apply orb_false_elim in H as [Hx0 Hy0].
  split.
  - unfold fmin, fmax.
    destruct (x1 <? x0)%float, (y1 <? y0)%float, (x0 <? x1)%float, (y0 <? y1)%float;
      rewrite ?Hx0, ?Hx1, ?Hy0, ?Hy1; reflexivity.
  - rewrite !fmin_le_fmax by assumption. reflexivity.
Qed.

Lemma _normalized_bbox_normal_witness :
  bbox_ordered (_normalized_bbox (150, 150, 50, 50)%float) = true.
Proof.
  apply (_normalized_bbox_normal (150, 150, 50, 50)%float). reflexivity.
Defined.







(** ** More on the multi-source template save *)

Lemma extract_loop_lengths (doc : document) (rectangles : list zone)
  (results results' : list zone_content) (used used' : list zone)
  (skipped skipped' : list skip_entry) :
  extract_loop doc (results, used, skipped) rectangles = Return (results', used', skipped') ->
  length results = length used -> length results' = length used'.
Proof.
  revert results used skipped.
  induction rectangles as [|rect rest IH]; intros results used skipped; cbn [extract_loop].
  - intros [= <- <- <-]. auto.
  - unfold extract_step.
    destruct (get_page doc (clamp_page doc (z_page rect))) as [page|e]; [|discriminate].
    destruct (negb _); intros Heq Hlen; eapply IH; try exact Heq; try assumption.
    rewrite !length_app. cbn. lia.
Qed.

Lemma extract_from_path_lengths (w : pdf_world) (src : pystr) (rects : list zone)
  (cnt : list zone_content) (used : list zone) (skipped : list skip_entry) :
  extract_from_path w src rects = Return (cnt, used, skipped) -> length cnt = length used.
Proof.
  unfold extract_from_path, extract_zones_content.
  destruct (w_open w src) as [doc|e]; [|discriminate].
  intros H. now apply (extract_loop_lengths doc rects [] cnt [] used [] skipped H).
Qed.

Lemma save_group_step_spec (w : pdf_world) (index_to_path : gmap Z pystr)
  (st : save_state) (g : Z * list zone_input) :
  save_invariant st ->
  match save_group_step w index_to_path st g with
  | (log, Return st') =>
      save_invariant st' /\ List.filter is_save log = []
      /\ (ss_contents st <> [] -> ss_contents st' <> [])
  | (log, Raise e) => e = UnboundLocalError (py "e") /\ List.filter is_save log = []
  end.
Proof.
  intros (Hlen & Htag & He). unfold save_group_step. destruct g as [fidx rects].
  destruct (index_to_path !! fidx) as [[|c s]|];
    try (cbn; repeat split; auto; fail).
  destruct (w_exists w (c :: s)); cbn [negb];
    [|cbn; repeat split; auto].
  unfold classify_source.
  destruct (w_classify_page_layout w (c :: s)) as [[paper orient]|ex]; cbn.
  - destruct (map normalize_input rects) as [|r rs]; [cbn; repeat split; auto|].
    destruct (extract_from_path w (c :: s) (r :: rs)) as [[[cnt used] skipped]|ex] eqn:Hex;
      cbn.
    + apply extract_from_path_lengths in Hex.
      assert (Hinv : save_invariant
                {| ss_used_rects := ss_used_rects st ++ map (tag_source fidx (c :: s)) used;
                   ss_contents := ss_contents st ++ cnt;
                   ss_skipped_total := (ss_skipped_total st + length skipped)%nat;
                   ss_e := ss_e st |}).
      { repeat split; cbn.
        - rewrite !length_app, length_map. lia.
        - apply Forall_app. split; [exact Htag|]. apply Forall_map, Forall_true.
          intros u. exists fidx, (basename (c :: s)). split; reflexivity.
        - exact He. }
      assert (Hne : ss_contents st <> [] -> ss_contents st ++ cnt <> []).
      { destruct (ss_contents st); [congruence|discriminate]. }
      destruct skipped; cbn; repeat split; auto; apply Hinv.
    + repeat split; auto.
  - rewrite He. cbn. split; reflexivity.
Qed.

Lemma for_each_save_spec (w : pdf_world) (index_to_path : gmap Z pystr)
  (groups : list (Z * list zone_input)) (st : save_state) :
  save_invariant st ->
  match for_each (save_group_step w index_to_path) groups st with
  | (log, Return st') => save_invariant st' /\ List.filter is_save log = []
  | (log, Raise e) => e = UnboundLocalError (py "e") /\ List.filter is_save log = []
  end.
Proof.
  revert st. induction groups as [|g groups IH]; intros st Hinv; cbn [for_each].
  - cbn. auto.
  - pose proof (save_group_step_spec w index_to_path st g Hinv) as Hstep.
    unfold mbind, M_bind.
    destruct (save_group_step w index_to_path st g) as [l1 [st1|e1]].
    + destruct Hstep as (Hinv1 & Hl1 & _). specialize (IH st1 Hinv1).
      destruct (for_each (save_group_step w index_to_path) groups st1) as [l2 [st2|e2]];
        rewrite List.filter_app, Hl1; exact IH.
    + exact Hstep.
Qed.

Lemma save_profile_multi_cases (w : pdf_world) (template_id : pystr)
  (rectangles : list zone_input) (index_to_path : gmap Z pystr)
  (image_map : option (list (Z * pystr))) :
  match save_profile_multi w template_id rectangles index_to_path image_map with
  | (log, Return p) =>
      length (pf_rectangles p) = length (pf_contents p)
      /\ pf_contents p <> []
      /\ Forall source_tagged (pf_rectangles p)
      /\ pf_image_map p = default [] image_map
      /\ List.filter is_save log = [SaveProfile template_id p]
  | (log, Raise e) => save_error e /\ List.filter is_save log = []
  end.
Proof.
  unfold save_profile_multi.
  destruct (group_by _ rectangles) as [|g groups] eqn:Hg.
  { cbn. split; [left; reflexivity|reflexivity]. }
  assert (Hinit : save_invariant {| ss_used_rects := []; ss_contents := [];
                                    ss_skipped_total := 0; ss_e := None |}).
  { repeat split; constructor. }
  pose proof (for_each_save_spec w index_to_path (g :: groups) _ Hinit) as H.
  unfold mbind at 1, M_bind at 1.
  destruct (for_each (save_group_step w index_to_path) (g :: groups) _) as [l [st|e]].
  - destruct H as ((Hlen & Htag & _) & Hl).
    destruct (ss_contents st) as [|c0 cs] eqn:Hc.
    + cbn. rewrite List.app_nil_r. split; [right; left; reflexivity|exact Hl].
    + destruct (ss_skipped_total st); cbn; rewrite List.filter_app, Hl; cbn;
        repeat split; auto; discriminate.
  - destruct H as [-> Hl]. split; [right; right; reflexivity|exact Hl].
Qed.

(** X3.  When [save_profile_multi] returns, the profile it stored has as
    many rectangles as contents (the parallel arrays a template index
    addresses), at least one of them, every rectangle tagged with its source
    index and source file name, the image map as given (empty when absent),
    and it was stored exactly once, under the template id. *)
Theorem save_profile_multi_stored (w : pdf_world) (template_id : pystr)
  (rectangles : list zone_input) (index_to_path : gmap Z pystr)
  (image_map : option (list (Z * pystr))) (log : list event) (p : profile) :
  save_profile_multi w template_id rectangles index_to_path image_map = (log, Return p) ->
  length (pf_rectangles p) = length (pf_contents p)
  /\ pf_contents p <> []
  /\ Forall source_tagged (pf_rectangles p)
  /\ pf_image_map p = default [] image_map
  /\ List.filter is_save log = [SaveProfile template_id p].
Proof.
  intros H. pose proof (save_profile_multi_cases w template_id rectangles index_to_path
                          image_map) as Hc.
  rewrite H in Hc. exact Hc.
Qed.

Lemma save_profile_multi_stored_witness :
  length (pf_rectangles expected_profile) = length (pf_contents expected_profile).
Proof.
  eapply (save_profile_multi_stored classifiable_world (py "acme_v1") [one_rectangle]
            {[ 0 := upload_path ]} None).
  vm_compute. reflexivity.
Defined.



(** ** Soundness of the template id parser *)

Lemma take_while_prefix (p : codepoint -> bool) (s : pystr) :
  s = take_while p s ++ skipn (length (take_while p s)) s.
Proof.
  induction s as [|c s IH]; cbn; [reflexivity|].
  destruct (p c); cbn; [now rewrite <- IH|reflexivity].
Qed.

Lemma match_version_suffix_shape (db : unicode_db) (rest ds : pystr) :
  match_version_suffix db rest = Some ds ->
  ds <> [] /\ Forall (fun c => is_digit db c = true) ds
  /\ (rest = py "_v" ++ ds \/ rest = py "_v" ++ ds ++ [NEWLINE]).
Proof.
  intros H. pose proof (match_version_suffix_digits_only db rest ds H) as Hd.
  revert H. unfold match_version_suffix.
  destruct rest as [|a [|b tl]]; try discriminate.
  - destruct a as [|p]; [discriminate|].
    do 7 (try (destruct p as [p|p|]; try discriminate)).
  - destruct a as [|p]; [discriminate|].
    do 7 (try (destruct p as [p|p|]; try discriminate)).
    destruct b as [|q]; [discriminate|].
    do 7 (try (destruct q as [q|q|]; try discriminate)).
    pose proof (take_while_prefix (is_digit db) tl) as Hpre.
    destruct (take_while (is_digit db) tl) as [|d ds'] eqn:E; [discriminate|].
    destruct (bool_decide _) eqn:Hb; [|discriminate].
    apply bool_decide_eq_true in Hb. intros [= <-].
    split; [discriminate|]. split; [exact Hd|].
    change (py "_v") with [95%N; 118%N]. cbn [app].
    destruct Hb as [Hb|Hb]; rewrite Hb in Hpre; clear Hb E Hd; subst tl.
    + left. now rewrite List.app_nil_r.
    + right. reflexivity.
Qed.

Lemma match_id_from_shape (db : unicode_db) (k : nat) (s client ds : pystr) :
  match_id_from db k s = Some (client, ds) ->
  exists j, (0 < j <= k)%nat /\ client = firstn j s
            /\ match_version_suffix db (skipn j s) = Some ds.
Proof.
  induction k as [|k IH]; cbn [match_id_from]; [discriminate|].
  destruct (match_version_suffix db (skipn (S k) s)) as [ds'|] eqn:E.
  - intros [= <- <-]. exists (S k). repeat split; auto; lia.
  - intros H. destruct (IH H) as (j & Hj & Hc & Hm). exists j. repeat split; auto; lia.
Qed.

Lemma _ID_RE_match_shape (db : unicode_db) (s client ds : pystr) :
  _ID_RE_match db s = Some (client, ds) ->
  client <> [] /\ Forall (fun c => is_client_char c = true) client
  /\ ds <> [] /\ Forall (fun c => is_digit db c = true) ds
  /\ (s = client ++ py "_v" ++ ds \/ s = client ++ py "_v" ++ ds ++ [NEWLINE]).
Proof.
  unfold _ID_RE_match. intros H.
  apply match_id_from_shape in H as (j & [Hj0 Hj] & -> & Hm).
  apply match_version_suffix_shape in Hm as (Hne & Hds & Hrest).
  pose proof (take_while_prefix is_client_char s) as Hpre.
  pose proof (take_while_Forall is_client_char s) as Hall.
  assert (Hlen : (j <= length s)%nat).
  { rewrite Hpre at 1. rewrite length_app. lia. }
  split.
  { intros E. apply (f_equal length) in E. rewrite length_take in E. cbn in E. lia. }
  split.
  { rewrite Hpre. rewrite take_app_le by exact Hj. now apply Forall_take. }
  split; [exact Hne|]. split; [exact Hds|].
  rewrite <- (take_drop j s) at 1 3.
  destruct Hrest as [-> | ->]; [left|right]; reflexivity.
Qed.

(** X5.  What [parse_template_id] reads out of an id: either no version,
    and then the id itself is returned as the client (a legacy flat id), or
    a version [n >= 0] with a non-empty client over [[A-Za-z0-9_-]], and then
    the id is the client, "_v" and a non-empty run of digits whose value is
    [n], optionally followed by one final newline. *)
Theorem parse_template_id_sound (db : unicode_db) (template_id client : pystr)
  (ver : option Z) :
  parse_template_id db template_id = (client, ver) ->
  match ver with
  | None => client = template_id
  | Some n =>
      client <> []
      /\ Forall (fun c => is_client_char c = true) client
      /\ 0 <= n
      /\ exists ds, ds <> []
           /\ Forall (fun c => is_digit db c = true) ds
           /\ n = int_of_digits db ds
           /\ (template_id = client ++ py "_v" ++ ds
               \/ template_id = client ++ py "_v" ++ ds ++ [NEWLINE])
  end.
Proof.
  unfold parse_template_id.
  destruct (_ID_RE_match db template_id) as [[c ds]|] eqn:E.
  - intros [= <- <-]. apply _ID_RE_match_shape in E as (Hc & Hall & Hne & Hds & Hs).
    split; [exact Hc|]. split; [exact Hall|].
    split; [now apply int_of_digits_nonneg|]. exists ds. auto.
  - intros [= <- <-]. reflexivity.
Qed.

Lemma parse_template_id_sound_witness :
  py "acme" <> []
  /\ Forall (fun c => is_client_char c = true) (py "acme")
  /\ 0 <= 12
  /\ exists ds, ds <> []
       /\ Forall (fun c => is_digit ascii_db c = true) ds
       /\ 12 = int_of_digits ascii_db ds
       /\ (py "acme_v012" ++ [NEWLINE] = py "acme" ++ py "_v" ++ ds
           \/ py "acme_v012" ++ [NEWLINE] = py "acme" ++ py "_v" ++ ds ++ [NEWLINE]).
Proof.
  apply (parse_template_id_sound ascii_db (py "acme_v012" ++ [NEWLINE]) (py "acme") (Some 12)).
  vm_compute. reflexivity.
Defined.

Lemma _sanitize_Forall (value : pystr) :
  Forall (fun c => is_client_char c = true) (_sanitize value).
Proof. apply Forall_filter_bool. Qed.

Lemma filter_all_true {A : Type} (f : A -> bool) (l : list A) :
  Forall (fun x => f x = true) l -> List.filter f l = l.
Proof.
  induction 1 as [|x l Hx _ IH]; cbn; [reflexivity|]. now rewrite Hx, IH.
Qed.

Lemma filter_all_false {A : Type} (f : A -> bool) (l : list A) :
  Forall (fun x => f x = false) l -> List.filter f l = [].
Proof.
  induction 1 as [|x l Hx _ IH]; cbn; [reflexivity|]. now rewrite Hx.
Qed.

(** X6.  [_sanitize] keeps exactly the characters of [[A-Za-z0-9_-]], in
    order: its result holds no other character (so no '/', '\' or '.'),
    sanitizing twice changes nothing, and a value over that alphabet is
    returned unchanged.  [TemplateManager(device_id)] raises on a missing or
    empty device id and otherwise stores the sanitized id, which is empty
    when the given id has no character of the alphabet. *)
Theorem _sanitize_safe (value : pystr)
  (listdir : pystr -> pystr -> option (list pystr)) :
  Forall (fun c => is_client_char c = true) (_sanitize value)
  /\ ~ In SLASH (_sanitize value)
  /\ ~ In BACKSLASH (_sanitize value)
  /\ ~ In DOT (_sanitize value)
  /\ _sanitize (_sanitize value) = _sanitize value
  /\ (Forall (fun c => is_client_char c = true) value -> _sanitize value = value)
  /\ new_TemplateManager None listdir = raise (ValueError (py "device_id is required"))
  /\ new_TemplateManager (Some []) listdir = raise (ValueError (py "device_id is required"))
  /\ (value <> [] ->
        exists tm, new_TemplateManager (Some value) listdir = mret tm
                   /\ tm_device_id tm = _sanitize value
                   /\ (Forall (fun c => is_client_char c = false) value ->
                         tm_device_id tm = [])).
Proof.
  pose proof (_sanitize_Forall value) as Hall.
  assert (Hnot : forall c, is_client_char c = false -> ~ In c (_sanitize value)).
  { intros c Hc Hin. rewrite List.Forall_forall in Hall. specialize (Hall c Hin). congruence. }
  split; [exact Hall|].
  split; [apply Hnot; reflexivity|]. split; [apply Hnot; reflexivity|].
  split; [apply Hnot; reflexivity|].
  split; [apply filter_all_true; exact Hall|].
  split; [apply filter_all_true|].
  split; [reflexivity|]. split; [reflexivity|].
  intros Hne. destruct value as [|c s]; [congruence|].
  eexists. split; [reflexivity|]. split; [reflexivity|].
  cbn [tm_device_id]. apply filter_all_false.
Qed.

Lemma _sanitize_safe_witness :
  exists tm, new_TemplateManager (Some (py "../dev 1")) (fun _ _ => None) = mret tm
             /\ tm_device_id tm = py "dev1".
Proof.
  assert (Hne : py "../dev 1" <> []) by discriminate.
  destruct (_sanitize_safe (py "../dev 1") (fun _ _ => None))
    as (_ & _ & _ & _ & _ & _ & _ & _ & H).
  destruct (H Hne) as (tm & Htm & Hid & _).
  exists tm. split; [exact Htm|]. rewrite Hid. reflexivity.
Defined.

(** ** Version allocation *)

Lemma last_sorted_max (l : list Z) (d : Z) :
  StronglySorted Z.le l -> Forall (fun v => v <= List.last l d) l.
Proof.
  induction 1 as [|x l Hs IH Hx]; [constructor|].
  destruct l as [|y l]; [repeat constructor; cbn; lia|].
  change (List.last (x :: y :: l) d) with (List.last (y :: l) d).
  constructor; [|exact IH].
  inversion IH as [|? ? Hy _]; subst. inversion Hx as [|? ? Hxy _]; subst. lia.
Qed.

Lemma last_In (l : list Z) (d : Z) : l <> [] -> In (List.last l d) l.
Proof.
  induction l as [|x l IH]; [congruence|]. intros _.
  destruct l as [|y l]; [now left|]. right. apply IH. discriminate.
Qed.

Lemma list_versions_sorted (db : unicode_db) (tm : TemplateManager) (client : pystr) :
  StronglySorted Z.le (list_versions db tm client).
Proof.
  unfold list_versions. destruct (tm_listdir tm (_sanitize client)); [|constructor].
  apply StronglySorted_merge_sort; apply _.
Qed.

Lemma list_versions_le_latest (db : unicode_db) (tm : TemplateManager) (client : pystr)
  (v : Z) :
  In v (list_versions db tm client) -> 0 <= v <= latest_version_number db tm client.
Proof.
  intros Hin. split.
  - pose proof (list_versions_nonneg db tm client) as H.
    rewrite List.Forall_forall in H. now apply H.
  - pose proof (last_sorted_max _ 0 (list_versions_sorted db tm client)) as H.
    rewrite List.Forall_forall in H. now apply H.
Qed.

(** X7.  Version allocation.  [list_versions] is ascending and holds no
    negative number; [latest_version_number] is the largest listed version
    (0 when none is listed) and bounds every listed one, so the number of
    [next_version_id] is above every version on disk; [latest_version_id] is
    absent exactly when the latest number is 0; a client without directory
    has no version, no latest id and "<client>_v1" as next id. *)
Theorem version_allocation (db : unicode_db) (tm : TemplateManager) (client : pystr) :
  let latest := latest_version_number db tm client in
  StronglySorted Z.le (list_versions db tm client)
  /\ (forall v, In v (list_versions db tm client) -> 0 <= v <= latest)
  /\ (list_versions db tm client = [] /\ latest = 0
      \/ In latest (list_versions db tm client))
  /\ ~ In (latest + 1) (list_versions db tm client)
  /\ next_version_id db tm client = version_id client (latest + 1)
  /\ (latest_version_id db tm client = None <-> latest = 0)
  /\ (0 < latest -> latest_version_id db tm client = Some (version_id client latest))
  /\ (tm_listdir tm (_sanitize client) = None ->
        list_versions db tm client = [] /\ latest = 0
        /\ latest_version_id db tm client = None
        /\ next_version_id db tm client = client ++ py "_v1").
Proof.
  intros latest.
  assert (Hnn : 0 <= latest) by apply latest_version_number_nonneg.
  split; [apply list_versions_sorted|].
  split; [intros v; apply list_versions_le_latest|].
  split.
  { subst latest. unfold latest_version_number.
    destruct (list_versions db tm client) as [|x l] eqn:E; [left; auto|].
    right. apply last_In. discriminate. }
  split.
  { intros Hin. apply list_versions_le_latest in Hin. subst latest. lia. }
  split; [reflexivity|].
  split.
  { unfold latest_version_id. fold latest. destruct (0 <? latest) eqn:E.
    - apply Z.ltb_lt in E. split; [discriminate|lia].
    - apply Z.ltb_ge in E. split; [lia|reflexivity]. }
  split.
  { intros H. unfold latest_version_id. fold latest.
    apply Z.ltb_lt in H. now rewrite H. }
  intros Hdir.
  assert (Hl : list_versions db tm client = []) by (unfold list_versions; now rewrite Hdir).
  assert (H0 : latest = 0) by (subst latest; unfold latest_version_number; now rewrite Hl).
  split; [exact Hl|]. split; [exact H0|].
  split.
  { unfold latest_version_id. fold latest. now rewrite H0. }
  unfold next_version_id. fold latest. rewrite H0. reflexivity.
Qed.

Lemma version_allocation_witness :
  latest_version_id ascii_db acme_manager (py "acme") = Some (version_id (py "acme") 2).
Proof.
  destruct (version_allocation ascii_db acme_manager (py "acme")) as (_ & _ & _ & _ & _ & _ & H & _).
  rewrite H; [|vm_compute; reflexivity].
  vm_compute. reflexivity.
Defined.

(** The versions listed once [fn] has been added to the directory. *)
Lemma ends_with_app (s suffix : pystr) : ends_with suffix (s ++ suffix) = true.
Proof.
  unfold ends_with. apply bool_decide_eq_true. rewrite length_app. split; [|lia].
  replace (length s + length suffix - length suffix)%nat with (length s) by lia.
  apply drop_app_length.
Qed.

Lemma starts_with_app (prefix s : pystr) : starts_with prefix (prefix ++ s) = true.
Proof. unfold starts_with. apply bool_decide_eq_true, take_app_length. Qed.

Lemma version_file_parses (db : unicode_db) (client : pystr) (n : Z) :
  client <> [] -> forallb is_client_char client = true -> 0 <= n ->
  let fn := version_id client n ++ py ".json" in
  (if ends_with (py ".json") fn && starts_with (client ++ py "_v") fn
   then match _ID_RE_match db (firstn (length fn - 5) fn) with
        | Some (_, ver) => Some (int_of_digits db ver)
        | None => None
        end
   else None) = Some n.
Proof.
  intros Hc Hall Hn fn. subst fn. rewrite ends_with_app.
  assert (Hs : starts_with (client ++ py "_v") (version_id client n ++ py ".json") = true).
  { unfold version_id.
    replace ((client ++ py "_v" ++ str_of_int n) ++ py ".json")
      with ((client ++ py "_v") ++ str_of_int n ++ py ".json")
      by now rewrite <- !List.app_assoc.
    apply starts_with_app. }
  rewrite Hs. cbn [andb].
  rewrite length_app. change (length (py ".json")) with 5%nat.
  replace (length (version_id client n) + 5 - 5)%nat with (length (version_id client n)) by lia.
  rewrite take_app_length.
  pose proof (parse_version_id db client n Hc Hall Hn) as Hp.
  unfold parse_template_id in Hp.
  destruct (_ID_RE_match db (version_id client n)) as [[c ds]|]; [|discriminate].
  now injection Hp as _ ->.
Qed.

Lemma last_with_new_max (l l' : list Z) (m : Z) :
  StronglySorted Z.le l' -> Permutation l' (l ++ [m]) -> Forall (fun v => v <= m) l ->
  List.last l' 0 = m.
Proof.
  intros Hs Hp Hall.
  assert (Hne : l' <> []).
  { intros ->. apply Permutation_nil in Hp. now destruct l. }
  pose proof (last_In l' 0 Hne) as Hin.
  pose proof (last_sorted_max l' 0 Hs) as Hmax.
  rewrite List.Forall_forall in Hmax, Hall.
  assert (Hm : m <= List.last l' 0).
  { apply Hmax. eapply Permutation_in; [symmetry; exact Hp|].
    apply List.in_app_iff. right. now left. }
  eapply Permutation_in in Hin; [|exact Hp].
  apply List.in_app_iff in Hin as [Hin|[Hin|[]]]; [|congruence].
  specialize (Hall _ Hin). lia.
Qed.

(** An entry in another directory, or one that [list_versions] does not
    count, leaves the versions of a client as they are. *)
Lemma list_versions_add_entry_other (db : unicode_db) (tm : TemplateManager)
  (dir fn client : pystr) :
  _sanitize client <> dir ->
  tm_listdir (add_entry tm dir fn) (_sanitize client) = tm_listdir tm (_sanitize client)
  /\ list_versions db (add_entry tm dir fn) client = list_versions db tm client.
Proof.
  intros Hne.
  assert (H : tm_listdir (add_entry tm dir fn) (_sanitize client)
              = tm_listdir tm (_sanitize client)).
  { unfold add_entry. cbn [tm_listdir]. now rewrite bool_decide_eq_false_2. }
  split; [exact H|]. unfold list_versions. now rewrite H.
Qed.

Lemma list_versions_add_entry_uncounted (db : unicode_db) (tm : TemplateManager)
  (dir fn client : pystr) :
  (if ends_with (py ".json") fn && starts_with (client ++ py "_v") fn
   then match _ID_RE_match db (firstn (length fn - 5) fn) with
        | Some (_, ver) => Some (int_of_digits db ver)
        | None => None
        end
   else None) = None ->
  list_versions db (add_entry tm dir fn) client = list_versions db tm client.
Proof.
  intros Hf.
  destruct (decide (_sanitize client = dir)) as [<-|Hne];
    [|now apply list_versions_add_entry_other].
  unfold list_versions, add_entry. cbn [tm_listdir].
  rewrite bool_decide_eq_true_2 by reflexivity.
  set (f := fun fn : pystr => if ends_with (py ".json") fn && starts_with (client ++ py "_v") fn
                      then match _ID_RE_match db (firstn (length fn - 5) fn) with
                           | Some (_, ver) => Some (int_of_digits db ver)
                           | None => None
                           end
                      else None).
  change (f fn = None) in Hf.
  assert (Hadd : forall files, omap f (files ++ [fn]) = omap f files).
  { intros files. rewrite omap_app.
    change (omap f [fn]) with (match f fn with Some y => [y] | None => [] end).
    rewrite Hf. apply List.app_nil_r. }
  clearbody f.
  destruct (tm_listdir tm (_sanitize client)) as [files|]; cbn [default]; unfold id.
  - destruct (bool_decide (fn ∈ files)); [reflexivity|]. now rewrite Hadd.
  - rewrite bool_decide_eq_false_2 by apply not_elem_of_nil.
    now rewrite (Hadd []).
Qed.

Lemma latest_after_add_entry (db : unicode_db) (tm : TemplateManager) (client : pystr) :
  client <> [] -> forallb is_client_char client = true ->
  latest_version_number db
    (add_entry tm (_sanitize client)
       (version_id client (latest_version_number db tm client + 1) ++ py ".json")) client
  = latest_version_number db tm client + 1.
Proof.
  intros Hc Hall.
  set (n := latest_version_number db tm client).
  assert (Hn : 0 <= n) by apply latest_version_number_nonneg.
  unfold latest_version_number at 1, list_versions at 1, add_entry. cbn [tm_listdir].
  rewrite bool_decide_eq_true_2 by reflexivity.
  set (f := fun fn : pystr => if ends_with (py ".json") fn && starts_with (client ++ py "_v") fn
                      then match _ID_RE_match db (firstn (length fn - 5) fn) with
                           | Some (_, ver) => Some (int_of_digits db ver)
                           | None => None
                           end
                      else None).
  set (files := default [] (tm_listdir tm (_sanitize client))).
  assert (Hvs : Permutation (list_versions db tm client) (omap f files)).
  { unfold list_versions. subst files.
    destruct (tm_listdir tm (_sanitize client)); [apply merge_sort_Permutation|reflexivity]. }
  assert (Hf : f (version_id client (n + 1) ++ py ".json") = Some (n + 1)).
  { subst f. apply (version_file_parses db client (n + 1) Hc Hall). lia. }
  clearbody f.
  destruct (bool_decide _) eqn:Hin.
  - apply bool_decide_eq_true in Hin. exfalso.
    assert (Hv : In (n + 1) (list_versions db tm client)).
    { eapply Permutation_in; [symmetry; exact Hvs|].
      apply list_elem_of_In, list_elem_of_omap. eauto. }
    apply list_versions_le_latest in Hv. fold n in Hv. lia.
  - apply (last_with_new_max (omap f files)).
    + apply StronglySorted_merge_sort; apply _.
    + rewrite merge_sort_Permutation, omap_app.
      change (omap f [version_id client (n + 1) ++ py ".json"])
        with (match f (version_id client (n + 1) ++ py ".json") with
              | Some y => [y] | None => [] end).
      rewrite Hf. reflexivity.
    + apply List.Forall_forall. intros v Hv.
      eapply Permutation_in in Hv; [|symmetry; exact Hvs].
      apply list_versions_le_latest in Hv. fold n in Hv. lia.
Qed.

(** X8.  Saving under the allocated id makes it the latest: for a
    non-empty client over [[A-Za-z0-9_-]], once the profile file of
    [next_version_id] is in the client's directory, the latest version
    number has grown by one, [latest_version_id] is that id, and the next
    allocation is one further. *)
Theorem save_then_latest (db : unicode_db) (tm : TemplateManager) (client : pystr) :
  client <> [] -> forallb is_client_char client = true ->
  let template_id := next_version_id db tm client in
  let tm' := listing_after_save db tm template_id in
  latest_version_number db tm' client = latest_version_number db tm client + 1
  /\ latest_version_id db tm' client = Some template_id
  /\ next_version_id db tm' client
     = version_id client (latest_version_number db tm client + 2).
Proof.
  intros Hc Hall template_id tm'.
  set (n := latest_version_number db tm client).
  assert (Hn : 0 <= n) by apply latest_version_number_nonneg.
  assert (Hsan : _sanitize client = client).
  { apply filter_all_true, List.Forall_forall.
    exact (proj1 (List.forallb_forall is_client_char client) Hall). }
  assert (Hlatest : latest_version_number db tm' client = n + 1).
  { subst tm'. unfold listing_after_save, template_id, next_version_id. fold n.
    rewrite (parse_version_id db client (n + 1) Hc Hall) by lia.
    assert (Hroot : _sanitize client <> []) by now rewrite Hsan.
    destruct (list_versions_add_entry_other db tm [] (_sanitize client) client Hroot)
      as [_ Hsame].
    assert (Hn1 : latest_version_number db (add_entry tm [] (_sanitize client)) client = n).
    { unfold latest_version_number. now rewrite Hsame. }
    rewrite <- Hn1.
    apply latest_after_add_entry; assumption. }
  split; [exact Hlatest|].
  split.
  - unfold latest_version_id. rewrite Hlatest.
    assert ((0 <? n + 1) = true) as -> by (apply Z.ltb_lt; lia). reflexivity.
  - unfold next_version_id. rewrite Hlatest. f_equal. lia.
Qed.

Lemma save_then_latest_witness :
  latest_version_id ascii_db
    (listing_after_save ascii_db acme_manager (next_version_id ascii_db acme_manager (py "acme")))
    (py "acme")
  = Some (py "acme_v3").
Proof.
  assert (Hc : py "acme" <> []) by discriminate.
  destruct (save_then_latest ascii_db acme_manager (py "acme") Hc eq_refl) as (_ & H & _).
  rewrite H. vm_compute. reflexivity.
Defined.

(** ** The sentence chunker, in general *)
Lemma total_length_app (g h : list pystr) :
  total_length (g ++ h) = total_length g + total_length h.
Proof. induction g as [|s g IH]; cbn; [reflexivity|]. fold (total_length (g ++ h)). fold (total_length g). lia. Qed.

Lemma total_length_nonneg (g : list pystr) : 0 <= total_length g.
Proof. induction g as [|s g IH]; cbn; [lia|]. fold (total_length g). lia. Qed.

Lemma chunk_fold_groups (max_chars : Z) (sents : list pystr) :
  forall (gs : list (list pystr)) (cur : list pystr),
    Forall (fun g => (length g <= 1)%nat \/ total_length g <= max_chars) gs ->
    ((length cur <= 1)%nat \/ total_length cur <= max_chars) ->
    (gs = [] \/ cur <> []) ->
    Forall (fun g => g <> []) (tl gs) ->
    exists (gs' : list (list pystr)) (cur' : list pystr),
      fold_left (chunk_step max_chars) sents (map (join (py " ")) gs, cur, total_length cur)
      = (map (join (py " ")) gs', cur', total_length cur')
      /\ concat gs' ++ cur' = concat gs ++ cur ++ sents
      /\ Forall (fun g => (length g <= 1)%nat \/ total_length g <= max_chars) gs'
      /\ ((length cur' <= 1)%nat \/ total_length cur' <= max_chars)
      /\ (gs' = [] \/ cur' <> [])
      /\ Forall (fun g => g <> []) (tl gs').
Proof.
  induction sents as [|sent sents IH]; intros gs cur Hgs Hcur Hne Htl.
  - exists gs, cur. rewrite !List.app_nil_r. repeat split; assumption.
  - cbn [fold_left]. unfold chunk_step at 2.
    destruct (max_chars <? total_length cur + Z.of_nat (length sent)) eqn:E.
    + destruct (IH (gs ++ [cur]) [sent]) as (gs' & cur' & Hf & Hc & H1 & H2 & H3 & H4).
      * apply Forall_app; split; [exact Hgs|]. constructor; [exact Hcur|constructor].
      * left. cbn. lia.
      * right. discriminate.
      * destruct Hne as [->|Hne]; [constructor|].
        destruct gs as [|g gs]; cbn [tl List.app] in *.
        -- constructor.
        -- apply Forall_app; split; [exact Htl|]. constructor; [exact Hne|constructor].
      * exists gs', cur'. split.
        { rewrite <- Hf. rewrite List.map_app. cbn [map total_length fold_right].
          do 2 f_equal. lia. }
        split.
        { rewrite Hc, concat_app. cbn [concat]. rewrite List.app_nil_r, <- !List.app_assoc.
          reflexivity. }
        repeat split; assumption.
    + apply Z.ltb_ge in E.
      destruct (IH gs (cur ++ [sent])) as (gs' & cur' & Hf & Hc & H1 & H2 & H3 & H4).
      * exact Hgs.
      * right. rewrite total_length_app. cbn. lia.
      * right. now destruct cur.
      * exact Htl.
      * exists gs', cur'. split.
        { rewrite <- Hf. do 2 f_equal. rewrite total_length_app. cbn. lia. }
        split; [rewrite Hc, <- !List.app_assoc; reflexivity|].
        repeat split; assumption.
Qed.

Lemma _chunk_text_groups_ok (text : pystr) (max_chars : Z) :
  exists groups : list (list pystr),
    concat groups = split_sentences text
    /\ _chunk_text text max_chars = map (join (py " ")) groups
    /\ Forall (fun g => g <> []) (tl groups)
    /\ Forall (fun g => (length g <= 1)%nat \/ total_length g <= max_chars) groups.
Proof.
  destruct (chunk_fold_groups max_chars (split_sentences text) [] [])
    as (gs & cur & Hf & Hc & H1 & H2 & H3 & H4);
    [constructor|left; cbn; lia|now left|constructor|].
  unfold _chunk_text. cbn [map total_length fold_right] in Hf. rewrite Hf.
  cbn [concat List.app] in Hc.
  destruct cur as [|s cur].
  - exists gs. rewrite List.app_nil_r in Hc. repeat split; assumption.
  - exists (gs ++ [s :: cur]). split.
    { rewrite concat_app. cbn [concat]. now rewrite List.app_nil_r. }
    split; [now rewrite List.map_app|].
    split.
    + destruct gs as [|g gs]; cbn [tl List.app] in *; [constructor|].
      apply Forall_app; split; [exact H4|]. constructor; [discriminate|constructor].
    + apply Forall_app; split; [exact H1|]. constructor; [exact H2|constructor].
Qed.

(** X9.  [_chunk_text] loses, repeats and reorders nothing: its chunks are
    the joins of consecutive groups of the sentences of the text, only the
    first group can be empty, and a group of more than one sentence has a
    summed sentence length of at most [max_chars]. *)
Theorem _chunk_text_groups (text : pystr) (max_chars : Z) :
  exists groups : list (list pystr),
    concat groups = split_sentences text
    /\ _chunk_text text max_chars = map (join (py " ")) groups
    /\ Forall (fun g => g <> []) (tl groups)
    /\ Forall (fun g => (length g <= 1)%nat \/ total_length g <= max_chars) groups.
Proof.
  destruct (_chunk_text_groups_ok text max_chars) as (groups & H).
  exists groups. exact H.
Qed.

(** Every piece that [re.split] returns before the last one is non-empty:
    a split point follows a character of [.?!]. *)
Lemma split_sentences_aux_nonempty (s : pystr) :
  forall (skipping prev_end : bool) (cur : pystr),
    (prev_end = true -> cur <> []) ->
    exists init last,
      split_sentences_aux skipping prev_end cur s = init ++ [last]
      /\ Forall (fun p => p <> []) init.
Proof.
  induction s as [|c s IH]; intros sk pe cur Hpe; cbn [split_sentences_aux].
  - exists [], (rev cur). split; [reflexivity|constructor].
  - destruct (sk && isspace c).
    + apply IH. discriminate.
    + destruct (pe && isspace c) eqn:E.
      * apply andb_true_iff in E as [-> _].
        destruct (IH true false []) as (init & last & -> & Hi); [discriminate|].
        exists (rev cur :: init), last. split; [reflexivity|].
        constructor; [|exact Hi].
        intros Hr. apply (Hpe eq_refl). apply (f_equal (@rev _)) in Hr.
        now rewrite rev_involutive in Hr.
      * apply IH. discriminate.
Qed.

Lemma split_sentences_nonempty (text : pystr) :
  exists init last,
    split_sentences text = init ++ [last] /\ Forall (fun p => p <> []) init.
Proof. apply split_sentences_aux_nonempty. discriminate. Qed.

Lemma before_last_incl {A} (l r init : list A) (x last : A) :
  l ++ x :: r = init ++ [last] -> incl l init.
Proof.
  intros H. destruct (exists_last (l := x :: r)) as (r' & z & Hr); [discriminate|].
  rewrite Hr, List.app_assoc in H. apply app_inj_tail in H as [<- _].
  apply incl_appl, incl_refl.
Qed.

Lemma group_removelast_nonempty (groups : list (list pystr)) (init : list pystr)
  (last : pystr) (g : list pystr) :
  concat groups = init ++ [last] -> Forall (fun p => p <> []) init ->
  In g groups -> Forall (fun p => p <> []) (removelast g).
Proof.
  intros Hc Hi Hin.
  destruct (in_split _ _ Hin) as (G1 & G2 & ->).
  rewrite concat_app in Hc. cbn [concat] in Hc.
  destruct g as [|s0 g0] eqn:Eg; [constructor|].
  assert (Hne : g <> []) by (rewrite Eg; discriminate). rewrite <- Eg in *. clear Eg s0 g0.
  rewrite (app_removelast_last [] Hne) in Hc.
  rewrite <- !List.app_assoc in Hc. cbn [List.app] in Hc.
  rewrite List.app_assoc in Hc. apply before_last_incl in Hc.
  apply List.Forall_forall. intros p Hp.
  rewrite List.Forall_forall in Hi. apply Hi, Hc, List.in_app_iff. now right.
Qed.

Lemma total_length_removelast (g : list pystr) :
  Forall (fun p => p <> []) (removelast g) ->
  Z.of_nat (length g) - 1 <= total_length g.
Proof.
  induction g as [|s g IH]; intros H; [cbn; lia|].
  destruct g as [|t g]; [cbn; lia|].
  change (removelast (s :: t :: g)) with (s :: removelast (t :: g)) in H.
  inversion H as [|? ? Hs Hg]; subst. specialize (IH Hg).
  change (total_length (s :: t :: g)) with (Z.of_nat (length s) + total_length (t :: g)).
  change (length (s :: t :: g)) with (S (length (t :: g))).
  destruct s; [congruence|]. cbn [length] in *. lia.
Qed.

Lemma length_join (sep : pystr) (g : list pystr) :
  g <> [] ->
  Z.of_nat (length (join sep g))
  = total_length g + Z.of_nat (length sep) * (Z.of_nat (length g) - 1).
Proof.
  induction g as [|s g IH]; [congruence|]. intros _.
  destruct g as [|t g]; [cbn; lia|].
  change (join sep (s :: t :: g)) with (s ++ sep ++ join sep (t :: g)).
  rewrite !length_app, !Nat2Z.inj_add, IH by discriminate.
  change (total_length (s :: t :: g)) with (Z.of_nat (length s) + total_length (t :: g)).
  change (length (s :: t :: g)) with (S (length (t :: g))). lia.
Qed.

(** X10.  The bound that [_chunk_text] does keep: every chunk is one whole
    sentence of the text, or is empty, or has at most [2 * max_chars]
    characters (the summed sentences stay within [max_chars], and the
    joining spaces are fewer than the sentences, each non-empty but the
    last of the text). *)
Theorem _chunk_text_bound (text : pystr) (max_chars : Z) :
  Forall (fun chunk =>
            In chunk (split_sentences text) \/ chunk = []
            \/ Z.of_nat (length chunk) <= 2 * max_chars)
         (_chunk_text text max_chars).
Proof.
  destruct (_chunk_text_groups_ok text max_chars) as (groups & Hc & -> & _ & Hok).
  destruct (split_sentences_nonempty text) as (init & last & Hs & Hi).
  apply List.Forall_forall. intros chunk Hin.
  apply List.in_map_iff in Hin as (g & <- & Hg).
  rewrite List.Forall_forall in Hok. specialize (Hok g Hg).
  destruct g as [|s [|t g]].
  - right. now left.
  - left. rewrite <- Hc. apply in_concat. exists [s]. split; [exact Hg|now left].
  - right. right. destruct Hok as [Hok|Hok]; [cbn in Hok; lia|].
    rewrite length_join by discriminate. change (Z.of_nat (length (py " "))) with 1.
    assert (Hr : Forall (fun p => p <> []) (removelast (s :: t :: g))).
    { apply (group_removelast_nonempty groups init last); [congruence|exact Hi|exact Hg]. }
    apply total_length_removelast in Hr. lia.
Qed.

(** ** Appending to the download archive *)

Lemma str_of_int_inj (j k : Z) : 0 <= j -> 0 <= k -> str_of_int j = str_of_int k -> j = k.
Proof.
  intros Hj Hk H.
  rewrite <- (int_of_str_of_int ascii_db j Hj), <- (int_of_str_of_int ascii_db k Hk).
  now rewrite H.
Qed.

Lemma versioned_arcname_inj (name ext : pystr) (j k : Z) :
  0 <= j -> 0 <= k -> versioned_arcname name ext j = versioned_arcname name ext k -> j = k.
Proof.
  unfold versioned_arcname. intros Hj Hk H.
  apply app_inv_head, app_inv_head, app_inv_tail in H.
  now apply str_of_int_inj.
Qed.

(** The [while] loop ends: the candidates differ from one another, so at
    most [size existing] of them are taken. *)
Lemma free_arcname_versioned (existing : gset pystr) (name ext : pystr) (fuel : nat) :
  forall (X : gset pystr) (idx : Z),
    0 <= idx ->
    (forall j, idx <= j -> versioned_arcname name ext j ∈ existing ->
               versioned_arcname name ext j ∈ X) ->
    (size X <= fuel)%nat ->
    exists k, idx <= k
      /\ free_arcname fuel existing name ext (versioned_arcname name ext idx) (idx + 1)
         = Some (versioned_arcname name ext k)
      /\ (versioned_arcname name ext k ∉ existing).
Proof.
  induction fuel as [|fuel IH]; intros X idx Hidx HX Hsize; cbn [free_arcname].
  - destruct (decide (versioned_arcname name ext idx ∈ existing)) as [Hin|Hnot].
    + apply HX in Hin; [|lia]. assert (X ≡ ∅) as HX0 by (apply size_empty_inv; lia).
      set_solver.
    + rewrite bool_decide_eq_false_2 by exact Hnot. exists idx. split; [lia|]. now split.
  - destruct (decide (versioned_arcname name ext idx ∈ existing)) as [Hin|Hnot].
    + rewrite bool_decide_eq_true_2 by exact Hin.
      destruct (IH (X ∖ {[versioned_arcname name ext idx]}) (idx + 1)) as (k & Hk & Hf & Hn).
      * lia.
      * intros j Hj Hje. apply elem_of_difference. split; [apply HX; [lia|exact Hje]|].
        intros Heq%elem_of_singleton. apply versioned_arcname_inj in Heq; lia.
      * assert (HinX : versioned_arcname name ext idx ∈ X) by (apply HX; [lia|exact Hin]).
        pose proof (size_difference X {[versioned_arcname name ext idx]}) as Hd.
        rewrite size_singleton in Hd.
        assert ({[versioned_arcname name ext idx]} ⊆ X) as Hsub by set_solver.
        specialize (Hd Hsub).
        assert (size X <> 0%nat).
        { intros H0. apply size_empty_inv in H0. set_solver. }
        lia.
      * exists k. split; [lia|]. now split.
    + rewrite bool_decide_eq_false_2 by exact Hnot. exists idx. split; [lia|]. now split.
Qed.

Lemma free_arcname_total (existing : gset pystr) (name ext base : pystr) :
  exists arc,
    free_arcname (S (size existing)) existing name ext base 2 = Some arc
    /\ (arc ∉ existing)
    /\ (arc = base \/ exists k, 2 <= k /\ arc = versioned_arcname name ext k).
Proof.
  cbn [free_arcname].
  destruct (decide (base ∈ existing)) as [Hin|Hnot].
  - rewrite bool_decide_eq_true_2 by exact Hin.
    destruct (free_arcname_versioned existing name ext (size existing) existing 2)
      as (k & Hk & Hf & Hn); [lia|auto|lia|].
    exists (versioned_arcname name ext k). split; [exact Hf|]. split; [exact Hn|].
    right. exists k. now split.
  - rewrite bool_decide_eq_false_2 by exact Hnot. exists base. split; [reflexivity|].
    split; [exact Hnot|now left].
Qed.

Lemma zip_step_spec (readable : pystr -> bool) (names : list pystr) (st : zip_state)
  (fp : pystr) :
  zip_invariant names st ->
  exists st', zip_step readable st fp = Some st'
    /\ zip_invariant names st'
    /\ (zs_result st = Return tt -> readable fp = true ->
        zs_result st' = Return tt
        /\ exists arc, zs_written st' = zs_written st ++ [(fp, arc)] /\ arcname_of fp arc)
    /\ (zs_result st = Return tt -> readable fp = false ->
        zs_result st' = Raise (FileNotFoundError fp) /\ zs_written st' = zs_written st)
    /\ (forall e, zs_result st = Raise e -> st' = st).
Proof.
  intros (Hnd & Hex & Hnew). unfold zip_step.
  destruct (zs_result st) as [[]|e] eqn:Hr.
  - unfold arcname_of. destruct (splitext (basename fp)) as [name ext]. cbn [fst snd].
    destruct (free_arcname_total (zs_existing st) name ext (basename fp))
      as (arc & -> & Hfresh & Hshape).
    destruct (readable fp) eqn:Hrd.
    + eexists. split; [reflexivity|]. cbn [zs_result zs_written zs_existing].
      split.
      { unfold zip_invariant. cbn [zs_result zs_written zs_existing].
        rewrite List.map_app. cbn [map snd].
        assert (Hn1 : ~ In arc names) by (intros H; apply Hfresh, Hex; now left).
        assert (Hn2 : ~ In arc (map snd (zs_written st)))
          by (intros H; apply Hfresh, Hex; now right).
        split.
        { apply NoDup_app. split; [exact Hnd|]. split.
          - intros a Ha Ha'. apply list_elem_of_In in Ha.
            apply list_elem_of_singleton in Ha'. subst a. contradiction.
          - apply NoDup_singleton. }
        split.
        - intros a. rewrite elem_of_union, elem_of_singleton, Hex, List.in_app_iff.
          cbn [In]. intuition congruence.
        - intros a Ha. apply List.in_app_iff in Ha as [Ha|[<-|[]]]; [now apply Hnew|exact Hn1]. }
      split; [intros _ _; split; [reflexivity|]; exists arc; now split|].
      split; [intros _ H; discriminate|intros e H; discriminate].
    + eexists. split; [reflexivity|]. cbn [zs_result zs_written zs_existing].
      split; [now split|].
      split; [intros _ H; discriminate|].
      split; [intros _ _; now split|intros e H; discriminate].
  - exists st. split; [reflexivity|]. split; [now split|].
    split; [intros H; discriminate|]. split; [intros H; discriminate|reflexivity].
Qed.

Lemma zip_loop_spec (readable : pystr -> bool) (names : list pystr) (file_paths : list pystr) :
  forall st, zip_invariant names st ->
    exists st', zip_loop readable st file_paths = Some st'
      /\ zip_invariant names st'
      /\ (zs_result st = Return tt -> forallb readable file_paths = true ->
          zs_result st' = Return tt
          /\ exists arcs, zs_written st' = zs_written st ++ zip file_paths arcs
               /\ Forall2 arcname_of file_paths arcs).
Proof.
  induction file_paths as [|fp rest IH]; intros st Hinv; cbn [zip_loop].
  - exists st. split; [reflexivity|]. split; [exact Hinv|].
    intros Hr _. split; [exact Hr|]. exists []. split; [now rewrite List.app_nil_r|constructor].
  - destruct (zip_step_spec readable names st fp Hinv) as (st1 & -> & Hinv1 & Hok & _).
    destruct (IH st1 Hinv1) as (st' & -> & Hinv' & Hrest).
    exists st'. split; [reflexivity|]. split; [exact Hinv'|].
    intros Hr Hall. cbn [forallb] in Hall. apply andb_true_iff in Hall as [Hfp Hall].
    destruct (Hok Hr Hfp) as (Hr1 & arc & Hw1 & Harc).
    destruct (Hrest Hr1 Hall) as (Hr' & arcs & Hw' & Harcs).
    split; [exact Hr'|]. exists (arc :: arcs). split; [|now constructor].
    rewrite Hw', Hw1, <- List.app_assoc. reflexivity.
Qed.

(** X11.  [zip_append_with_versions] always comes to an end and never
    writes an entry under a name the archive holds: the archive afterwards
    is the old name list followed by the written arcnames, which are
    pairwise distinct and none of them an old name.  When every source file
    can be read the call returns, with one entry per path, in order, named
    by the base name of the path or by "<name>_<k><ext>" for some k >= 2. *)
Theorem zip_append_with_versions_fresh (readable : pystr -> bool)
  (archive : option (list pystr)) (file_paths : list pystr) :
  exists (arcs : list pystr) (res : outcome unit),
    zip_append_with_versions readable archive file_paths
    = Some (default [] archive ++ arcs, res)
    /\ NoDup arcs
    /\ Forall (fun a => ~ In a (default [] archive)) arcs
    /\ (forallb readable file_paths = true ->
        res = Return tt /\ Forall2 arcname_of file_paths arcs).
Proof.
  unfold zip_append_with_versions.
  set (names := default [] archive).
  destruct (zip_loop_spec readable names file_paths
              {| zs_existing := list_to_set names; zs_written := []; zs_result := Return tt |})
    as (st & -> & (Hnd & _ & Hnew) & Hok).
  { split; [constructor|]. split; [|intros a []].
    intros a. cbn [zs_existing zs_written map].
    rewrite elem_of_list_to_set, list_elem_of_In. cbn [In]. tauto. }
  exists (map snd (zs_written st)), (zs_result st).
  split; [reflexivity|]. split; [exact Hnd|].
  split; [apply List.Forall_forall; exact Hnew|].
  intros Hall. destruct (Hok eq_refl Hall) as (Hr & arcs & Hw & Harcs).
  split; [exact Hr|]. cbn [zs_written List.app] in Hw. rewrite Hw.
  assert (Hlen : length file_paths = length arcs) by (eapply Forall2_length; exact Harcs).
  rewrite snd_zip by lia. exact Harcs.
Qed.

Example zip_append_with_versions_reports :
  zip_append_with_versions (fun _ => true) (Some [py "report.pdf"]) report_paths
  = Some ([py "report.pdf"; py "report_2.pdf"; py "report_3.pdf"; py "report_2_2.pdf"],
          Return tt).
Proof. vm_compute. reflexivity. Qed.

(** ** Deduplicating the extracted text *)

Lemma fold_left_pages {A B C} (f : A -> B -> A) (g : C -> list B) (pages : list C) :
  forall st, fold_left (fun st page => fold_left f (g page) st) pages st
             = fold_left f (concat (map g pages)) st.
Proof.
  induction pages as [|p pages IH]; intros st; cbn [fold_left map concat]; [reflexivity|].
  now rewrite fold_left_app, IH.
Qed.

Lemma lower_nil (db : unicode_db) : lower db [] = [].
Proof. reflexivity. Qed.

Lemma dedupe_line_spec (db : unicode_db) (st : gset pystr * list pystr) (line : pystr) :
  dedupe_invariant db st ->
  dedupe_invariant db (dedupe_line db st line)
  /\ (In (lower db (strip line)) (map (lower db) (snd st)) \/ lower db (strip line) = [] ->
      snd (dedupe_line db st line) = snd st)
  /\ (~ In (lower db (strip line)) (map (lower db) (snd st)) -> lower db (strip line) <> [] ->
      snd (dedupe_line db st line) = snd st ++ [strip line]).
Proof.
  destruct st as [seen out]. intros (Hseen & Hnd & Hne). cbn [fst snd] in *.
  unfold dedupe_line.
  destruct (decide (lower db (strip line) <> [])) as [Hn|Hn].
  - destruct (decide (lower db (strip line) ∉ seen)) as [Hs|Hs].
    + rewrite !bool_decide_eq_true_2 by assumption. cbn [andb fst snd].
      assert (Hnot : ~ In (lower db (strip line)) (map (lower db) out))
        by (intros H; now apply Hs, Hseen).
      split.
      * unfold dedupe_invariant. cbn [fst snd]. rewrite List.map_app. cbn [map].
        split.
        { intros n. rewrite elem_of_union, elem_of_singleton, Hseen, List.in_app_iff.
          cbn [In]. intuition congruence. }
        split.
        { apply NoDup_app. split; [exact Hnd|]. split; [|apply NoDup_singleton].
          intros a Ha Ha'. apply list_elem_of_In in Ha.
          apply list_elem_of_singleton in Ha'. subst a. contradiction. }
        apply Forall_app. split; [exact Hne|]. constructor; [exact Hn|constructor].
      * split; [intros [H|H]; contradiction|reflexivity].
    + rewrite (bool_decide_eq_false_2 (_ ∉ _)) by assumption. rewrite andb_false_r.
      cbn [fst snd]. split; [now split|]. split; [reflexivity|].
      intros H. exfalso. apply H, Hseen. now apply dec_stable.
  - rewrite (bool_decide_eq_false_2 (_ <> _)) by assumption. cbn [andb fst snd].
    split; [now split|]. split; [reflexivity|]. intros _ H. contradiction.
Qed.

Lemma dedupe_fold_spec (db : unicode_db) (lines : list pystr) :
  forall st, dedupe_invariant db st ->
    dedupe_invariant db (fold_left (dedupe_line db) lines st)
    /\ exists new,
         snd (fold_left (dedupe_line db) lines st) = snd st ++ new
         /\ sublist new (map strip lines).
Proof.
  induction lines as [|line lines IH]; intros st Hinv; cbn [fold_left map].
  - split; [exact Hinv|]. exists []. now rewrite List.app_nil_r.
  - destruct (dedupe_line_spec db st line Hinv) as (Hinv1 & Hsame & Hadd).
    destruct (IH _ Hinv1) as (Hinv' & new & Hnew & Hsub).
    split; [exact Hinv'|].
    destruct (List.in_dec (fun a b : pystr => decide (a = b)) (lower db (strip line)) (map (lower db) (snd st)))
      as [Hin|Hnin].
    + exists new. rewrite Hnew, Hsame by now left. split; [reflexivity|].
      now apply sublist_cons.
    + destruct (decide (lower db (strip line) = [])) as [H0|H0].
      * exists new. rewrite Hnew, Hsame by now right. split; [reflexivity|].
        now apply sublist_cons.
      * exists (strip line :: new). rewrite Hnew, Hadd by assumption.
        rewrite <- List.app_assoc. split; [reflexivity|]. now apply sublist_skip.
Qed.

Lemma dedupe_first_occurrence (db : unicode_db) (l1 l2 : list pystr) (x : pystr) :
  lower db (strip x) <> [] ->
  Forall (fun y => lower db (strip y) <> lower db (strip x)) l1 ->
  In (strip x) (snd (fold_left (dedupe_line db) (l1 ++ x :: l2) (∅, []))).
Proof.
  intros Hx Hl1. rewrite fold_left_app. cbn [fold_left].
  assert (Hinv0 : dedupe_invariant db (∅, [])).
  { split; [|split; constructor]. intros n. cbn. set_solver. }
  destruct (dedupe_fold_spec db l1 _ Hinv0) as (Hinv1 & new1 & Hn1 & Hs1).
  cbn [snd List.app] in Hn1.
  set (st1 := fold_left (dedupe_line db) l1 (∅, [])) in *.
  destruct (dedupe_line_spec db st1 x Hinv1) as (Hinv2 & _ & Hadd).
  destruct (dedupe_fold_spec db l2 _ Hinv2) as (_ & new2 & Hn2 & _).
  rewrite Hn2, Hadd; [|clear Hadd|exact Hx].
  - apply List.in_app_iff. left. apply List.in_app_iff. right. now left.
  - rewrite Hn1. intros Hin. apply List.in_map_iff in Hin as (e & He & Hin).
    apply list_elem_of_In in Hin. apply (elem_of_sublist _ _ _ Hin) in Hs1.
    apply list_elem_of_In, List.in_map_iff in Hs1 as (y & <- & Hy).
    rewrite List.Forall_forall in Hl1. now apply (Hl1 y Hy).
Qed.

Lemma join_nil_inv (sep : pystr) (parts : list pystr) :
  Forall (fun l => l <> []) parts -> join sep parts = [] -> parts = [].
Proof.
  destruct parts as [|p [|q rest]]; [reflexivity| |]; intros H Hj; exfalso;
    inversion H as [|? ? Hp _]; subst; cbn [join] in Hj.
  - contradiction.
  - apply List.app_eq_nil in Hj as [-> _]. contradiction.
Qed.

(** The first line of a list with the normal form of a given line. *)
Lemma first_with_norm (db : unicode_db) (lines : list pystr) (l : pystr) :
  In l lines ->
  exists l1 x l2, lines = l1 ++ x :: l2
    /\ lower db (strip x) = lower db (strip l)
    /\ Forall (fun y => lower db (strip y) <> lower db (strip l)) l1.
Proof.
  induction lines as [|a ls IH]; intros Hl; [destruct Hl|].
  destruct (decide (lower db (strip a) = lower db (strip l))) as [Ha|Ha].
  - exists [], a, ls. split; [reflexivity|]. split; [exact Ha|constructor].
  - destruct Hl as [->|Hl]; [congruence|].
    destruct (IH Hl) as (l1 & x & l2 & -> & Hx & Hl1).
    exists (a :: l1), x, l2. split; [reflexivity|]. split; [exact Hx|].
    now constructor.
Qed.

(** X12.  [dedupe_text_pages] joins with newlines a list of lines that is
    a sub-sequence of the stripped lines of the pages, in their order; the
    kept lines are non-empty and differ from one another even when
    lower-cased; the first occurrence of every line that is not blank is
    kept; and the text is empty exactly when every line of every page is
    blank. *)
Theorem dedupe_text_pages_spec (db : unicode_db) (pages_text : list pystr) :
  let out := dedupe_lines db pages_text in
  dedupe_text_pages db pages_text = join [NEWLINE] out
  /\ sublist out (map strip (all_lines pages_text))
  /\ NoDup (map (lower db) out)
  /\ Forall (fun l => l <> []) out
  /\ (forall l1 x l2,
        all_lines pages_text = l1 ++ x :: l2 ->
        lower db (strip x) <> [] ->
        Forall (fun y => lower db (strip y) <> lower db (strip x)) l1 ->
        In (strip x) out)
  /\ (dedupe_text_pages db pages_text = []
      <-> Forall (fun l => lower db (strip l) = []) (all_lines pages_text)).
Proof.
  intros out.
  assert (Hout : out = snd (fold_left (dedupe_line db) (all_lines pages_text) (∅, []))).
  { subst out. unfold dedupe_lines, all_lines. now rewrite fold_left_pages. }
  assert (Hinv0 : dedupe_invariant db (∅, [])).
  { split; [|split; constructor]. intros n. cbn. set_solver. }
  destruct (dedupe_fold_spec db (all_lines pages_text) _ Hinv0)
    as ((_ & Hnd & Hnorm) & new & Hnew & Hsub).
  rewrite <- Hout in Hnd, Hnorm, Hnew. cbn [snd List.app] in Hnew. subst new.
  assert (Hne : Forall (fun l => l <> []) out).
  { eapply Forall_impl; [exact Hnorm|]. intros l Hl ->. now apply Hl. }
  assert (Hfirst : forall l1 x l2,
             all_lines pages_text = l1 ++ x :: l2 ->
             lower db (strip x) <> [] ->
             Forall (fun y => lower db (strip y) <> lower db (strip x)) l1 ->
             In (strip x) out).
  { intros l1 x l2 Hl Hx Hl1. rewrite Hout, Hl. now apply dedupe_first_occurrence. }
  split; [reflexivity|]. split; [exact Hsub|]. split; [exact Hnd|].
  split; [exact Hne|]. split; [exact Hfirst|].
  unfold dedupe_text_pages. fold out. split.
  - intros Hj. apply join_nil_inv in Hj; [|exact Hne].
    apply List.Forall_forall. intros l Hl.
    destruct (decide (lower db (strip l) = [])) as [H0|H0]; [exact H0|].
    exfalso.
    destruct (first_with_norm db (all_lines pages_text) l Hl)
      as (l1 & x & l2 & Hsplit & Hx & Hl1).
    assert (Hin : In (strip x) out).
    { apply (Hfirst l1 x l2 Hsplit); rewrite Hx; assumption. }
    rewrite Hj in Hin. destruct Hin.
  - intros Hall. destruct out as [|e out']; [reflexivity|]. exfalso.
    assert (He : e ∈ map strip (all_lines pages_text)).
    { eapply elem_of_sublist; [|exact Hsub]. left. }
    apply list_elem_of_In, List.in_map_iff in He as (y & <- & Hy).
    rewrite List.Forall_forall in Hall. specialize (Hall y Hy).
    inversion Hnorm; subst. contradiction.
Qed.

Example dedupe_text_pages_titles :
  dedupe_text_pages ascii_db title_pages
  = py "Drawing 7" ++ [NEWLINE] ++ py "ACME Corp" ++ [NEWLINE] ++ py "Scale 1:2".
Proof. vm_compute. reflexivity. Qed.

(** ** The PassLog update, page by page *)
Lemma passlog_step_pages (db : unicode_db) (page_count : pystr -> option Z)
  (failing_by passlog : gmap pystr (list Z)) (p key : pystr) (x : Z) :
  x ∈ pages_of (passlog_step db page_count failing_by passlog p) key
  <-> x ∈ pages_of passlog key
      \/ (_norm_key_from_path db p = key
          /\ exists n, page_count p = Some n /\ 0 <= x < n
                       /\ x ∉ pages_of failing_by key).
Proof.
  unfold passlog_step.
  set (newly := match page_count p with
                | Some n_pages =>
                    if 0 <? n_pages
                    then list_to_set (seqZ 0 n_pages) ∖ pages_of failing_by (_norm_key_from_path db p)
                    else ∅
                | None => ∅
                end : gset Z).
  assert (Hnew : forall y, y ∈ newly <->
            exists n, page_count p = Some n /\ 0 <= y < n
                      /\ y ∉ pages_of failing_by (_norm_key_from_path db p)).
  { intros y. subst newly. destruct (page_count p) as [n|].
    - destruct (0 <? n) eqn:E.
      + rewrite elem_of_difference, elem_of_list_to_set, elem_of_seqZ. split.
        * intros (Hy & Hf). exists n. split; [reflexivity|]. split; [lia|exact Hf].
        * intros (n' & [= <-] & Hy & Hf). split; [lia|exact Hf].
      + apply Z.ltb_ge in E. split; [set_solver|].
        intros (n' & [= <-] & Hy & _). lia.
    - split; [set_solver|]. intros (n' & Hn & _). discriminate. }
  destruct (decide (newly = ∅)) as [He|Hne].
  - split; [now left|]. intros [H|(<- & H)]; [exact H|].
    apply Hnew in H. rewrite He in H. set_solver.
  - destruct (decide (_norm_key_from_path db p = key)) as [<-|Hk].
    + unfold pages_of at 1. rewrite lookup_insert_eq. cbn [default].
      rewrite elem_of_list_to_set. unfold id.
      rewrite elem_of_sorted_set, elem_of_union, Hnew. tauto.
    + unfold pages_of at 1. rewrite lookup_insert_ne by exact Hk.
      fold (pages_of passlog key). split; [now left|]. intros [H|(Hk' & _)]; [exact H|].
      contradiction.
Qed.

Lemma passlog_fold_pages (db : unicode_db) (page_count : pystr -> option Z)
  (failing_by : gmap pystr (list Z)) (paths : list pystr) :
  forall (passlog : gmap pystr (list Z)) (key : pystr) (x : Z),
    x ∈ pages_of (fold_left (passlog_step db page_count failing_by) paths passlog) key
    <-> x ∈ pages_of passlog key
        \/ exists p n, In p paths /\ _norm_key_from_path db p = key
             /\ page_count p = Some n /\ 0 <= x < n /\ x ∉ pages_of failing_by key.
Proof.
  induction paths as [|p paths IH]; intros passlog key x; cbn [fold_left].
  - split; [now left|]. intros [H|(p & n & [] & _)]. exact H.
  - rewrite IH, passlog_step_pages. split.
    + intros [[H|(Hk & n & Hn & Hx & Hf)]|(q & n & Hq & H)].
      * now left.
      * right. exists p, n. split; [now left|]. now repeat split.
      * right. exists q, n. split; [now right|exact H].
    + intros [H|(q & n & [<-|Hq] & Hk & Hn & Hx & Hf)].
      * left. now left.
      * left. right. split; [exact Hk|]. exists n. now repeat split.
      * right. exists q, n. now repeat split.
Qed.

Lemma passlog_fold_keys (db : unicode_db) (page_count : pystr -> option Z)
  (failing_by : gmap pystr (list Z)) (paths : list pystr) :
  forall (passlog : gmap pystr (list Z)) (key : pystr),
    Forall (fun p => _norm_key_from_path db p <> key) paths ->
    fold_left (passlog_step db page_count failing_by) paths passlog !! key = passlog !! key.
Proof.
  induction paths as [|p paths IH]; intros passlog key Hall; cbn [fold_left]; [reflexivity|].
  inversion Hall as [|? ? Hp Hrest]; subst. rewrite IH by exact Hrest.
  unfold passlog_step. destruct (decide (_ = ∅)); [reflexivity|].
  now rewrite lookup_insert_ne.
Qed.

Lemma sorted_set_sorted (s : gset Z) : StronglySorted Z.le (sorted_set s) /\ NoDup (sorted_set s).
Proof.
  unfold sorted_set. split; [apply StronglySorted_merge_sort; apply _|].
  rewrite merge_sort_Permutation. apply NoDup_elements.
Qed.

Lemma passlog_fold_sorted (db : unicode_db) (page_count : pystr -> option Z)
  (failing_by : gmap pystr (list Z)) (paths : list pystr) :
  forall (passlog : gmap pystr (list Z)) (key : pystr) (pages : list Z),
    fold_left (passlog_step db page_count failing_by) paths passlog !! key = Some pages ->
    passlog !! key = Some pages \/ (StronglySorted Z.le pages /\ NoDup pages).
Proof.
  induction paths as [|p paths IH]; intros passlog key pages; cbn [fold_left]; [now left|].
  intros H. apply IH in H as [H|H]; [|now right].
  unfold passlog_step in H. destruct (decide (_ = ∅)); [now left|].
  destruct (decide (_norm_key_from_path db p = key)) as [<-|Hk].
  - rewrite lookup_insert_eq in H. injection H as <-. right. apply sorted_set_sorted.
  - rewrite lookup_insert_ne in H by exact Hk. now left.
Qed.

(** X13.  What the PassLog holds after a run.  A page is recorded for a
    key exactly when it was recorded before, or some input path of that key
    could be opened, has the page (0 <= page < page count) and the key's
    failing pages of this run do not include it.  The entry of a key that
    no input path has is left as it was, and an entry that was rewritten is
    strictly ascending. *)
Theorem passlog_update_pages (db : unicode_db) (page_count : pystr -> option Z)
  (passlog : gmap pystr (list Z)) (low_conf : list low_conf_item) (paths : list pystr)
  (key : pystr) :
  let passlog' := snd (sanitize_passlog_step db page_count passlog low_conf paths) in
  (forall x,
     x ∈ pages_of passlog' key
     <-> x ∈ pages_of passlog key
         \/ exists p n, In p paths /\ _norm_key_from_path db p = key
              /\ page_count p = Some n /\ 0 <= x < n
              /\ x ∉ pages_of (failing_by_base db low_conf) key)
  /\ (Forall (fun p => _norm_key_from_path db p <> key) paths ->
      passlog' !! key = passlog !! key)
  /\ (forall pages, passlog' !! key = Some pages ->
        passlog !! key = Some pages \/ (StronglySorted Z.le pages /\ NoDup pages)).
Proof.
  intros passlog'. subst passlog'. unfold sanitize_passlog_step. cbn [snd].
  split; [intros x; apply passlog_fold_pages|].
  split; [apply passlog_fold_keys|apply passlog_fold_sorted].
Qed.

(** The failing pages of a key are those of the last report with that key. *)
Lemma failing_by_base_app (db : unicode_db) (l1 l2 : list low_conf_item) :
  failing_by_base db (l1 ++ l2)
  = fold_left
      (fun m item =>
         <[ _norm_key_from_path db (lc_pdf item) :=
              sorted_set (list_to_set (map fst (lc_low_rects item))) ]> m)
      l2 (failing_by_base db l1).
Proof. unfold failing_by_base. now rewrite fold_left_app. Qed.

Lemma failing_fold_other (db : unicode_db) (l : list low_conf_item) (key : pystr) :
  forall m : gmap pystr (list Z),
    Forall (fun it => _norm_key_from_path db (lc_pdf it) <> key) l ->
    fold_left
      (fun m item =>
         <[ _norm_key_from_path db (lc_pdf item) :=
              sorted_set (list_to_set (map fst (lc_low_rects item))) ]> m)
      l m !! key = m !! key.
Proof.
  induction l as [|it l IH]; intros m Hall; cbn [fold_left]; [reflexivity|].
  inversion Hall as [|? ? Hit Hl]; subst. rewrite IH by exact Hl.
  now rewrite lookup_insert_ne.
Qed.

(** X14.  [failing_by_base] is keyed by the normalized base name, and a
    later report replaces an earlier one of the same key: the failing pages
    of a key are the pages of the last report with that key, and a key
    without report has none. *)
Theorem failing_by_base_last (db : unicode_db) (l1 l2 : list low_conf_item)
  (item : low_conf_item) :
  Forall (fun it => _norm_key_from_path db (lc_pdf it)
                    <> _norm_key_from_path db (lc_pdf item)) l2 ->
  forall x,
    x ∈ pages_of (failing_by_base db (l1 ++ item :: l2)) (_norm_key_from_path db (lc_pdf item))
    <-> In x (map fst (lc_low_rects item)).
Proof.
  intros Hl2 x. rewrite failing_by_base_app. cbn [fold_left].
  unfold pages_of. rewrite failing_fold_other by exact Hl2.
  rewrite lookup_insert_eq. cbn [default].
  rewrite elem_of_list_to_set. unfold id.
  rewrite elem_of_sorted_set, elem_of_list_to_set.
  apply list_elem_of_In.
Qed.

Lemma failing_by_base_last_witness :
  2 ∈ pages_of (failing_by_base ascii_db ([drawing_copy_report] ++ drawing_report :: []))
               (_norm_key_from_path ascii_db (lc_pdf drawing_report)).
Proof.
  apply (failing_by_base_last ascii_db [drawing_copy_report] [] drawing_report).
  - constructor.
  - cbn. right. now left.
Defined.

(** ** Scoring the extracted zones *)

Lemma filter_map_comm {A B} (f : B -> bool) (g : A -> B) (l : list A) :
  List.filter f (map g l) = map g (List.filter (fun a => f (g a)) l).
Proof.
  induction l as [|a l IH]; cbn; [reflexivity|].
  destruct (f (g a)); cbn; now rewrite IH.
Qed.

Lemma score_loop_spec (sc : ConfidenceScorer) (doc : document)
  (ref_contents : list zone_content) (kept : list replicated_rect) :
  forall (tgts : list zone_content) (used : list zone) (rects : list replicated_rect),
    Forall2 (emitted_for doc) (map zone_of_replicated kept) (combine tgts used) ->
    length tgts = length used ->
    (length kept <= length rects)%nat ->
    Forall (fun rr => exists ref, py_index ref_contents (rr_tidx rr) = Return ref) rects ->
    exists recs,
      score_loop sc ref_contents tgts rects = Return recs
      /\ Forall2 (fun rec p => scored_from sc doc ref_contents (fst p) (snd p) rec)
           recs (zip kept rects).
Proof.
  induction kept as [|k kept IH]; intros tgts used rects Hem Hlen Hle Hvalid.
  - cbn in Hem. inversion Hem as [Hc|]; subst.
    destruct tgts as [|t tgts]; [|destruct used; cbn in *; [lia|discriminate]].
    exists []. split; [reflexivity|constructor].
  - destruct tgts as [|t tgts]; [inversion Hem|].
    destruct used as [|u used]; [cbn in Hlen; lia|].
    destruct rects as [|r rects]; [cbn in Hle; lia|].
    cbn [map combine] in Hem. inversion Hem as [|? ? ? ? Hk Hrest]; subst.
    inversion Hvalid as [|? ? [ref Href] Hvalid']; subst.
    destruct (IH tgts used rects Hrest) as (recs & Hrecs & Hall);
      [cbn in Hlen; lia|cbn in Hle; lia|exact Hvalid'|].
    cbn [score_loop]. unfold score_pair. rewrite Href, Hrecs.
    eexists. split; [reflexivity|].
    constructor; [|exact Hall].
    destruct Hk as (page & Hpage & Hp & _ & _ & Hb & Ht & Hh & _).
    cbn [zone_of_replicated z_page z_bbox] in *.
    exists page, ref. cbn [fst snd sr_page sr_bbox sr_tidx sr_group_id sr_tscore sr_iscore sr_rscore].
    rewrite Ht, Hb, Hh. repeat split; try assumption; reflexivity.
Qed.

(** X15.  How [process_batch] pairs extracted contents with rectangles.
    On a document with a page, and with every template index in range,
    [record_scores] is computed without error; its k-th record scores the
    zone of the k-th rectangle that the extractor did not skip, and carries
    the bbox, template index and group id of the k-th rectangle of the
    list.  The two agree when no rectangle is skipped; after a skipped
    rectangle the records are labelled with the rectangle one place earlier,
    and the last rectangles get no record. *)
Theorem record_scores_pairing (sc : ConfidenceScorer) (doc : document)
  (ref_contents : list zone_content) (replicated_rectangles : list replicated_rect) :
  doc <> [] ->
  Forall (fun rr => exists ref, py_index ref_contents (rr_tidx rr) = Return ref)
    replicated_rectangles ->
  let kept := List.filter (fun rr => zone_inside doc (zone_of_replicated rr))
                replicated_rectangles in
  exists recs,
    record_scores sc doc ref_contents replicated_rectangles = Return recs
    /\ length recs = length kept
    /\ Forall2 (fun rec p => scored_from sc doc ref_contents (fst p) (snd p) rec)
         recs (zip kept replicated_rectangles)
    /\ (kept = replicated_rectangles ->
        Forall2 (fun rec rr => scored_from sc doc ref_contents rr rr rec)
          recs replicated_rectangles).
Proof.
  intros Hne Hvalid kept. unfold record_scores, extract_zones_content.
  destruct (extract_loop_spec doc (map zone_of_replicated replicated_rectangles) [] [] [] Hne)
    as (tgts & used & skipped & -> & Hlen & Hem & _).
  cbn [List.app]. rewrite filter_map_comm in Hem. fold kept in Hem.
  assert (Hle : (length kept <= length replicated_rectangles)%nat)
    by apply List.filter_length_le.
  destruct (score_loop_spec sc doc ref_contents kept tgts used replicated_rectangles
              Hem Hlen Hle Hvalid) as (recs & -> & Hall).
  exists recs. split; [reflexivity|].
  split.
  { apply Forall2_length in Hall. rewrite length_zip_with in Hall. lia. }
  split; [exact Hall|].
  intros Heq. rewrite Heq in Hall. clear -Hall.
  revert recs Hall. induction replicated_rectangles as [|r rs IH]; intros recs Hall.
  - inversion Hall; subst. constructor.
  - cbn in Hall. inversion Hall as [|? ? ? ? Hr Hrest]; subst.
    constructor; [exact Hr|]. apply IH, Hrest.
Qed.

Lemma record_scores_pairing_witness :
  exists recs,
    record_scores exact_scorer blank_a4 blank_reference replicated_off_then_in = Return recs
    /\ length recs = 1%nat.
Proof.
  assert (Hne : blank_a4 <> []) by discriminate.
  assert (Hvalid : Forall (fun rr => exists ref,
                             py_index blank_reference (rr_tidx rr) = Return ref)
                     replicated_off_then_in).
  { repeat constructor; eexists; vm_compute; reflexivity. }
  destruct (record_scores_pairing exact_scorer blank_a4 blank_reference
              replicated_off_then_in Hne Hvalid) as (recs & Hr & Hl & _).
  exists recs. split; [exact Hr|]. rewrite Hl. vm_compute. reflexivity.
Defined.

(** With the first rectangle beyond the page, the only record scores the
    zone of the second rectangle under the label of the first. *)
Example record_scores_shifted :
  record_scores exact_scorer blank_a4 blank_reference replicated_off_then_in
  = Return [{| sr_page := 0; sr_bbox := (500, 50, 700, 150)%float; sr_tidx := 0;
               sr_tscore := 1; sr_iscore := 1; sr_rscore := 1;
               sr_group_id := py "src0|p0" |}].
Proof. vm_compute. reflexivity. Qed.

(** ** The PassLog key of a path *)
Lemma last_component_after (sep : codepoint) (pre file : pystr) :
  ~ In sep file -> last_component sep (pre ++ sep :: file) = file.
Proof.
  intros Hn.
  assert (Hf : existsb (N.eqb sep) file = false).
  { apply not_true_is_false. intros H. apply List.existsb_exists in H as (c & Hc & He).
    apply N.eqb_eq in He. subst c. contradiction. }
  induction pre as [|c pre IH]; cbn [List.app last_component].
  - now rewrite Hf, N.eqb_refl.
  - assert (He : existsb (N.eqb sep) (pre ++ sep :: file) = true).
    { apply List.existsb_exists. exists sep. split; [|apply N.eqb_refl].
      apply List.in_app_iff. right. now left. }
    now rewrite He.
Qed.

Lemma last_component_none (sep : codepoint) (s : pystr) :
  ~ In sep s -> last_component sep s = s.
Proof.
  induction s as [|c s IH]; intros Hn; cbn [last_component]; [reflexivity|].
  assert (Hf : existsb (N.eqb sep) s = false).
  { apply not_true_is_false. intros H. apply List.existsb_exists in H as (x & Hx & He).
    apply N.eqb_eq in He. subst x. apply Hn. now right. }
  rewrite Hf. destruct (c =? sep)%N eqn:E; [|reflexivity].
  apply N.eqb_eq in E. subst c. exfalso. apply Hn. now left.
Qed.

Lemma rfind_none (c : codepoint) (s : pystr) : ~ In c s -> rfind c s = None.
Proof.
  induction s as [|x s IH]; intros Hn; cbn [rfind]; [reflexivity|].
  rewrite IH by (intros H; apply Hn; now right).
  destruct (x =? c)%N eqn:E; [|reflexivity].
  apply N.eqb_eq in E. subst x. exfalso. apply Hn. now left.
Qed.

Lemma rfind_last (c : codepoint) (s t : pystr) :
  ~ In c t -> rfind c (s ++ c :: t) = Some (length s).
Proof.
  intros Hn. induction s as [|x s IH]; cbn [List.app rfind length].
  - now rewrite (rfind_none c t Hn), N.eqb_refl.
  - now rewrite IH.
Qed.

Lemma splitext_root_stem (stem ext : pystr) :
  ~ In SLASH stem -> ~ In SLASH ext -> ~ In DOT ext ->
  existsb (fun c => negb (c =? DOT)%N) stem = true ->
  splitext_root (stem ++ DOT :: ext) = stem.
Proof.
  intros Hs1 Hs2 Hd Hstem. unfold splitext_root.
  rewrite (rfind_last DOT stem ext Hd).
  rewrite rfind_none.
  - cbn [Nat.leb]. rewrite Nat.sub_0_r, drop_0, !take_app_length, Hstem.
    reflexivity.
  - intros H. apply List.in_app_iff in H as [H|[H|H]]; [now apply Hs1|discriminate|now apply Hs2].
Qed.

(** X16.  The PassLog key of a path is the lower-cased, stripped stem of
    its file name: the directory and the extension do not count.  Two files
    with the same stem in different directories, or with extensions that
    differ, share one key. *)
Theorem _norm_key_from_path_stem (db : unicode_db) (dir stem ext : pystr) :
  ~ In SLASH stem -> ~ In SLASH ext -> ~ In DOT ext ->
  existsb (fun c => negb (c =? DOT)%N) stem = true ->
  _norm_key_from_path db (dir ++ SLASH :: stem ++ DOT :: ext) = lower db (strip stem)
  /\ _norm_key_from_path db (stem ++ DOT :: ext) = lower db (strip stem)
  /\ (~ In DOT stem -> _norm_key_from_path db (dir ++ SLASH :: stem) = lower db (strip stem)).
Proof.
  intros Hs1 Hs2 Hd Hstem.
  assert (Hfile : ~ In SLASH (stem ++ DOT :: ext)).
  { intros H. apply List.in_app_iff in H as [H|[H|H]];
      [now apply Hs1|discriminate|now apply Hs2]. }
  unfold _norm_key_from_path, basename.
  split; [|split].
  - rewrite (last_component_after SLASH dir _ Hfile).
    now rewrite splitext_root_stem.
  - rewrite (last_component_none SLASH _ Hfile).
    now rewrite splitext_root_stem.
  - intros Hnd. rewrite (last_component_after SLASH dir stem Hs1).
    unfold splitext_root. now rewrite (rfind_none DOT stem Hnd).
Qed.

Lemma _norm_key_from_path_stem_witness :
  _norm_key_from_path ascii_db drawing_path = py "drawing"
  /\ _norm_key_from_path ascii_db (lc_pdf drawing_copy_report) = py "drawing".
Proof.
  split.
  - change drawing_path
      with (py "/tmp/wootz_job_1/uploads" ++ SLASH :: py "Drawing" ++ DOT :: py "pdf").
    rewrite (proj1 (_norm_key_from_path_stem ascii_db (py "/tmp/wootz_job_1/uploads")
                      (py "Drawing") (py "pdf")
                      ltac:(vm_compute; intuition discriminate)
                      ltac:(vm_compute; intuition discriminate)
                      ltac:(vm_compute; intuition discriminate) eq_refl)).
    vm_compute. reflexivity.
  - change (lc_pdf drawing_copy_report)
      with (py "/tmp/wootz_job_1/uploads/old" ++ SLASH :: py "DRAWING" ++ DOT :: py "PDF").
    rewrite (proj1 (_norm_key_from_path_stem ascii_db (py "/tmp/wootz_job_1/uploads/old")
                      (py "DRAWING") (py "PDF")
                      ltac:(vm_compute; intuition discriminate)
                      ltac:(vm_compute; intuition discriminate)
                      ltac:(vm_compute; intuition discriminate) eq_refl)).
    vm_compute. reflexivity.
Defined.

(** ** Client names outside the alphabet of template ids *)

Lemma is_digit_not_client (db : unicode_db) (x : codepoint) :
  is_client_char x = true -> is_digit db x || (x =? NEWLINE)%N = true ->
  is_ascii_digit x = true.
Proof.
  unfold is_digit. intros Hc Hd.
  assert (Ha : is_ascii x = true).
  { unfold is_client_char, is_ascii_alnum, is_ascii_upper, is_ascii_lower, is_ascii_digit,
      in_range in Hc. unfold is_ascii. apply N.ltb_lt.
    repeat (apply orb_prop in Hc as [Hc|Hc]);
      repeat (apply andb_prop in Hc as [? Hc]);
      repeat match goal with
             | H : (_ <=? _)%N = true |- _ => apply N.leb_le in H
             | H : (_ =? _)%N = true |- _ => apply N.eqb_eq in H
             end; lia. }
  rewrite Ha in Hd. apply orb_prop in Hd as [Hd|Hd]; [exact Hd|].
  apply N.eqb_eq in Hd. subst x. discriminate.
Qed.

(** No id that begins with a client name holding a character outside
    [[A-Za-z0-9_-]], followed by "_v", matches [_ID_RE]. *)
Lemma _ID_RE_match_bad_client (db : unicode_db) (client rest : pystr) (c : codepoint) :
  In c client -> is_client_char c = false ->
  _ID_RE_match db (client ++ py "_v" ++ rest) = None.
Proof.
  intros Hin Hbad.
  destruct (_ID_RE_match db (client ++ py "_v" ++ rest)) as [[c' ds]|] eqn:E; [exfalso|reflexivity].
  apply _ID_RE_match_shape in E as (_ & Hall & _ & Hds & Hs).
  set (tail := fun b : bool => if b then [NEWLINE] else @nil codepoint).
  assert (Hs' : exists b, client ++ py "_v" ++ rest = (c' ++ py "_v") ++ ds ++ tail b).
  { destruct Hs as [Hs|Hs]; [exists false|exists true]; rewrite Hs, <- !List.app_assoc; cbn;
      now rewrite ?List.app_nil_r. }
  destruct Hs' as (b & Hs'). clear Hs.
  assert (HG : Forall (fun x => is_client_char x = true) (c' ++ py "_v")).
  { apply Forall_app. split; [exact Hall|]. now repeat constructor. }
  assert (HH : Forall (fun x => is_digit db x || (x =? NEWLINE)%N = true) (ds ++ tail b)).
  { apply Forall_app. split.
    - eapply Forall_impl; [exact Hds|]. intros x Hx. now rewrite Hx.
    - destruct b; cbn; repeat constructor. }
  assert (Hus : forall X, In UNDERSCORE X ->
                  ~ Forall (fun x => is_digit db x || (x =? NEWLINE)%N = true) X).
  { intros X HX HF. rewrite List.Forall_forall in HF. specialize (HF _ HX). discriminate. }
  destruct (in_split _ _ Hin) as (A & B & ->).
  rewrite <- (List.app_assoc A (c :: B)) in Hs'. cbn [List.app] in Hs'.
  assert (HX : In UNDERSCORE (B ++ py "_v" ++ rest)).
  { apply List.in_app_iff. right. now left. }
  apply List.app_eq_app in Hs' as (l & [[-> Hl]|[HGl Hl]]).
  - apply (Hus (ds ++ tail b)); [|exact HH]. rewrite Hl.
    apply List.in_app_iff. right. now right.
  - destruct l as [|x l].
    + cbn [List.app] in Hl. apply (Hus (ds ++ tail b)); [|exact HH]. rewrite <- Hl. now right.
    + cbn [List.app] in Hl. injection Hl as <- _.
      rewrite HGl in HG. apply Forall_app in HG as [_ HG].
      inversion HG as [|? ? Hc _]; subst. congruence.
Qed.

(** A file name that ends in ".json" and begins with "<client>_v" has the
    five characters of ".json" after that beginning. *)
Lemma version_file_stem (client fn : pystr) :
  ends_with (py ".json") fn = true -> starts_with (client ++ py "_v") fn = true ->
  exists rest, firstn (length fn - 5) fn = client ++ py "_v" ++ rest.
Proof.
  unfold ends_with, starts_with. intros He Hs.
  apply bool_decide_eq_true in He as [He Hlen]. apply bool_decide_eq_true in Hs.
  change (length (py ".json")) with 5%nat in *.
  pose proof (take_drop (length (client ++ py "_v")) fn) as Hfn. rewrite Hs in Hfn.
  set (rest := drop (length (client ++ py "_v")) fn) in *.
  assert (Hl : length fn = (length client + 2 + length rest)%nat).
  { rewrite <- Hfn, !length_app. cbn. lia. }
  destruct (le_lt_dec 5 (length rest)) as [Hge|Hlt].
  - exists (firstn (length rest - 5) rest). rewrite <- Hfn at 2.
    rewrite <- List.app_assoc.
    replace (length fn - 5)%nat with (length client + (2 + (length rest - 5)))%nat by lia.
    rewrite take_app_add. reflexivity.
  - exfalso.
    assert (Hin : In 118%N (drop (length fn - 5) fn)).
    { rewrite <- Hfn at 2.
      replace (client ++ py "_v") with ((client ++ [UNDERSCORE]) ++ [118%N])
        by now rewrite <- List.app_assoc.
      rewrite <- List.app_assoc.
      rewrite drop_app_le by (rewrite length_app; cbn; lia).
      apply List.in_app_iff. right. now left. }
    rewrite He in Hin. cbn in Hin. intuition discriminate.
Qed.

(** X17.  A client name that holds a character outside [[A-Za-z0-9_-]]
    never gets a version, whatever is on disk: [list_versions] is empty,
    [latest_version_id] is [None], [next_version_id] is always
    "<client>_v1", and that id does not parse as a versioned id (it is
    stored as a legacy flat file).  [_safe_client_id] lets such names
    through, since it keeps every alphanumeric character. *)
Theorem non_ascii_client_has_no_versions (db : unicode_db) (tm : TemplateManager)
  (client : pystr) (c : codepoint) :
  In c client -> is_client_char c = false ->
  list_versions db tm client = []
  /\ latest_version_number db tm client = 0
  /\ latest_version_id db tm client = None
  /\ next_version_id db tm client = client ++ py "_v1"
  /\ parse_template_id db (next_version_id db tm client) = (client ++ py "_v1", None)
  /\ listing_after_save db tm (next_version_id db tm client)
     = add_entry tm [] (client ++ py "_v1.json").
Proof.
  intros Hin Hbad.
  assert (Hl : forall tm', list_versions db tm' client = []).
  { intros tm'. unfold list_versions.
    destruct (tm_listdir tm' (_sanitize client)) as [files|]; [|reflexivity].
    assert (Ho : omap (fun fn : pystr =>
                   if ends_with (py ".json") fn && starts_with (client ++ py "_v") fn
                   then match _ID_RE_match db (firstn (length fn - 5) fn) with
                        | Some (_, ver) => Some (int_of_digits db ver)
                        | None => None
                        end
                   else None) files = []).
    { induction files as [|fn files IH]; [reflexivity|].
      cbn [omap list_omap]. fold (@omap list _).
      destruct (ends_with (py ".json") fn) eqn:He; cbn [andb]; [|exact IH].
      destruct (starts_with (client ++ py "_v") fn) eqn:Hs; [|exact IH].
      destruct (version_file_stem client fn He Hs) as (rest & ->).
      rewrite (_ID_RE_match_bad_client db client rest c Hin Hbad). exact IH. }
    rewrite Ho. reflexivity. }
  assert (H0 : latest_version_number db tm client = 0)
    by (unfold latest_version_number; now rewrite Hl).
  assert (Hnext : next_version_id db tm client = client ++ py "_v1")
    by (unfold next_version_id; now rewrite H0).
  assert (Hparse : parse_template_id db (client ++ py "_v1") = (client ++ py "_v1", None)).
  { unfold parse_template_id.
    change (client ++ py "_v1") with (client ++ py "_v" ++ py "1") at 1.
    now rewrite (_ID_RE_match_bad_client db client (py "1") c Hin Hbad). }
  split; [apply Hl|]. split; [exact H0|].
  split; [unfold latest_version_id; now rewrite H0|].
  split; [exact Hnext|]. rewrite Hnext. split; [exact Hparse|].
  unfold listing_after_save. rewrite Hparse. now rewrite <- List.app_assoc.
Qed.

Lemma non_ascii_client_has_no_versions_witness :
  _safe_client_id latin1_db (Some cafe) = cafe
  /\ next_version_id latin1_db acme_manager cafe = cafe ++ py "_v1".
Proof.
  split; [vm_compute; reflexivity|].
  assert (Hin : In 233%N cafe) by (vm_compute; tauto).
  destruct (non_ascii_client_has_no_versions latin1_db acme_manager cafe 233%N Hin eq_refl)
    as (_ & _ & _ & H & _).
  exact H.
Defined.

(** ** Manual names and replacement keys *)

Lemma str_leb_refl (a : pystr) : str_leb a a = true.
Proof. induction a as [|x a IH]; cbn; [reflexivity|]. now rewrite N.ltb_irrefl. Qed.

Lemma str_le_total : Total str_le.
Proof.
  intros a. unfold str_le. induction a as [|x a IH]; intros b; [now left|].
  destruct b as [|y b]; [now right|]. cbn.
  destruct (x <? y)%N eqn:Exy; [now left|].
  destruct (y <? x)%N eqn:Eyx; [now right|]. apply IH.
Qed.

Lemma str_le_trans : Transitive str_le.
Proof.
  intros a. unfold str_le. induction a as [|x a IH]; intros b c Hab Hbc; [reflexivity|].
  destruct b as [|y b]; [discriminate|]. destruct c as [|z c]; [discriminate|].
  cbn in *.
  destruct (x <? y)%N eqn:Exy.
  - apply N.ltb_lt in Exy. destruct (y <? z)%N eqn:Eyz.
    + apply N.ltb_lt in Eyz. assert ((x <? z)%N = true) as -> by (apply N.ltb_lt; lia).
      reflexivity.
    + destruct (z <? y)%N eqn:Ezy; [discriminate|].
      apply N.ltb_ge in Eyz, Ezy.
      assert ((x <? z)%N = true) as -> by (apply N.ltb_lt; lia). reflexivity.
  - destruct (y <? x)%N eqn:Eyx; [discriminate|]. apply N.ltb_ge in Exy, Eyx.
    assert (x = y) by lia. subst y.
    destruct (x <? z)%N eqn:Exz; [reflexivity|].
    destruct (z <? x)%N eqn:Ezx; [discriminate|]. now apply (IH b c).
Qed.

(** Words, joined and split again. *)
Lemma split_ws_aux_words (s : pystr) :
  forall cur, Forall (fun c => isspace c = false) cur -> Forall is_word (split_ws_aux cur s).
Proof.
  induction s as [|c s IH]; intros cur Hcur; cbn [split_ws_aux].
  - destruct cur as [|x cur]; [constructor|]. constructor; [|constructor].
    split; [|now apply List.Forall_rev].
    intros H. apply (f_equal (@length _)) in H. rewrite length_rev in H. discriminate.
  - destruct (isspace c) eqn:E.
    + destruct cur as [|x cur]; [apply IH; constructor|].
      constructor; [|apply IH; constructor].
      split; [|now apply List.Forall_rev].
      intros H. apply (f_equal (@length _)) in H. rewrite length_rev in H. discriminate.
    + apply IH. now constructor.
Qed.

Lemma split_ws_words (s : pystr) : Forall is_word (split_ws s).
Proof. apply split_ws_aux_words. constructor. Qed.

Lemma split_ws_aux_run (w : pystr) :
  Forall (fun c => isspace c = false) w ->
  forall cur rest, split_ws_aux cur (w ++ rest) = split_ws_aux (rev w ++ cur) rest.
Proof.
  induction 1 as [|c w Hc _ IH]; intros cur rest; [reflexivity|].
  cbn [List.app split_ws_aux]. rewrite Hc, IH. cbn [rev]. now rewrite <- List.app_assoc.
Qed.

Lemma split_ws_join (ws : list pystr) :
  Forall is_word ws -> split_ws (join (py " ") ws) = ws.
Proof.
  unfold split_ws. induction 1 as [|w ws [Hne Hw] Hws IH]; [reflexivity|].
  destruct ws as [|w2 ws].
  - cbn [join]. rewrite <- (List.app_nil_r w) at 1.
    rewrite (split_ws_aux_run w Hw), List.app_nil_r. cbn [split_ws_aux].
    destruct (rev w) eqn:E; [|now rewrite <- E, rev_involutive].
    apply (f_equal (@rev _)) in E. rewrite rev_involutive in E. contradiction.
  - change (join (py " ") (w :: w2 :: ws)) with (w ++ SPACE :: join (py " ") (w2 :: ws)).
    rewrite (split_ws_aux_run w Hw), List.app_nil_r. cbn [split_ws_aux].
    change (isspace SPACE) with true. cbv iota.
    destruct (rev w) eqn:E.
    + apply (f_equal (@rev _)) in E. rewrite rev_involutive in E. contradiction.
    + rewrite <- E, rev_involutive, IH. reflexivity.
Qed.

Lemma lstrip_head (c : codepoint) (s : pystr) : isspace c = false -> lstrip (c :: s) = c :: s.
Proof. intros H. cbn. now rewrite H. Qed.

Lemma strip_fixed (s : pystr) (a z : codepoint) (pre post : pystr) :
  s = a :: post -> s = pre ++ [z] -> isspace a = false -> isspace z = false -> strip s = s.
Proof.
  intros Ha Hz Hsa Hsz.
  assert (H1 : lstrip s = s) by (rewrite Ha; now apply lstrip_head).
  assert (H2 : rev s = z :: rev pre) by (rewrite Hz, rev_app_distr; reflexivity).
  unfold strip, rstrip. rewrite H1, H2, (lstrip_head z _ Hsz). cbn [rev].
  now rewrite rev_involutive.
Qed.

Lemma join_words_ends (ws : list pystr) :
  Forall is_word ws -> ws <> [] ->
  exists a z pre post,
    join (py " ") ws = a :: post /\ join (py " ") ws = pre ++ [z]
    /\ isspace a = false /\ isspace z = false.
Proof.
  induction 1 as [|w ws [Hne Hw] Hws IH]; [congruence|]. intros _.
  destruct w as [|a w']; [congruence|].
  inversion Hw as [|? ? Ha Hw']; subst.
  destruct ws as [|w2 ws].
  - cbn [join]. destruct (exists_last (l := a :: w')) as (pre & z & Hz); [discriminate|].
    exists a, z, pre, w'. repeat split; try assumption.
    rewrite List.Forall_forall in Hw. apply Hw. rewrite Hz.
    apply List.in_app_iff. right. now left.
  - destruct IH as (a2 & z & pre & post & _ & Hz & _ & Hsz); [discriminate|].
    change (join (py " ") ((a :: w') :: w2 :: ws))
      with ((a :: w') ++ SPACE :: join (py " ") (w2 :: ws)).
    exists a, z, ((a :: w') ++ SPACE :: pre), (w' ++ SPACE :: join (py " ") (w2 :: ws)).
    split; [reflexivity|]. split; [|now split].
    rewrite Hz. rewrite <- List.app_assoc. reflexivity.
Qed.

Lemma strip_join_words (ws : list pystr) :
  Forall is_word ws -> strip (join (py " ") ws) = join (py " ") ws.
Proof.
  intros Hws. destruct ws as [|w ws]; [reflexivity|].
  destruct (join_words_ends (w :: ws) Hws) as (a & z & pre & post & Ha & Hz & Hsa & Hsz);
    [discriminate|].
  exact (strip_fixed _ a z pre post Ha Hz Hsa Hsz).
Qed.

Lemma _norm_phrase_idem (s : pystr) : _norm_phrase (_norm_phrase s) = _norm_phrase s.
Proof.
  unfold _norm_phrase. pose proof (split_ws_words s) as Hws.
  rewrite (strip_join_words _ Hws), (split_ws_join _ Hws).
  apply strip_join_words, Hws.
Qed.

(** X18.  [_augment_manual_names_from_replacements].  Without
    replacements (no dict, or an empty one) the manual names come back as
    given, neither normalized nor deduplicated.  Otherwise the result is in
    ascending [str] order without repetition, and holds exactly the
    non-empty normal forms of the manual names and of the keys whose
    replacement is not [None]; every entry is its own normal form
    ([_norm_phrase] is idempotent). *)
Theorem _augment_manual_names_spec (manual_names : option (list pystr))
  (text_replacements : option (list (pystr * option pystr))) :
  let result := _augment_manual_names_from_replacements manual_names text_replacements in
  (text_replacements = None \/ text_replacements = Some [] ->
   result = default [] manual_names)
  /\ (forall reps, text_replacements = Some reps -> reps <> [] ->
        StronglySorted str_le result
        /\ NoDup result
        /\ (forall x, In x result <->
              x <> []
              /\ exists y, (In y (default [] manual_names) \/ exists v, In (y, Some v) reps)
                           /\ x = _norm_phrase y)
        /\ Forall (fun x => _norm_phrase x = x) result)
  /\ (forall s, _norm_phrase (_norm_phrase s) = _norm_phrase s).
Proof.
  intros result. split; [|split; [|apply _norm_phrase_idem]].
  - intros [-> | ->]; reflexivity.
  - intros reps -> Hne. subst result. unfold _augment_manual_names_from_replacements.
    destruct reps as [|kv reps]; [congruence|].
    set (rs := kv :: reps) in *. clearbody rs. clear kv reps Hne.
    set (rep_keys := omap _ rs).
    set (merged := list_to_set _ : gset pystr).
    assert (Hin : forall x, In x (merge_sort str_le (elements merged)) <->
              x <> []
              /\ exists y, (In y (default [] manual_names) \/ exists v, In (y, Some v) rs)
                           /\ x = _norm_phrase y).
    { intros x. rewrite <- list_elem_of_In, merge_sort_Permutation, elem_of_elements.
      subst merged. rewrite elem_of_list_to_set, list_elem_of_In, List.filter_In,
        List.in_map_iff, negb_true_iff, bool_decide_eq_false.
      split.
      - intros [(y & <- & Hy) Hx]. split; [exact Hx|]. exists y. split; [|reflexivity].
        apply List.in_app_iff in Hy as [Hy|Hy]; [now left|right].
        subst rep_keys. apply list_elem_of_In, list_elem_of_omap in Hy as ([k v] & Hkv & Hs).
        cbn [fst snd] in Hs. destruct v as [v|]; [|discriminate]. injection Hs as <-.
        exists v. now apply list_elem_of_In.
      - intros [Hx (y & Hy & ->)]. split; [|exact Hx]. exists y. split; [reflexivity|].
        apply List.in_app_iff. destruct Hy as [Hy|[v Hy]]; [now left|right].
        subst rep_keys. apply list_elem_of_In, list_elem_of_omap. exists (y, Some v).
        split; [now apply list_elem_of_In|reflexivity]. }
    split; [apply (@StronglySorted_merge_sort _ str_le _ str_le_trans str_le_total)|].
    split; [rewrite merge_sort_Permutation; apply NoDup_elements|].
    split; [exact Hin|].
    apply List.Forall_forall. intros x Hx. apply Hin in Hx as (_ & y & _ & ->).
    apply _norm_phrase_idem.
Qed.

Example _augment_manual_names_acme :
  _augment_manual_names_from_replacements (Some spaced_names) (Some acme_replacements)
  = [py "ACME"; py "Jane Doe"; py "John Smith"]
  /\ _augment_manual_names_from_replacements (Some spaced_names) (Some []) = spaced_names.
Proof. split; vm_compute; reflexivity. Qed.

(** ** The gate of the legacy secondary pass *)

Lemma dict_appends_get (pg pg' : Z) (bs : list bbox) (d : list (Z * list bbox)) :
  dict_get pg' (fold_left (fun d b => dict_append pg b d) bs d)
  = if decide (pg = pg')
    then match bs with
         | [] => dict_get pg' d
         | _ => Some (default [] (dict_get pg' d) ++ bs)
         end
    else dict_get pg' d.
Proof.
  revert d. induction bs as [|b bs IH]; intros d; cbn [fold_left].
  - now destruct (decide (pg = pg')).
  - rewrite IH. destruct (decide (pg = pg')) as [<-|Hne].
    + rewrite dict_get_append_eq.
      destruct bs; [reflexivity|]. cbn. now rewrite <- List.app_assoc.
    + now rewrite dict_get_append_ne.
Qed.

Lemma dict_appends_keys (pg : Z) (bs : list bbox) (d : list (Z * list bbox)) :
  List.NoDup (map fst d) ->
  List.NoDup (map fst (fold_left (fun d b => dict_append pg b d) bs d)).
Proof.
  revert d. induction bs as [|b bs IH]; intros d Hd; cbn [fold_left]; [exact Hd|].
  apply IH. now apply dict_append_NoDup.
Qed.

Lemma secondary_page_fold (thr : float) (pg : Z) (rs : list secondary_record) :
  forall high low,
    fold_left (secondary_rec_step thr pg) rs (high, low)
    = (high ++ map (fun r => (sc_page r, sc_bbox r))
                 (List.filter (fun r => negb (secondary_fail thr r)) rs),
       fold_left (fun d b => dict_append pg b d)
         (map sc_bbox (List.filter (secondary_fail thr) rs)) low).
Proof.
  induction rs as [|r rs IH]; intros high low; cbn [fold_left List.filter map].
  - now rewrite List.app_nil_r.
  - unfold secondary_rec_step at 2. destruct (secondary_fail thr r); cbn [negb map fold_left].
    + apply IH.
    + rewrite IH, <- List.app_assoc. reflexivity.
Qed.

Lemma secondary_pages_fold (thr : float) (ps : list (Z * list secondary_record)) :
  forall high low,
    List.NoDup (map fst ps) -> List.NoDup (map fst low) ->
    (forall pg, In pg (map fst ps) -> dict_get pg low = None) ->
    let res := fold_left
                 (fun st p => fold_left (secondary_rec_step thr (fst p)) (snd p) st)
                 ps (high, low) in
    fst res = high ++ map (fun r => (sc_page r, sc_bbox r))
                        (List.filter (fun r => negb (secondary_fail thr r))
                           (concat (map snd ps)))
    /\ List.NoDup (map fst (snd res))
    /\ (forall pg rs, In (pg, rs) ps ->
          dict_get pg (snd res)
          = match List.filter (secondary_fail thr) rs with
            | [] => None
            | fs => Some (map sc_bbox fs)
            end)
    /\ (forall pg, ~ In pg (map fst ps) -> dict_get pg (snd res) = dict_get pg low).
Proof.
  induction ps as [|[pg rs] ps IH]; intros high low Hnd Hlow Hfresh; cbn zeta.
  - cbn [fold_left fst snd map concat List.filter]. rewrite List.app_nil_r.
    repeat split; auto. intros pg rs [].
  - cbn [fold_left fst snd map concat]. rewrite secondary_page_fold.
    inversion Hnd as [|? ? Hnotin Hnd']; subst.
    set (low1 := fold_left (fun d b => dict_append pg b d)
                   (map sc_bbox (List.filter (secondary_fail thr) rs)) low).
    assert (Hget1 : forall pg', dict_get pg' low1
              = if decide (pg = pg')
                then match map sc_bbox (List.filter (secondary_fail thr) rs) with
                     | [] => dict_get pg' low
                     | bs => Some (default [] (dict_get pg' low) ++ bs)
                     end
                else dict_get pg' low).
    { intros pg'. subst low1. rewrite dict_appends_get.
      destruct (decide (pg = pg')); [|reflexivity].
      now destruct (map sc_bbox (List.filter (secondary_fail thr) rs)). }
    destruct (IH (high ++ map (fun r => (sc_page r, sc_bbox r))
                    (List.filter (fun r => negb (secondary_fail thr r)) rs)) low1 Hnd')
      as (Hh & Hk & Hin & Hout).
    { subst low1. now apply dict_appends_keys. }
    { intros pg' Hpg'. rewrite Hget1.
      destruct (decide (pg = pg')) as [<-|Hne]; [contradiction|].
      apply Hfresh. now right. }
    cbn zeta in Hh, Hk, Hin, Hout.
    split.
    { rewrite Hh, List.filter_app, List.map_app, <- List.app_assoc. reflexivity. }
    split; [exact Hk|].
    split.
    + intros pg' rs' [[= <- <-]|Hin'].
      * rewrite Hout by exact Hnotin. rewrite Hget1, decide_True by reflexivity.
        rewrite (Hfresh pg) by now left. cbn [default List.app].
        now destruct (List.filter (secondary_fail thr) rs).
      * now apply Hin.
    + intros pg' Hn. rewrite Hout by (intros H; apply Hn; now right).
      rewrite Hget1, decide_False; [reflexivity|]. intros ->. apply Hn. now left.
Qed.

(** X19.  The gate of the legacy secondary pass works rectangle by
    rectangle.  It returns for redaction exactly the records that do not
    fail a threshold and lists under each page exactly the bboxes of that
    page's failing records, in order; a page without failing record has no
    entry, so the report is empty exactly when no record fails; every record
    lands on one side.  A failing rectangle does not hold back the other
    rectangles of its page. *)
Theorem secondary_gate_spec (threshold : float) (record_scores : list secondary_record) :
  let high := fst (secondary_gate threshold record_scores) in
  let low := snd (secondary_gate threshold record_scores) in
  Permutation high
    (map (fun r => (sc_page r, sc_bbox r))
       (List.filter (fun r => negb (secondary_fail threshold r)) record_scores))
  /\ List.NoDup (map fst low)
  /\ (forall pg,
        dict_get pg low
        = match List.filter (secondary_fail threshold)
                  (List.filter (has_key sc_page pg) record_scores) with
          | [] => None
          | fs => Some (map sc_bbox fs)
          end)
  /\ (low = [] <-> List.filter (secondary_fail threshold) record_scores = [])
  /\ (length high + length (concat (map snd low)) = length record_scores)%nat.
Proof.
  intros high low. subst high low. unfold secondary_gate.
  destruct (secondary_pages_fold threshold (group_by sc_page record_scores) [] [])
    as (Hh & Hk & Hin & Hout);
    [apply group_by_NoDup|constructor|reflexivity|].
  cbn zeta in Hh, Hk, Hin, Hout. cbn [List.app] in Hh.
  set (res := fold_left _ (group_by sc_page record_scores) ([], [])) in *.
  assert (Hhigh : Permutation (fst res)
            (map (fun r => (sc_page r, sc_bbox r))
               (List.filter (fun r => negb (secondary_fail threshold r)) record_scores))).
  { rewrite Hh. apply Permutation_map, Permutation_filter_bool, group_by_concat. }
  assert (Hget : forall pg,
            dict_get pg (snd res)
            = match List.filter (secondary_fail threshold)
                      (List.filter (has_key sc_page pg) record_scores) with
              | [] => None
              | fs => Some (map sc_bbox fs)
              end).
  { intros pg.
    destruct (List.filter (has_key sc_page pg) record_scores) as [|r rs] eqn:E.
    - rewrite Hout; [reflexivity|]. intros Hpg.
      apply List.in_map_iff in Hpg as ([pg' rs'] & <- & Hpg).
      apply group_by_In in Hpg as [Hne Hrs]. cbn [fst] in *. congruence.
    - rewrite <- E. apply Hin. apply group_by_In. rewrite E. split; [discriminate|reflexivity]. }
  assert (Hempty : snd res = [] <-> List.filter (secondary_fail threshold) record_scores = []).
  { split.
    - intros Hnil. apply filter_all_false, List.Forall_forall. intros r Hr.
      destruct (secondary_fail threshold r) eqn:Ef; [exfalso|reflexivity].
      specialize (Hget (sc_page r)). rewrite Hnil in Hget. cbn [dict_get] in Hget.
      assert (Hr' : In r (List.filter (secondary_fail threshold)
                            (List.filter (has_key sc_page (sc_page r)) record_scores))).
      { apply List.filter_In. split; [|exact Ef]. apply List.filter_In. split; [exact Hr|].
        unfold has_key. now apply bool_decide_eq_true. }
      destruct (List.filter (secondary_fail threshold) _); [destruct Hr'|discriminate].
    - intros Hnil. destruct (snd res) as [|[pg bs] rest] eqn:E; [reflexivity|exfalso].
      specialize (Hget pg). try rewrite E in Hget. cbn [dict_get] in Hget.
      rewrite decide_True in Hget by reflexivity.
      destruct (List.filter (secondary_fail threshold)
                  (List.filter (has_key sc_page pg) record_scores)) as [|f fs] eqn:Ef;
        [discriminate|].
      assert (Hf : In f (List.filter (secondary_fail threshold) record_scores)).
      { assert (Hf : In f (f :: fs)) by now left. rewrite <- Ef in Hf.
        apply List.filter_In in Hf as [Hf Hff]. apply List.filter_In in Hf as [Hf _].
        apply List.filter_In. now split. }
      rewrite Hnil in Hf. destruct Hf. }
  split; [exact Hhigh|]. split; [exact Hk|]. split; [exact Hget|]. split; [exact Hempty|].
  (* every record on one side *)
  rewrite (Permutation_length Hhigh), length_map.
  assert (Hlow : length (concat (map snd (snd res)))
                 = length (List.filter (secondary_fail threshold) record_scores)).
  { clear Hhigh Hget Hempty Hh Hk Hin Hout. subst res.
    rewrite <- (Permutation_length
                  (Permutation_filter_bool (secondary_fail threshold) _ _
                     (group_by_concat sc_page record_scores))).
    generalize (group_by sc_page record_scores) as ps.
    assert (Hgen : forall ps high low,
              length (concat (map snd (snd (fold_left
                (fun st p => fold_left (secondary_rec_step threshold (fst p)) (snd p) st)
                ps (high, low)))))
              = (length (concat (map snd low))
                 + length (List.filter (secondary_fail threshold) (concat (map snd ps))))%nat).
    { induction ps as [|[pg rs] ps IH]; intros high low; cbn [fold_left map concat fst snd].
      - cbn. lia.
      - rewrite secondary_page_fold, IH, List.filter_app, length_app.
        assert (Hl : forall (bs : list bbox) (d : list (Z * list bbox)),
                  length (concat (map snd (fold_left (fun d b => dict_append pg b d) bs d)))
                  = (length (concat (map snd d)) + length bs)%nat).
        { induction bs as [|b bs IHb]; intros d; cbn [fold_left length]; [lia|].
          rewrite IHb, (Permutation_length (dict_append_concat pg b d)), length_app.
          cbn. lia. }
        rewrite Hl, length_map. lia. }
    intros ps. rewrite Hgen. cbn. lia. }
  rewrite Hlow. clear. induction record_scores as [|r rs IH]; cbn; [reflexivity|].
  destruct (secondary_fail threshold r); cbn; lia.
Qed.

Example secondary_gate_two :
  secondary_gate 0.9 secondary_two
  = ([(0, (200, 50, 300, 150)%float)], [(0, [(50, 50, 150, 150)%float])]).
Proof. vm_compute. reflexivity. Qed.

(** ** pipeline.py: the fallback of the template resolution *)
(** X20.  The fallback "try the next expected version" of
    [process_low_conf_batch] asks for the version after the latest one that
    is listed.  When the store holds no versioned profile of the client
    besides the listed ones (local files only: no remote copy, no legacy
    flat file of that name), the fallback never finds one: the resolution
    returns the requested id when it can be loaded, and otherwise raises
    [FileNotFoundError] after the two load attempts, without ever switching
    to another version. *)
Theorem resolve_template_local (db : unicode_db) (store : template_store)
  (tm : TemplateManager) (new_template_id : pystr) :
  (forall n p, 0 <= n ->
     store (tm_device_id tm)
       (version_id (fst (parse_template_id db new_template_id)) n) = Some p ->
     In n (list_versions db tm (fst (parse_template_id db new_template_id)))) ->
  resolve_template db store tm new_template_id
  = match store (tm_device_id tm) new_template_id with
    | Some _ => ([LoadProfile (tm_device_id tm) new_template_id], Return new_template_id)
    | None =>
        ([LoadProfile (tm_device_id tm) new_template_id;
          LoadProfile (tm_device_id tm)
            (next_version_id db tm (fst (parse_template_id db new_template_id)))],
         Raise (FileNotFoundError new_template_id))
    end.
Proof.
  intros Hlocal. unfold resolve_template.
  destruct (parse_template_id db new_template_id) as [client ver]. cbn [fst] in *.
  unfold load_profile at 1.
  destruct (store (tm_device_id tm) new_template_id) as [p|]; [reflexivity|].
  assert (Hnone : store (tm_device_id tm) (next_version_id db tm client) = None).
  { destruct (store (tm_device_id tm) (next_version_id db tm client)) as [p|] eqn:E;
      [exfalso|reflexivity].
    pose proof (latest_version_number_nonneg db tm client) as Hn.
    apply Hlocal in E; [|lia].
    apply list_versions_le_latest in E. lia. }
  unfold load_profile. rewrite Hnone. reflexivity.
Qed.

Lemma resolve_template_local_witness :
  resolve_template ascii_db acme_store acme_manager (py "acme_v7")
  = ([LoadProfile (py "dev1") (py "acme_v7"); LoadProfile (py "dev1") (py "acme_v3")],
     Raise (FileNotFoundError (py "acme_v7"))).
Proof.
  rewrite (resolve_template_local ascii_db acme_store acme_manager (py "acme_v7")).
  - vm_compute. reflexivity.
  - intros n p Hn H.
    change (fst (parse_template_id ascii_db (py "acme_v7"))) with (py "acme") in *.
    unfold acme_store in H. destruct (bool_decide _) eqn:E; [|discriminate].
    apply bool_decide_eq_true in E as [_ E].
    change (py "acme_v2") with (version_id (py "acme") 2) in E.
    unfold version_id in E. apply app_inv_head, app_inv_head in E.
    apply str_of_int_inj in E; [|exact Hn|lia]. subst n.
    vm_compute. right. now left.
Defined.
